(** * The One Tab: persistent store, auth session and gist sync

    A shallow embedding of [src/lib/services/storage.ts],
    [src/lib/services/github.ts], [src/lib/services/auth.ts],
    [src/lib/services/oauth.ts] and [src/lib/utils/groups.ts], with the
    properties of the design document proved (or refuted) against it.
    Of [auth.ts] the sign-in, the sign-out, [ensureAuthenticated], the
    retry wrapper and the silent sign-in are embedded; the listener
    registry, [restoreAuthState] and the storage listener of
    [initializeAuth] are not.  Of the pages, the handlers of the options
    page and of the storage page that write to the store from a copy the
    page holds are embedded.

    Conventions of the embedding:
    - a JS [string] is a [string] whose characters are code units below
      256; an optional field ([x?: string], which the code fills with a
      value, with [undefined], or leaves out) is an [option string];
    - timestamps ([Date.now()], a whole number of milliseconds) are [Z];
      the value returned by [Date.now()] during one call is the argument
      [now] of the embedded function;
    - [async] functions are computations in the state-and-exception monad
      [M S]: a function from the state [S] to an outcome and a new state;
      [throw] leaves the state as it is at the point of the throw;
    - [chrome.storage.local] hands out and takes in structured copies, so a
      document read with [getStorageData] is a value; the in-place updates
      the code makes on that copy ([group.tabs.push], [data.groups = ...])
      are functional updates of the value that is saved afterwards. *)

From Stdlib Require Import ZArith Ascii DecimalN DecimalPos DecimalFacts.
From stdpp Require Import gmap strings list fin_maps pretty.

(** ** Data model ([src/lib/types.ts]) *)

Module Tab.
Record t := mk {
  id : string;
  title : string;
  url : string;
  favIconUrl : option string;
  createdAt : Z
}.
End Tab.

Module Group.
Record t := mk {
  id : string;
  name : string;
  description : option string;
  tabs : list Tab.t;
  createdAt : Z;
  updatedAt : Z
}.

Definition with_tabs (ts : list Tab.t) (g : t) : t :=
  mk (id g) (name g) (description g) ts (createdAt g) (updatedAt g).

Definition with_updatedAt (now : Z) (g : t) : t :=
  mk (id g) (name g) (description g) (tabs g) (createdAt g) now.
End Group.

Module Settings.
Record t := mk {
  closeAndSave : bool;
  oauthToken : option string;
  gistId : option string;
  githubClientId : option string;
  githubClientSecret : option string
}.
End Settings.

Record StorageData := mkStorageData {
  groups : list Group.t;
  settings : Settings.t
}.

Definition with_groups (gs : list Group.t) (d : StorageData) : StorageData :=
  mkStorageData gs (settings d).

Definition with_settings (s : Settings.t) (d : StorageData) : StorageData :=
  mkStorageData (groups d) s.

#[global] Instance Tab_eq_dec : EqDecision Tab.t.
Proof. solve_decision. Defined.
#[global] Instance Group_eq_dec : EqDecision Group.t.
Proof. solve_decision. Defined.
#[global] Instance Settings_eq_dec : EqDecision Settings.t.
Proof. solve_decision. Defined.
#[global] Instance StorageData_eq_dec : EqDecision StorageData.
Proof. solve_decision. Defined.

(** ** Errors

    The code throws plain [Error] objects that differ in their message
    only.  Each [throw] site is one constructor; the message it carries is
    quoted next to it. *)

Inductive Error :=
  (* storage.ts *)
  | CannotDeleteDefaultGroup            (* Cannot delete default group *)
  | GroupNotFound (groupId : string)    (* Group <id> not found *)
  | InvalidTabIds (ids : list string)   (* Invalid tab IDs: <ids> *)
  | MustIncludeAllTabs                  (* New order must include all tabs *)
  | InvalidGroupIds (ids : list string) (* Invalid group IDs: <ids> *)
  | MustIncludeAllGroups                (* New order must include all groups *)
  | SourceGroupNotFound (groupId : string)
  | TargetGroupNotFound (groupId : string)
  | TabNotFoundInSource (tabId : string)
  | GroupNameEmpty                      (* Group name cannot be empty *)
  | GroupNameExists (name : string)     (* Group with name <name> already exists *)
  (* auth.ts *)
  | LoginRequired                       (* thrown at the end of ensureAuthenticated *)
  | ClientIdMissing
  | ClientSecretMissing
  (* oauth.ts *)
  | RuntimeLastError (message : string)
  | FlowCancelled                       (* OAuth flow was cancelled *)
  | AccessDenied                        (* the message asking to press Authorize on GitHub *)
  | OAuthErrorParam (message : string)  (* error_description, or error *)
  | NoAuthorizationCode                 (* No authorization code received *)
  | CodeVerifierNotFound                (* Code verifier not found *)
  | TokenExchangeFailed (body : string)
  | TokenError (message : string)
  | NoAccessToken
  (* github.ts *)
  | HttpError (operation : string) (status : Z)
  | NetworkError
  | GistFileNotFound                    (* Gist file not found *)
  | TokenCannotSync (cause : Error)
      (* the message that syncToGist puts around a short 401/403 message *)
  | JsonSyntaxError                     (* SyntaxError raised by JSON.parse *)
  | NullDereference                     (* TypeError: property access on null *)
  | InvalidDataFormat                   (* Invalid data format *)
  | NotStorageData.
      (* Not thrown by the code: the parsed value passed the check of
         [syncFromGist] but is not a [StorageData]; TypeScript does not
         look, and the typed model stops here. *)

(** The error taxonomy of the design document, section 7. *)
Inductive ErrorClass :=
  | ValidationError
  | NotFoundError
  | AuthRequiredError
  | AuthError
  | RemoteError
  | ConfigError.

Definition classify (e : Error) : ErrorClass :=
  match e with
  | CannotDeleteDefaultGroup | InvalidTabIds _ | MustIncludeAllTabs
  | InvalidGroupIds _ | MustIncludeAllGroups
  | GroupNameEmpty | GroupNameExists _
  | JsonSyntaxError | NullDereference | InvalidDataFormat | NotStorageData =>
      ValidationError
  | GroupNotFound _ | SourceGroupNotFound _ | TargetGroupNotFound _
  | TabNotFoundInSource _ | GistFileNotFound => NotFoundError
  | LoginRequired => AuthRequiredError
  | ClientIdMissing | ClientSecretMissing => ConfigError
  | RuntimeLastError _ | FlowCancelled | AccessDenied | OAuthErrorParam _
  | NoAuthorizationCode | CodeVerifierNotFound | TokenExchangeFailed _
  | TokenError _ | NoAccessToken => AuthError
  | HttpError _ _ | NetworkError | TokenCannotSync _ => RemoteError
  end.

(** ** The state-and-exception monad *)

Inductive outcome (A : Type) :=
  | Ok (a : A)
  | Throw (e : Error).
Arguments Ok {A} a.
Arguments Throw {A} e.

Definition M (S A : Type) : Type := S → outcome A * S.

Definition ret {S A} (a : A) : M S A := λ s, (Ok a, s).

Definition bind {S A B} (m : M S A) (k : A → M S B) : M S B :=
  λ s, match m s with
       | (Ok a, s') => k a s'
       | (Throw e, s') => (Throw e, s')
       end.

Definition throw {S A} (e : Error) : M S A := λ s, (Throw e, s).

(** [try { m } catch (e) { h e }] *)
Definition try_catch {S A} (m : M S A) (h : Error → M S A) : M S A :=
  λ s, match m s with
       | (Ok a, s') => (Ok a, s')
       | (Throw e, s') => h e s'
       end.

Definition get {S} : M S S := λ s, (Ok s, s).
Definition put {S} (s : S) : M S unit := λ _, (Ok tt, s).

Declare Scope js_scope.
Delimit Scope js_scope with js.
Notation "'let*' x := m 'in' k" := (bind m (λ x, k))
  (at level 10, x name, m at level 100, k at level 200) : js_scope.
Notation "m ;; k" := (bind m (λ _, k))
  (at level 100, k at level 200, right associativity) : js_scope.
Open Scope js_scope.

(** ** [chrome.storage.local]

    The extension uses two keys: [tabManagerData] (the document) and
    [oauthCodeVerifier] (the transient PKCE verifier). *)

Record Store := mkStore {
  tabManagerData : option StorageData;
  oauthCodeVerifier : option string
}.

#[global] Instance Store_eq_dec : EqDecision Store.
Proof. solve_decision. Defined.

(** ** [src/lib/utils/groups.ts] *)

Definition createDefaultGroup (now : Z) : Group.t :=
  Group.mk "default" "Default" None [] now now.

Definition findGroupById (gs : list Group.t) (id : string) : option Group.t :=
  List.find (λ g, bool_decide (Group.id g = id)) gs.

(** [group_<Date.now()>_<random>]; [random] stands for
    [Math.random().toString(36).substring(2, 9)]. *)
Definition generateGroupId (now : Z) (random : string) : string :=
  "group_" +:+ pretty now +:+ "_" +:+ random.

Definition createNewGroup (now : Z) (random : string)
    (name : string) (description : option string) : Group.t :=
  Group.mk (generateGroupId now random) name description [] now now.

(** The object that [findGroupById] returns is the first element of
    [data.groups] with that id; an assignment to one of its fields is an
    update of that element. *)
Fixpoint modifyGroup (f : Group.t → Group.t) (id : string)
    (gs : list Group.t) : list Group.t :=
  match gs with
  | [] => []
  | g :: gs' =>
      if bool_decide (Group.id g = id) then f g :: gs'
      else g :: modifyGroup f id gs'
  end.

(** ** [src/lib/services/storage.ts] *)

Definition defaultSettings : Settings.t :=
  Settings.mk false None None None None.

Definition getStorageData (now : Z) : M Store StorageData :=
  λ s, match tabManagerData s with
       | Some data => (Ok data, s)
       | None => (Ok (mkStorageData [createDefaultGroup now] defaultSettings), s)
       end.

Definition saveStorageData (data : StorageData) : M Store unit :=
  λ s, (Ok tt, mkStore (Some data) (oauthCodeVerifier s)).

Definition initStorage (now : Z) : M Store unit :=
  let* data := getStorageData now in
  let hasDefaultGroup :=
    existsb (λ g, bool_decide (Group.id g = "default")) (groups data) in
  if negb hasDefaultGroup
  then saveStorageData (with_groups (createDefaultGroup now :: groups data) data)
  else ret tt.

Definition getGroups (now : Z) : M Store (list Group.t) :=
  let* data := getStorageData now in
  ret (groups data).

Definition deleteGroup (now : Z) (groupId : string) : M Store unit :=
  let* data := getStorageData now in
  if bool_decide (groupId = "default") then throw CannotDeleteDefaultGroup
  else
    saveStorageData
      (with_groups
         (List.filter (λ g, negb (bool_decide (Group.id g = groupId))) (groups data))
         data).

Definition saveGroup (now : Z) (group : Group.t) : M Store unit :=
  let* data := getStorageData now in
  let stamped := Group.with_updatedAt now group in
  match list_find (λ g, Group.id g = Group.id group) (groups data) with
  | Some (index, _) =>
      saveStorageData (with_groups (<[index := stamped]> (groups data)) data)
  | None =>
      saveStorageData (with_groups (groups data ++ [stamped]) data)
  end.

Definition addTabsToGroup (now : Z) (groupId : string) (tabs : list Tab.t)
    : M Store unit :=
  let* data := getStorageData now in
  match findGroupById (groups data) groupId with
  | None => throw (GroupNotFound groupId)
  | Some group =>
      let existingUrls : gset string := list_to_set (Tab.url <$> Group.tabs group) in
      let newTabs := filter (λ t, Tab.url t ∉ existingUrls) tabs in
      saveStorageData
        (with_groups
           (modifyGroup
              (λ g, Group.with_updatedAt now
                      (Group.with_tabs (Group.tabs g ++ newTabs) g))
              groupId (groups data))
           data)
  end.

Definition removeTabFromGroup (now : Z) (groupId tabId : string) : M Store unit :=
  let* data := getStorageData now in
  match findGroupById (groups data) groupId with
  | None => throw (GroupNotFound groupId)
  | Some group =>
      saveStorageData
        (with_groups
           (modifyGroup
              (λ g, Group.with_updatedAt now
                      (Group.with_tabs
                         (filter (λ t, Tab.id t ≠ tabId) (Group.tabs g)) g))
              groupId (groups data))
           data)
  end.

(** [new Map(entries)]: entries are inserted from left to right, so of two
    entries with one key the later one stays. *)
Definition newMap {V} (entries : list (string * V)) : gmap string V :=
  foldl (λ m kv, <[kv.1 := kv.2]> m) ∅ entries.

(** [newOrder.map((id) => map.get(id)!)].  The result is [None] when some
    id has no entry, where JavaScript would put [undefined] in the array. *)
Definition getAll {V} (m : gmap string V) (newOrder : list string)
    : option (list V) :=
  mapM (λ id, m !! id) newOrder.

Definition reorderTabsInGroup (now : Z) (groupId : string)
    (newOrder : list string) : M Store unit :=
  let* data := getStorageData now in
  match findGroupById (groups data) groupId with
  | None => throw (GroupNotFound groupId)
  | Some group =>
      let existingIds : gset string := list_to_set (Tab.id <$> Group.tabs group) in
      let invalidIds := filter (λ id, id ∉ existingIds) newOrder in
      if bool_decide (0 < length invalidIds) then throw (InvalidTabIds invalidIds)
      else if bool_decide (length newOrder ≠ length (Group.tabs group))
      then throw MustIncludeAllTabs
      else
        let tabMap := newMap ((λ t, (Tab.id t, t)) <$> Group.tabs group) in
        match getAll tabMap newOrder with
        | Some reorderedTabs =>
            saveStorageData
              (with_groups
                 (modifyGroup
                    (λ g, Group.with_updatedAt now (Group.with_tabs reorderedTabs g))
                    groupId (groups data))
                 data)
        | None => ret tt (* not reached, see [getAll_newMap_defined] *)
        end
  end.

Definition reorderGroups (now : Z) (newOrder : list string) : M Store unit :=
  let* data := getStorageData now in
  let existingIds : gset string := list_to_set (Group.id <$> groups data) in
  let invalidIds := filter (λ id, id ∉ existingIds) newOrder in
  if bool_decide (0 < length invalidIds) then throw (InvalidGroupIds invalidIds)
  else if bool_decide (length newOrder ≠ length (groups data))
  then throw MustIncludeAllGroups
  else
    let groupMap := newMap ((λ g, (Group.id g, g)) <$> groups data) in
    match getAll groupMap newOrder with
    | Some reorderedGroups => saveStorageData (with_groups reorderedGroups data)
    | None => ret tt (* not reached, see [getAll_newMap_defined] *)
    end.

Definition moveTabBetweenGroups (now : Z) (tabId fromGroupId toGroupId : string)
    : M Store unit :=
  if bool_decide (fromGroupId = toGroupId) then ret tt
  else
    let* data := getStorageData now in
    match findGroupById (groups data) fromGroupId,
          findGroupById (groups data) toGroupId with
    | None, _ => throw (SourceGroupNotFound fromGroupId)
    | Some _, None => throw (TargetGroupNotFound toGroupId)
    | Some fromGroup, Some toGroup =>
        match list_find (λ t, Tab.id t = tabId) (Group.tabs fromGroup) with
        | None => throw (TabNotFoundInSource tabId)
        | Some (tabIndex, tab) =>
            let fromTabs := delete tabIndex (Group.tabs fromGroup) in
            let toTabs :=
              match list_find (λ t, Tab.url t = Tab.url tab) (Group.tabs toGroup) with
              | Some (existingTabIndex, _) =>
                  delete existingTabIndex (Group.tabs toGroup)
              | None => Group.tabs toGroup
              end in
            let groups1 :=
              modifyGroup
                (λ g, Group.with_updatedAt now (Group.with_tabs fromTabs g))
                fromGroupId (groups data) in
            let groups2 :=
              modifyGroup
                (λ g, Group.with_updatedAt now (Group.with_tabs (toTabs ++ [tab]) g))
                toGroupId groups1 in
            saveStorageData (with_groups groups2 data)
        end
    end.

(** [String.prototype.trim] and [String.prototype.toLowerCase] on strings
    of code units below 256.  The white space and line terminators in that
    range are TAB, LF, VT, FF, CR, SPACE and the no-break space U+00A0; the
    letters with a lower case are [A]..[Z], U+00C0..U+00D6 and
    U+00D8..U+00DE, and the lower case is 32 further. *)
Definition isWhiteSpace (a : ascii) : bool :=
  let n := Ascii.N_of_ascii a in
  bool_decide (9 ≤ n ≤ 13)%N || bool_decide (n = 32)%N || bool_decide (n = 160)%N.

Fixpoint trimStart (s : string) : string :=
  match s with
  | "" => ""
  | String a s' => if isWhiteSpace a then trimStart s' else s
  end.

Definition trimEnd (s : string) : string :=
  String.rev (trimStart (String.rev s)).

Definition trim (s : string) : string := trimEnd (trimStart s).

Definition lowerChar (a : ascii) : ascii :=
  let n := Ascii.N_of_ascii a in
  if bool_decide (65 ≤ n ≤ 90)%N || bool_decide (192 ≤ n ≤ 214)%N
     || bool_decide (216 ≤ n ≤ 222)%N
  then Ascii.ascii_of_N (n + 32)
  else a.

Fixpoint toLowerCase (s : string) : string :=
  match s with
  | "" => ""
  | String a s' => String (lowerChar a) (toLowerCase s')
  end.

Definition createGroup (now : Z) (random : string)
    (name : string) (description : option string) : M Store Group.t :=
  if bool_decide (name = "") || bool_decide (trim name = "")
  then throw GroupNameEmpty
  else
    let* data := getStorageData now in
    let existingGroup :=
      List.find
        (λ g, bool_decide (toLowerCase (trim (Group.name g))
                           = toLowerCase (trim name)))
        (groups data) in
    match existingGroup with
    | Some _ => throw (GroupNameExists name)
    | None =>
        let newGroup := createNewGroup now random (trim name) (trim <$> description) in
        saveStorageData (with_groups (groups data ++ [newGroup]) data);;
        ret newGroup
    end.

Definition getSettings (now : Z) : M Store Settings.t :=
  let* data := getStorageData now in
  ret (settings data).

(** [saveSettings(settings)] merges the keys of its argument over the
    stored settings: [{ ...data.settings, ...settings }].  What matters of
    the argument is which keys it has: an optional key is left out (the
    stored value stays), or present with a value or with [undefined] (the
    stored value is replaced).  [SettingsArg.t] is such an object literal. *)
Module SettingsArg.
Record t := mk {
  closeAndSave : bool;
  oauthToken : option (option string);
  gistId : option (option string);
  githubClientId : option (option string);
  githubClientSecret : option (option string)
}.

(** [{ ...settings }] for settings read from the store, where an optional
    field without a value has no key. *)
Definition spread (s : Settings.t) : t :=
  mk (Settings.closeAndSave s)
     (Some <$> Settings.oauthToken s)
     (Some <$> Settings.gistId s)
     (Some <$> Settings.githubClientId s)
     (Some <$> Settings.githubClientSecret s).

(** [{ ...a, oauthToken: tok }] *)
Definition with_oauthToken (tok : option string) (a : t) : t :=
  mk (closeAndSave a) (Some tok) (gistId a) (githubClientId a) (githubClientSecret a).

(** [{ ...a, gistId: id }] *)
Definition with_gistId (id : option string) (a : t) : t :=
  mk (closeAndSave a) (oauthToken a) (Some id) (githubClientId a) (githubClientSecret a).

(** [{ ...old, ...a }] *)
Definition merge (old : Settings.t) (a : t) : Settings.t :=
  Settings.mk (closeAndSave a)
    (default (Settings.oauthToken old) (oauthToken a))
    (default (Settings.gistId old) (gistId a))
    (default (Settings.githubClientId old) (githubClientId a))
    (default (Settings.githubClientSecret old) (githubClientSecret a)).
End SettingsArg.

Definition saveSettings (now : Z) (newSettings : SettingsArg.t) : M Store unit :=
  let* data := getStorageData now in
  saveStorageData (with_settings (SettingsArg.merge (settings data) newSettings) data).

Definition getStorageDataForSync (now : Z) : M Store StorageData :=
  getStorageData now.

Definition setStorageDataFromSync (data : StorageData) : M Store unit :=
  saveStorageData data.

(** ** JSON

    [JSON.stringify(value, null, 2)] and [JSON.parse] belong to the
    JavaScript runtime; they are embedded here after ECMA-262 (sections
    25.5.1 and 25.5.2) for the values that a [StorageData] document is made
    of.  A character is a code unit below 256, a number is an integer
    written in decimal (what [Date.now()] returns); a text with a fraction,
    an exponent or a [\u] escape above 255 has no value in this model. *)

Module JSON.

#[local] Unset Elimination Schemes.
Inductive json :=
  | JNull
  | JBool (b : bool)
  | JNumber (n : Z)
  | JString (s : string)
  | JArray (elements : list json)
  | JObject (members : list (string * json)).
#[local] Set Elimination Schemes.

Abbreviation chars := (list ascii).

Definition of_string (s : string) : chars := String.list_ascii_of_string s.

(** *** Serialisation *)

Fixpoint digits (u : Decimal.uint) : chars :=
  match u with
  | Decimal.Nil => []
  | Decimal.D0 u => "0"%char :: digits u
  | Decimal.D1 u => "1"%char :: digits u
  | Decimal.D2 u => "2"%char :: digits u
  | Decimal.D3 u => "3"%char :: digits u
  | Decimal.D4 u => "4"%char :: digits u
  | Decimal.D5 u => "5"%char :: digits u
  | Decimal.D6 u => "6"%char :: digits u
  | Decimal.D7 u => "7"%char :: digits u
  | Decimal.D8 u => "8"%char :: digits u
  | Decimal.D9 u => "9"%char :: digits u
  end.

Definition print_number (n : Z) : chars :=
  match n with
  | Z0 => digits (N.to_uint 0)
  | Zpos p => digits (N.to_uint (Npos p))
  | Zneg p => "-"%char :: digits (N.to_uint (Npos p))
  end.

Definition hex_char (n : N) : ascii :=
  if (n <? 10)%N then ascii_of_N (48 + n) else ascii_of_N (87 + n).

(** QuoteJSONString, one code unit. *)
Definition escape_char (c : ascii) : chars :=
  let n := N_of_ascii c in
  if (n =? 8)%N then ["\"; "b"]%char
  else if (n =? 9)%N then ["\"; "t"]%char
  else if (n =? 10)%N then ["\"; "n"]%char
  else if (n =? 12)%N then ["\"; "f"]%char
  else if (n =? 13)%N then ["\"; "r"]%char
  else if (n =? 34)%N then ["\"; "034"]%char
  else if (n =? 92)%N then ["\"; "\"]%char
  else if (n <? 32)%N then
    ["\"; "u"; "0"; "0"; hex_char (n / 16); hex_char (n mod 16)]%char
  else [c].

Fixpoint escape (s : string) : chars :=
  match s with
  | EmptyString => []
  | String c s' => escape_char c ++ escape s'
  end.

Definition quote (s : string) : chars :=
  "034"%char :: escape s ++ ["034"%char].

(** A line feed followed by the indentation. *)
Definition newline (indent : nat) : chars :=
  "010"%char :: replicate indent " "%char.
Arguments newline : simpl never.

(** The rest of a non-empty array after an element: the remaining
    elements, each after a comma and a line break, and the closing bracket
    on a line of its own. *)
Definition more_elements (print : json → chars) (indent : nat)
    : list json → chars :=
  fix more (xs : list json) : chars :=
    match xs with
    | [] => newline indent ++ ["]"%char]
    | y :: ys => ","%char :: newline (indent + 2) ++ print y ++ more ys
    end.

Definition print_member (print : json → chars) (m : string * json) : chars :=
  quote m.1 ++ of_string ": " ++ print m.2.

Definition more_members (print : json → chars) (indent : nat)
    : list (string * json) → chars :=
  fix more (ms : list (string * json)) : chars :=
    match ms with
    | [] => newline indent ++ ["}"%char]
    | m :: ms' => ","%char :: newline (indent + 2) ++ print_member print m ++ more ms'
    end.

(** SerializeJSONProperty with a gap of two spaces; [indent] is the
    indentation of the line on which the value starts. *)
Fixpoint print (indent : nat) (v : json) {struct v} : chars :=
  match v with
  | JNull => of_string "null"
  | JBool true => of_string "true"
  | JBool false => of_string "false"
  | JNumber n => print_number n
  | JString s => quote s
  | JArray [] => of_string "[]"
  | JArray (x :: xs) =>
      "["%char :: newline (indent + 2) ++ print (indent + 2) x
      ++ more_elements (print (indent + 2)) indent xs
  | JObject [] => of_string "{}"
  | JObject (m :: ms) =>
      "{"%char :: newline (indent + 2) ++ print_member (print (indent + 2)) m
      ++ more_members (print (indent + 2)) indent ms
  end.

(** [JSON.stringify(value, null, 2)] *)
Definition stringify (v : json) : string :=
  String.string_of_list_ascii (print 0 v).

(** *** Parsing *)

Definition is_ws (c : ascii) : bool :=
  match c with
  | "009" | "010" | "013" | " " => true
  | _ => false
  end%char.

Fixpoint skip_ws (s : chars) : chars :=
  match s with
  | c :: s' => if is_ws c then skip_ws s' else s
  | [] => []
  end.

Definition hex_value (c : ascii) : option N :=
  let n := N_of_ascii c in
  if ((48 <=? n) && (n <=? 57))%N then Some (n - 48)%N
  else if ((97 <=? n) && (n <=? 102))%N then Some (n - 87)%N
  else if ((65 <=? n) && (n <=? 70))%N then Some (n - 55)%N
  else None.

(** The characters of a string literal after the opening quote, up to and
    including the closing quote. *)
Fixpoint parse_string (s : chars) : option (string * chars) :=
  match s with
  | [] => None
  | "034"%char :: rest => Some (EmptyString, rest)
  | "\"%char :: e :: rest =>
      let cons (c : ascii) (r : chars) :=
        match parse_string r with
        | Some (str, r') => Some (String c str, r')
        | None => None
        end in
      match e with
      | "034" => cons "034" rest
      | "\" => cons "\" rest
      | "/" => cons "/" rest
      | "b" => cons "008" rest
      | "f" => cons "012" rest
      | "n" => cons "010" rest
      | "r" => cons "013" rest
      | "t" => cons "009" rest
      | "u" =>
          match rest with
          | h1 :: h2 :: h3 :: h4 :: rest' =>
              match hex_value h1, hex_value h2, hex_value h3, hex_value h4 with
              | Some 0%N, Some 0%N, Some a, Some b =>
                  cons (ascii_of_N (16 * a + b)) rest'
              | _, _, _, _ => None
              end
          | _ => None
          end
      | _ => None
      end%char
  | c :: rest =>
      if (N_of_ascii c <? 32)%N then None
      else
        match parse_string rest with
        | Some (str, r') => Some (String c str, r')
        | None => None
        end
  end.

Definition digit_of (c : ascii) : option (Decimal.uint → Decimal.uint) :=
  match c with
  | "0" => Some Decimal.D0 | "1" => Some Decimal.D1 | "2" => Some Decimal.D2
  | "3" => Some Decimal.D3 | "4" => Some Decimal.D4 | "5" => Some Decimal.D5
  | "6" => Some Decimal.D6 | "7" => Some Decimal.D7 | "8" => Some Decimal.D8
  | "9" => Some Decimal.D9
  | _ => None
  end%char.

(** The longest prefix of digits. *)
Fixpoint read_digits (s : chars) : Decimal.uint * chars :=
  match s with
  | c :: rest =>
      match digit_of c with
      | Some d => let r := read_digits rest in (d r.1, r.2)
      | None => (Decimal.Nil, s)
      end
  | [] => (Decimal.Nil, [])
  end.

(** What may not follow the integer part in this model: a fraction or an
    exponent. *)
Definition continues_number (s : chars) : bool :=
  match s with
  | c :: _ =>
      match c with
      | "." | "e" | "E" => true
      | _ => false
      end%char
  | [] => false
  end.

(** An integer without sign: [0], or digits that do not start with [0]. *)
Definition parse_natural (s : chars) : option (N * chars) :=
  let r := read_digits s in
  if continues_number r.2 then None
  else
    match r.1 with
    | Decimal.Nil => None
    | Decimal.D0 Decimal.Nil => Some (0%N, r.2)
    | Decimal.D0 _ => None
    | u => Some (N.of_uint u, r.2)
    end.

Definition parse_number (s : chars) : option (Z * chars) :=
  match s with
  | "-"%char :: rest =>
      match parse_natural rest with
      | Some (n, r) => Some (Z.opp (Z.of_N n), r)
      | None => None
      end
  | _ =>
      match parse_natural s with
      | Some (n, r) => Some (Z.of_N n, r)
      | None => None
      end
  end.

(** [closes c s]: the rest of [s] when [s] starts with [c]. *)
Definition closes (c : ascii) (s : chars) : option chars :=
  match s with
  | c' :: r => if Ascii.eqb c' c then Some r else None
  | [] => None
  end.

(** [parse_value fuel s] reads one value at the start of [s];
    [parse_elements] reads the elements of an array after its first
    bracket, up to and including the closing bracket; [parse_members] does
    the same for an object.  Every call consumes one unit of [fuel]; a text
    needs no more fuel than it has characters. *)
Fixpoint parse_value (fuel : nat) (s : chars) {struct fuel}
    : option (json * chars) :=
  match fuel with
  | 0 => None
  | S fuel =>
      match s with
      | "n" :: "u" :: "l" :: "l" :: rest => Some (JNull, rest)
      | "t" :: "r" :: "u" :: "e" :: rest => Some (JBool true, rest)
      | "f" :: "a" :: "l" :: "s" :: "e" :: rest => Some (JBool false, rest)
      | "034" :: rest =>
          match parse_string rest with
          | Some (str, r) => Some (JString str, r)
          | None => None
          end
      | "[" :: rest =>
          match closes "]" (skip_ws rest) with
          | Some r => Some (JArray [], r)
          | None =>
              match parse_elements fuel (skip_ws rest) with
              | Some (xs, r') => Some (JArray xs, r')
              | None => None
              end
          end
      | "{" :: rest =>
          match closes "}" (skip_ws rest) with
          | Some r => Some (JObject [], r)
          | None =>
              match parse_members fuel (skip_ws rest) with
              | Some (ms, r') => Some (JObject ms, r')
              | None => None
              end
          end
      | _ =>
          match parse_number s with
          | Some (n, r) => Some (JNumber n, r)
          | None => None
          end
      end%char
  end
with parse_elements (fuel : nat) (s : chars) {struct fuel}
    : option (list json * chars) :=
  match fuel with
  | 0 => None
  | S fuel =>
      match parse_value fuel s with
      | Some (x, r) =>
          match skip_ws r with
          | "," :: r' =>
              match parse_elements fuel (skip_ws r') with
              | Some (xs, r'') => Some (x :: xs, r'')
              | None => None
              end
          | "]" :: r' => Some ([x], r')
          | _ => None
          end%char
      | None => None
      end
  end
with parse_members (fuel : nat) (s : chars) {struct fuel}
    : option (list (string * json) * chars) :=
  match fuel with
  | 0 => None
  | S fuel =>
      match s with
      | "034"%char :: rest =>
          match parse_string rest with
          | Some (k, r) =>
              match skip_ws r with
              | ":"%char :: r1 =>
                  match parse_value fuel (skip_ws r1) with
                  | Some (x, r2) =>
                      match skip_ws r2 with
                      | "," :: r3 =>
                          match parse_members fuel (skip_ws r3) with
                          | Some (ms, r4) => Some ((k, x) :: ms, r4)
                          | None => None
                          end
                      | "}" :: r3 => Some ([(k, x)], r3)
                      | _ => None
                      end%char
                  | None => None
                  end
              | _ => None
              end
          | None => None
          end
      | _ => None
      end
  end.

(** The fuel that reading a value back takes. *)
Fixpoint weight (v : json) : nat :=
  match v with
  | JArray xs => S (foldr (λ x n, S (weight x + n)) 0 xs)
  | JObject ms => S (foldr (λ m n, S (weight m.2 + n)) 0 ms)
  | _ => 1
  end.

(** The first character of a value. *)
Definition starts_value (c : ascii) : bool :=
  match c with
  | "n" | "t" | "f" | "034" | "[" | "{" | "-"
  | "0" | "1" | "2" | "3" | "4" | "5" | "6" | "7" | "8" | "9" => true
  | _ => false
  end%char.

Definition starts_number (c : ascii) : bool :=
  match c with
  | "-" | "0" | "1" | "2" | "3" | "4" | "5" | "6" | "7" | "8" | "9" => true
  | _ => false
  end%char.

(** What follows a printed value: nothing, a comma or a line feed. *)
Definition delimited (s : chars) : bool :=
  match s with
  | [] => true
  | c :: _ =>
      match c with
      | "," | "010" => true
      | _ => false
      end%char
  end.

(** A printed value is read back from any text that continues with a
    delimiter, at any indentation, given the fuel of its weight. *)
Definition reads_back (v : json) : Prop :=
  ∀ fuel indent rest,
    weight v ≤ fuel → delimited rest = true →
    parse_value fuel (print indent v ++ rest) = Some (v, rest).

(** [JSON.parse(text)]; [None] stands for the [SyntaxError], and for a
    text outside this model.  An integer is read exactly, where the code
    reads the nearest double: the two agree on the safe integers. *)
Definition parse (text : string) : option json :=
  let s := of_string text in
  match parse_value (S (length s)) (skip_ws s) with
  | Some (v, rest) => if bool_decide (skip_ws rest = []) then Some v else None
  | None => None
  end.

End JSON.

(** *** A [StorageData] document as a JSON value

    [JSON.stringify] writes the own properties of an object in the order
    in which they were created and leaves out those whose value is
    [undefined]; the order below is the one of the object literals of
    [createDefaultGroup], [chromeTabToTab] and the type declarations.
    Reading goes by key and does not depend on the order. *)

Import JSON.

Definition optional (key : string) (value : option string) : list (string * json) :=
  match value with
  | Some s => [(key, JString s)]
  | None => []
  end.

Definition jsonOfTab (t : Tab.t) : json :=
  JObject
    ([("id", JString (Tab.id t)); ("title", JString (Tab.title t));
      ("url", JString (Tab.url t))]
     ++ optional "favIconUrl" (Tab.favIconUrl t)
     ++ [("createdAt", JNumber (Tab.createdAt t))]).

Definition jsonOfGroup (g : Group.t) : json :=
  JObject
    ([("id", JString (Group.id g)); ("name", JString (Group.name g))]
     ++ optional "description" (Group.description g)
     ++ [("tabs", JArray (jsonOfTab <$> Group.tabs g));
         ("createdAt", JNumber (Group.createdAt g));
         ("updatedAt", JNumber (Group.updatedAt g))]).

Definition jsonOfSettings (s : Settings.t) : json :=
  JObject
    ([("closeAndSave", JBool (Settings.closeAndSave s))]
     ++ optional "oauthToken" (Settings.oauthToken s)
     ++ optional "gistId" (Settings.gistId s)
     ++ optional "githubClientId" (Settings.githubClientId s)
     ++ optional "githubClientSecret" (Settings.githubClientSecret s)).

Definition jsonOfStorageData (d : StorageData) : json :=
  JObject
    [("groups", JArray (jsonOfGroup <$> groups d));
     ("settings", jsonOfSettings (settings d))].

(** [value[key]]: the last member with that key, [None] for [undefined]
    (no such member, or not an object). *)
Definition member (key : string) (value : json) : option json :=
  match value with
  | JObject ms => snd <$> List.find (λ m, String.eqb m.1 key) (rev ms)
  | _ => None
  end.

Definition asString (v : json) : option string :=
  match v with JString s => Some s | _ => None end.

Definition asNumber (v : json) : option Z :=
  match v with JNumber n => Some n | _ => None end.

Definition asBool (v : json) : option bool :=
  match v with JBool b => Some b | _ => None end.

Definition asArray (v : json) : option (list json) :=
  match v with JArray xs => Some xs | _ => None end.

(** An optional string property: absent, or a string. *)
Definition optionalString (key : string) (v : json) : option (option string) :=
  match member key v with
  | None => Some None
  | Some (JString s) => Some (Some s)
  | Some _ => None
  end.

(** TypeScript takes the parsed value for a [StorageData] unchecked.  The
    readers below give the document when the value has that type, and
    [None] when it has not: such a value is outside this typed model. *)
Definition tabOfJson (v : json) : option Tab.t :=
  id ← member "id" v ≫= asString;
  title ← member "title" v ≫= asString;
  url ← member "url" v ≫= asString;
  favIconUrl ← optionalString "favIconUrl" v;
  createdAt ← member "createdAt" v ≫= asNumber;
  Some (Tab.mk id title url favIconUrl createdAt).

Definition groupOfJson (v : json) : option Group.t :=
  id ← member "id" v ≫= asString;
  name ← member "name" v ≫= asString;
  description ← optionalString "description" v;
  elements ← member "tabs" v ≫= asArray;
  tabs ← mapM tabOfJson elements;
  createdAt ← member "createdAt" v ≫= asNumber;
  updatedAt ← member "updatedAt" v ≫= asNumber;
  Some (Group.mk id name description tabs createdAt updatedAt).

Definition settingsOfJson (v : json) : option Settings.t :=
  closeAndSave ← member "closeAndSave" v ≫= asBool;
  oauthToken ← optionalString "oauthToken" v;
  gistId ← optionalString "gistId" v;
  githubClientId ← optionalString "githubClientId" v;
  githubClientSecret ← optionalString "githubClientSecret" v;
  Some (Settings.mk closeAndSave oauthToken gistId githubClientId githubClientSecret).

Definition storageDataOfJson (v : json) : option StorageData :=
  elements ← member "groups" v ≫= asArray;
  groups ← mapM groupOfJson elements;
  settings ← member "settings" v ≫= settingsOfJson;
  Some (mkStorageData groups settings).

(** [JSON.stringify(data, null, 2)] for [data : StorageData]. *)
Definition serialize (data : StorageData) : string :=
  stringify (jsonOfStorageData data).

(** JavaScript falsiness of a property value. *)
Definition falsy (v : option json) : bool :=
  match v with
  | None | Some JNull | Some (JBool false) | Some (JNumber 0) => true
  | Some (JString s) => bool_decide (s = "")
  | Some _ => false
  end.

(** ** The process and its environment

    A [World] is what one extension process can change: the local store,
    the module-level variables of [auth.ts], and the effects it has had on
    the outside, recorded in order.  An [Env] is what the outside answers:
    the clock, the random PKCE verifier, the outcome of the browser's
    interactive authorization flow and the answers of the GitHub
    endpoints. *)

Module UserInfo.
Record t := mk {
  login : string;
  id : Z;
  avatar_url : string;
  html_url : string
}.
End UserInfo.

Module AuthState.
Record t := mk {
  isSignedIn : bool;
  login : string;
  userInfo : option UserInfo.t;
  token : option string
}.
End AuthState.

Inductive Event :=
  | FetchedUser (token : string)        (* GET /user *)
  | LaunchedWebAuthFlow (clientId : string)
      (* chrome.identity.launchWebAuthFlow({ interactive: true }) *)
  | PostedTokenExchange (code : string) (* POST to the token endpoint *)
  | Notified (state : AuthState.t).     (* notifyListeners() *)

Record World := mkWorld {
  store : Store;
  auth : AuthState.t;
  events : list Event
}.

Definition liftStore {A} (m : M Store A) : M World A :=
  λ w, let r := m (store w) in (r.1, mkWorld r.2 (auth w) (events w)).

Definition emit (e : Event) : M World unit :=
  λ w, (Ok tt, mkWorld (store w) (auth w) (events w ++ [e])).

Definition getAuth : M World AuthState.t := λ w, (Ok (auth w), w).

Definition setAuth (a : AuthState.t) : M World unit :=
  λ w, (Ok tt, mkWorld (store w) a (events w)).

(** The answer to an HTTP request: [fetch] rejects, or the response has a
    status outside 200..299 ([response.ok] is false), or it carries a
    body. *)
Inductive HttpResult (A : Type) :=
  | Rejected
  | Status (status : Z)
  | Body (a : A).
Arguments Rejected {A}.
Arguments Status {A} status.
Arguments Body {A} a.

(** The parsed callback URL: [url.searchParams], in order. *)
Record URL := mkURL { searchParams : list (string * string) }.

(** [url.searchParams.get(name)]: the value of the first pair with that
    name. *)
Definition searchParams_get (url : URL) (name : string) : option string :=
  snd <$> List.find (λ kv, bool_decide (kv.1 = name)) (searchParams url).

Record TokenData := mkTokenData {
  td_error : option string;
  td_error_description : option string;
  access_token : option string
}.

Record Env := mkEnv {
  now : Z;
  codeVerifier : string;                     (* generateCodeVerifier() *)
  lastError : option string;                 (* chrome.runtime.lastError?.message *)
  callbackUrl : option URL;                  (* argument of the flow's callback *)
  tokenEndpoint : string → HttpResult TokenData;  (* by authorization code *)
  tokenEndpointText : string;                (* body text of a failed exchange *)
  userEndpoint : string → HttpResult UserInfo.t;  (* GET /user, by token *)
  gistAccess : string → bool;                (* the gist endpoints accept the token *)
  newGistId : string                         (* the id that POST /gists assigns *)
}.

(** JavaScript truthiness of a [string | undefined]. *)
Definition truthy (s : option string) : bool :=
  match s with
  | Some s => negb (bool_decide (s = ""))
  | None => false
  end.

(** ** [src/lib/services/github.ts]: the user endpoint *)

Definition testGitHubToken (env : Env) (token : string) : M World bool :=
  emit (FetchedUser token);;
  match userEndpoint env token with
  | Rejected => throw NetworkError
  | Status status => throw (HttpError "testGitHubToken" status)
  | Body user => ret (negb (bool_decide (UserInfo.login user = "")))
  end.

Definition getUserInfo (env : Env) (token : string) : M World UserInfo.t :=
  emit (FetchedUser token);;
  match userEndpoint env token with
  | Rejected => throw NetworkError
  | Status status => throw (HttpError "getUserInfo" status)
  | Body user => ret user
  end.

(** ** [src/lib/services/oauth.ts] *)

Definition authenticateWithGitHub (env : Env) (clientId : string)
    (clientSecret : option string) : M World string :=
  liftStore (λ s, (Ok tt, mkStore (tabManagerData s) (Some (codeVerifier env))));;
  emit (LaunchedWebAuthFlow clientId);;
  match lastError env with
  | Some message => throw (RuntimeLastError message)
  | None =>
      match callbackUrl env with
      | None => throw FlowCancelled
      | Some url =>
          let code := searchParams_get url "code" in
          let error := searchParams_get url "error" in
          let errorDescription := searchParams_get url "error_description" in
          if truthy error then
            if bool_decide (error = Some "access_denied") then throw AccessDenied
            else throw (OAuthErrorParam
                          (default "" (if truthy errorDescription
                                       then errorDescription else error)))
          else if negb (truthy code) then throw NoAuthorizationCode
          else
            let* verifier := liftStore (λ s, (Ok (oauthCodeVerifier s), s)) in
            if negb (truthy verifier) then throw CodeVerifierNotFound
            else
              emit (PostedTokenExchange (default "" code));;
              match tokenEndpoint env (default "" code) with
              | Rejected => throw NetworkError
              | Status _ => throw (TokenExchangeFailed (tokenEndpointText env))
              | Body tokenData =>
                  if truthy (td_error tokenData) then
                    throw (TokenError
                             (default "" (if truthy (td_error_description tokenData)
                                          then td_error_description tokenData
                                          else td_error tokenData)))
                  else
                    match access_token tokenData with
                    | Some accessToken =>
                        if bool_decide (accessToken = "") then throw NoAccessToken
                        else
                          liftStore (λ s, (Ok tt, mkStore (tabManagerData s) None));;
                          ret accessToken
                    | None => throw NoAccessToken
                    end
              end
      end
  end.

(** ** [src/lib/services/auth.ts]

    The flag [isUpdatingToken] and the timers that reset it only gate the
    [chrome.storage.onChanged] listener, which is not part of this model. *)

Definition notifyListeners : M World unit :=
  let* state := getAuth in
  emit (Notified state).

Definition getAuthState : M World AuthState.t := getAuth.

Definition markUserAsSignedIn (env : Env) (newToken : string)
    (newUserInfo : UserInfo.t) (refreshUI : bool) : M World unit :=
  setAuth (AuthState.mk true (UserInfo.login newUserInfo) (Some newUserInfo)
             (Some newToken));;
  let* settings := liftStore (getSettings (now env)) in
  (if negb (bool_decide (Settings.oauthToken settings = Some newToken))
   then liftStore
          (saveSettings (now env)
             (SettingsArg.with_oauthToken (Some newToken)
                (SettingsArg.spread settings)))
   else ret tt);;
  if refreshUI then notifyListeners else ret tt.

Definition markUserAsSignedOut : M World unit :=
  setAuth (AuthState.mk false "" None None);;
  notifyListeners.

Definition getToken : M World (option string) :=
  let* state := getAuth in
  ret (AuthState.token state).

Definition signOut (env : Env) : M World unit :=
  let* settings := liftStore (getSettings (now env)) in
  liftStore
    (saveSettings (now env)
       (SettingsArg.with_oauthToken None (SettingsArg.spread settings)));;
  markUserAsSignedOut.

(** The [try] block of [ensureAuthenticated] either returns from the
    function ([true]) or falls through to the final [throw] ([false]). *)
Definition ensureAuthenticated (env : Env) : M World unit :=
  let* state := getAuth in
  let* returned :=
    if AuthState.isSignedIn state && truthy (AuthState.token state) then
      try_catch
        (let* isValid := testGitHubToken env (default "" (AuthState.token state)) in
         if isValid then ret true
         else signOut env;; ret false)
        (λ _, signOut env;; ret false)
    else ret false in
  if returned then ret tt else throw LoginRequired.

Definition signIn (env : Env) : M World bool :=
  let* settings := liftStore (getSettings (now env)) in
  if negb (truthy (Settings.githubClientId settings)) then throw ClientIdMissing
  else if negb (truthy (Settings.githubClientSecret settings))
  then throw ClientSecretMissing
  else
    try_catch
      (let* accessToken :=
         authenticateWithGitHub env
           (default "" (Settings.githubClientId settings))
           (Settings.githubClientSecret settings) in
       let* user := getUserInfo env accessToken in
       markUserAsSignedIn env accessToken user true;;
       ret true)
      (λ error, throw error).

(** ** [src/lib/services/github.ts]: the gist endpoints

    The sync client sees the local store and the gists of the remote
    service.  A gist is its files, a list of names with contents in the
    order in which [GET /gists/{id}] lists them.  Of the service the model
    keeps what its API documents: a token it does not accept gets 401, an
    unknown id 404; [PATCH] replaces the content of the file named in the
    request (or adds the file) and leaves the other files alone; [POST]
    creates a gist with the one file of the request. *)

Definition GIST_FILENAME : string := "the-one-tab-data.json".

Abbreviation Files := (list (string * string)).

Record Cloud := mkCloud {
  local : Store;
  gists : gmap string Files
}.

Definition liftLocal {A} (m : M Store A) : M Cloud A :=
  λ c, let r := m (local c) in (r.1, mkCloud r.2 (gists c)).

Fixpoint setFile (name content : string) (files : Files) : Files :=
  match files with
  | [] => [(name, content)]
  | (n, c) :: files' =>
      if String.eqb n name then (n, content) :: files'
      else (n, c) :: setFile name content files'
  end.

Definition getGistRequest (env : Env) (token gistId : string)
    : M Cloud (HttpResult Files) :=
  λ c, (Ok (if negb (gistAccess env token) then Status 401
            else match gists c !! gistId with
                 | Some files => Body files
                 | None => Status 404
                 end), c).

Definition patchGistRequest (env : Env) (token gistId filename content : string)
    : M Cloud (HttpResult unit) :=
  λ c, if negb (gistAccess env token) then (Ok (Status 401), c)
       else match gists c !! gistId with
            | Some files =>
                (Ok (Body tt),
                 mkCloud (local c) (<[gistId := setFile filename content files]> (gists c)))
            | None => (Ok (Status 404), c)
            end.

Definition postGistRequest (env : Env) (token filename content : string)
    : M Cloud (HttpResult string) :=
  λ c, if negb (gistAccess env token) then (Ok (Status 401), c)
       else (Ok (Body (newGistId env)),
             mkCloud (local c) (<[newGistId env := [(filename, content)]]> (gists c))).

(** [s.includes(sub)] *)
Fixpoint includes (s sub : string) : bool :=
  String.prefix sub s
  || match s with
     | EmptyString => false
     | String _ s' => includes s' sub
     end.

(** The token check after the creation only logs, and is left out. *)
Definition createGist (env : Env) (token : string) : M Cloud string :=
  let* data := liftLocal (getStorageDataForSync (now env)) in
  let content := serialize data in
  let* response := postGistRequest env token GIST_FILENAME content in
  match response with
  | Rejected => throw NetworkError
  | Status status => throw (HttpError "createGist" status)
  | Body id => ret id
  end.

(** [Object.keys(files)], from the names of the files in the order in
    which the answer of the service lists them (the order in which
    [response.json()] creates the properties).  The array indices come
    first, in ascending order: the names that are the numeral of an integer
    below 2^32 - 1, which is [0] or digits that do not start with [0].  The
    other names follow in the order of the answer (ECMA-262,
    OrdinaryOwnPropertyKeys). *)
Definition arrayIndex (name : string) : option N :=
  match JSON.parse_natural (JSON.of_string name) with
  | Some (n, []) => if (n <? 4294967295)%N then Some n else None
  | _ => None
  end.

Fixpoint insertIndex (index : N) (name : string) (sorted : list (N * string))
    : list (N * string) :=
  match sorted with
  | [] => [(index, name)]
  | (index', name') :: rest =>
      if (index <? index')%N then (index, name) :: sorted
      else (index', name') :: insertIndex index name rest
  end.

Definition indexKeys (names : list string) : list (N * string) :=
  foldr (λ name sorted,
           match arrayIndex name with
           | Some index => insertIndex index name sorted
           | None => sorted
           end) [] names.

Definition objectKeys (names : list string) : list string :=
  (indexKeys names).*2 ++ filter (λ name, arrayIndex name = None) names.

(** [Object.keys(gist.files)[0] || GIST_FILENAME] *)
Definition firstFilename (files : Files) : string :=
  match objectKeys files.*1 with
  | name :: _ => if bool_decide (name = "") then GIST_FILENAME else name
  | [] => GIST_FILENAME
  end.

Definition updateGist (env : Env) (token gistId : string) (data : StorageData)
    : M Cloud unit :=
  let content := serialize data in
  let* filename :=
    try_catch
      (let* getResponse := getGistRequest env token gistId in
       match getResponse with
       | Rejected => throw NetworkError
       | Body files => ret (firstFilename files)
       | Status status =>
           if bool_decide (status = 404%Z) then throw (HttpError "updateGist" 404)
           else ret GIST_FILENAME
       end)
      (λ error,
         match error with
         | HttpError _ 404 => throw error       (* the message includes 404 *)
         | _ => ret GIST_FILENAME
         end) in
  let* response := patchGistRequest env token gistId filename content in
  match response with
  | Rejected => throw NetworkError
  | Status status => throw (HttpError "updateGist" status)
  | Body _ => ret tt
  end.

(** The message of the error that [updateGist] throws for a gist that
    does not exist; it quotes the id of the gist.  Each letter of the
    message outside ASCII is one code unit and is written [?] here, which
    keeps the length of the message and the substrings that [syncToGist]
    looks for. *)
Definition gistNotFoundMessage (gistId : string) : string :=
  "Gist kh?ng t?n t?i (404). Vui l?ng ki?m tra l?i Gist ID: " +:+ gistId.

(** [errorMsg.includes("Permissions") || errorMsg.includes("permissions")
    || errorMsg.length > 200] *)
Definition isDetailedMessage (errorMsg : string) : bool :=
  includes errorMsg "Permissions" || includes errorMsg "permissions"
  || bool_decide (200 < String.length errorMsg).

(** [errorMsg.includes("401") || errorMsg.includes("403")] *)
Definition mentions401Or403 (errorMsg : string) : bool :=
  includes errorMsg "401" || includes errorMsg "403".

(** The [catch] of [syncToGist] passes an error on as it is when its
    message is long or mentions permissions, and puts its own message
    around one that mentions 401 or 403.  Of the messages above the 401
    and 403 of [createGist] are short and name their status; the 404 of
    [updateGist] is decided by its text, which ends with the id of the
    gist; the 401 and 403 of [updateGist] are longer than 200 code units,
    and the other messages name neither status. *)
Definition syncToGist (env : Env) (token : string) (gistId : option string)
    : M Cloud unit :=
  let* data := liftLocal (getStorageDataForSync (now env)) in
  try_catch
    (if truthy gistId then updateGist env token (default "" gistId) data
     else
       let* newId := createGist env token in
       let* currentSettings := liftLocal (getSettings (now env)) in
       liftLocal
         (saveSettings (now env)
            (SettingsArg.with_gistId (Some newId) (SettingsArg.spread currentSettings))))
    (λ error,
       match error with
       | HttpError "createGist" status =>
           if bool_decide (status = 401%Z) || bool_decide (status = 403%Z)
           then throw (TokenCannotSync error)
           else throw error
       | HttpError "updateGist" 404 =>
           let errorMsg := gistNotFoundMessage (default "" gistId) in
           if isDetailedMessage errorMsg then throw error
           else if mentions401Or403 errorMsg then throw (TokenCannotSync error)
           else throw error
       | _ => throw error
       end).

(** [Object.keys(files).find((name) => name.includes("the-one-tab"))
    || Object.keys(files)[0]] *)
Definition dataFilename (files : Files) : option string :=
  match List.find (λ name, includes name "the-one-tab") (objectKeys files.*1) with
  | Some name => Some name
  | None => head (objectKeys files.*1)
  end.

(** [files[filename]] *)
Definition fileNamed (files : Files) (filename : string) : option string :=
  snd <$> List.find (λ f, String.eqb f.1 filename) files.

(** The code stores and returns whatever value the text of the file
    parses to, once its [groups] and [settings] are truthy; TypeScript does
    not look further.  The store of the model holds a typed document, so the
    model follows the code up to the parsing, and after it for a file that
    holds a serialised [StorageData] document, which is what [createGist]
    and [updateGist] write.  For a text that is outside the JSON of this
    model, or whose value is not a [StorageData] document, the model stops
    with [JsonSyntaxError] or [NotStorageData] where the code may go on;
    nothing is stated about those runs but that they change no gist. *)
Definition syncFromGist (env : Env) (token gistId : string) : M Cloud StorageData :=
  let* response := getGistRequest env token gistId in
  match response with
  | Rejected => throw NetworkError
  | Status status => throw (HttpError "syncFromGist" status)
  | Body files =>
      let filename := dataFilename files in
      if negb (truthy filename) then throw GistFileNotFound
      else
        match fileNamed files (default "" filename) with
        | None => throw GistFileNotFound
        | Some content =>
            match JSON.parse content with
            | None => throw JsonSyntaxError
            | Some JNull => throw NullDereference
            | Some value =>
                if falsy (member "groups" value) || falsy (member "settings" value)
                then throw InvalidDataFormat
                else
                  match storageDataOfJson value with
                  | Some data =>
                      liftLocal (setStorageDataFromSync data);;
                      ret data
                  | None => throw NotStorageData
                  end
            end
        end
  end.

(** ** Sample documents, used to run the operations on concrete inputs *)

Definition tabA : Tab.t :=
  Tab.mk "tab_1_1700000000000" "Rocq" "https://rocq-prover.org/" None 1700000000000.

Definition tabB : Tab.t :=
  Tab.mk "tab_2_1700000000000" "Gists" "https://gist.github.com/" None 1700000000000.

Definition tabA' : Tab.t :=
  Tab.mk "tab_7_1700000005000" "Rocq prover" "https://rocq-prover.org/"
    (Some "https://rocq-prover.org/favicon.ico") 1700000005000.

Definition sampleDefault : Group.t :=
  Group.mk "default" "Default" None [tabA; tabB] 1700000000000 1700000000000.

Definition sampleWork : Group.t :=
  Group.mk "group_1700000001000_k3x9q2a" "Work" (Some "papers") []
    1700000001000 1700000001000.

Definition sampleSettings : Settings.t :=
  Settings.mk true (Some "gho_token") (Some "abc123") (Some "client") (Some "secret").

Definition sampleData : StorageData :=
  mkStorageData [sampleDefault; sampleWork] sampleSettings.

Definition sampleStore : Store := mkStore (Some sampleData) None.

Definition emptyStore : Store := mkStore None None.

Definition sampleNow : Z := 1700000009000.

Definition storeWithWork : Store :=
  mkStore
    (Some (mkStorageData
             [createDefaultGroup sampleNow;
              createNewGroup sampleNow "z81m0pd" "Work" None]
             defaultSettings))
    None.

Definition sampleUser : UserInfo.t :=
  UserInfo.mk "octocat" 583231 "https://avatars.githubusercontent.com/u/583231"
    "https://github.com/octocat".

(** An environment in which the user refuses the authorization, and in
    which the user endpoint knows the token [gho_token] only. *)
Definition sampleEnv : Env :=
  mkEnv sampleNow "dBjftJeZ4CVP-mB92K27uhbUJU1p1r_wW1gFWFOEjXk" None
    (Some (mkURL [("error", "access_denied");
                  ("error_description", "The user has denied your application access.");
                  ("state", "x7Qz")]))
    (λ _, Status 400) "bad_verification_code"
    (λ token, if bool_decide (token = "gho_token") then Body sampleUser
              else Status 401)
    (λ token, bool_decide (token = "gho_token"))
    "0d9f8e7c6b5a".

Definition signedOut : AuthState.t := AuthState.mk false "" None None.

Definition signedInAs (token : string) : AuthState.t :=
  AuthState.mk true "octocat" (Some sampleUser) (Some token).

Definition signedOutWorld : World := mkWorld sampleStore signedOut [].

Definition staleWorld : World := mkWorld sampleStore (signedInAs "gho_expired") [].

Definition freshWorld : World := mkWorld sampleStore (signedInAs "gho_token") [].

(** An older backup, and a gist that holds it next to a read-me file. *)
Definition staleData : StorageData :=
  mkStorageData
    [Group.mk "default" "Default" None [tabB] 1690000000000 1690000000000]
    (Settings.mk false None (Some "abc123") (Some "client") (Some "secret")).

Definition sampleCloud : Cloud :=
  mkCloud sampleStore
    {[ "abc123" := [("README.md", "# Saved tabs");
                    ("the-one-tab-data.json", serialize staleData)] ]}.

(** ** Predicates used in the statements *)

(** The user endpoint accepts the token: what [testGitHubToken] checks. *)
Definition remotelyValid (env : Env) (token : string) : bool :=
  match userEndpoint env token with
  | Body user => negb (bool_decide (UserInfo.login user = ""))
  | _ => false
  end.

(** The effects recorded between two worlds contain no launch of the
    interactive authorization flow. *)
Definition noInteractiveFlow (w w' : World) : Prop :=
  ∃ new, events w' = events w ++ new ∧ ∀ clientId, LaunchedWebAuthFlow clientId ∉ new.

(** The token that [getSettings] finds in a store. *)
Definition storedToken (now : Z) (s : Store) : outcome (option string) :=
  (bind (getSettings now) (λ settings, ret (Settings.oauthToken settings)) s).1.

(** A computation leaves the [settings] of the stored document alone: what
    [getSettings] returns after it is what [getSettings] returned before,
    whether the computation returns or throws. *)
Definition preservesSettings {A} (m : M Store A) : Prop :=
  ∀ now s, (getSettings now (m s).2).1 = (getSettings now s).1.

(** The only write a computation makes, if any, is one
    [saveStorageData] of the document it read with its [groups] replaced. *)
Definition writesGroupsOnly {A} (now : Z) (m : M Store A) : Prop :=
  ∀ s, (m s).2 = s
       ∨ ∃ data gs, getStorageData now s = (Ok data, s)
                    ∧ (m s).2 = (saveStorageData (with_groups gs data) s).2.

(** ** Predicates of the document *)

(** The ids of the groups of a document, in order. *)
Definition groupIds (data : StorageData) : list string :=
  Group.id <$> groups data.

Definition hasDefaultGroup (data : StorageData) : Prop :=
  "default" ∈ groupIds data.

(** The name of a group as [createGroup] compares it. *)
Definition foldedName (g : Group.t) : string :=
  toLowerCase (trim (Group.name g)).

Definition namesDistinct (gs : list Group.t) : Prop :=
  NoDup (foldedName <$> gs).

(** A computation changes at most the group with the given id: whatever
    it writes has the same group ids in the same order, the same settings,
    and every group with another id as it was. *)
Definition touchesOnly {A} (now : Z) (ids : list string) (m : M Store A) : Prop :=
  ∀ s data,
    getStorageData now s = (Ok data, s) →
    (m s).2 = s
    ∨ ∃ data1,
        (m s).2 = (saveStorageData data1 s).2
        ∧ groupIds data1 = groupIds data
        ∧ settings data1 = settings data
        ∧ ∀ id, id ∉ ids → findGroupById (groups data1) id = findGroupById (groups data) id.

(** Every read of the store finds a default group. *)
Definition defaultGroupInStore (s : Store) : Prop :=
  ∀ now data, getStorageData now s = (Ok data, s) → hasDefaultGroup data.

Definition keepsDefaultGroup {A} (m : M Store A) : Prop :=
  ∀ s, defaultGroupInStore s → defaultGroupInStore (m s).2.

(** A string of white space only, the empty string among them. *)
Fixpoint allWhiteSpace (s : string) : bool :=
  match s with
  | "" => true
  | String a s' => isWhiteSpace a && allWhiteSpace s'
  end.

(** ** [src/options/App.svelte]: the settings that the options page holds

    The page keeps the object that [getSettings] returned when it loaded,
    assigns to fields of it and passes it whole to [saveSettings]; it does
    not load it again after a sign-in or a sign-out. *)
Module OptionsPage.
Definition loadSettings (now : Z) : M Store SettingsArg.t :=
  let* settings := getSettings now in
  ret (SettingsArg.spread settings).

(** [settings.closeAndSave = checked] *)
Definition with_closeAndSave (checked : bool) (a : SettingsArg.t) : SettingsArg.t :=
  SettingsArg.mk checked (SettingsArg.oauthToken a) (SettingsArg.gistId a)
    (SettingsArg.githubClientId a) (SettingsArg.githubClientSecret a).

(** Both handlers return the object that the page holds afterwards. *)
Definition handleCloseAndSaveChange (now : Z) (page : SettingsArg.t) (checked : bool)
    : M Store SettingsArg.t :=
  let page1 := with_closeAndSave checked page in
  saveSettings now page1;;
  ret page1.

(** [settings.gistId = gistIdInput.trim() || undefined] *)
Definition handleSaveGistId (now : Z) (page : SettingsArg.t) (gistIdInput : string)
    : M Store SettingsArg.t :=
  let page1 :=
    SettingsArg.with_gistId
      (if bool_decide (trim gistIdInput = "") then None else Some (trim gistIdInput))
      page in
  saveSettings now page1;;
  ret page1.
End OptionsPage.

(** An environment in which the user grants the authorization and the
    token endpoint exchanges the code for the token [gho_token]. *)
Definition grantingEnv : Env :=
  mkEnv sampleNow "dBjftJeZ4CVP-mB92K27uhbUJU1p1r_wW1gFWFOEjXk" None
    (Some (mkURL [("code", "9f3c1a7e"); ("state", "x7Qz")]))
    (λ code, if bool_decide (code = "9f3c1a7e")
             then Body (mkTokenData None None (Some "gho_token"))
             else Status 400)
    "bad_verification_code"
    (λ token, if bool_decide (token = "gho_token") then Body sampleUser
              else Status 401)
    (λ token, bool_decide (token = "gho_token"))
    "0d9f8e7c6b5a".

(** ** [src/lib/services/auth.ts]: the silent sign-in *)

(** [if (isSignedIn) { markUserAsSignedOut(); }] *)
Definition signOutIfSignedIn : M World unit :=
  let* state := getAuth in
  if AuthState.isSignedIn state then markUserAsSignedOut else ret tt.

Definition attemptSilentSignin (env : Env) (refreshUI : bool) : M World unit :=
  let* settings := liftStore (getSettings (now env)) in
  let stored := Settings.oauthToken settings in
  if negb (truthy stored) then signOutIfSignedIn
  else
    let* state := getAuth in
    if AuthState.isSignedIn state && bool_decide (AuthState.token state = stored)
    then ret tt
    else
      try_catch
        (let* isValid := testGitHubToken env (default "" stored) in
         if negb isValid then signOutIfSignedIn
         else
           let* user := getUserInfo env (default "" stored) in
           markUserAsSignedIn env (default "" stored) user refreshUI)
        (λ _, signOutIfSignedIn).


(** [Number.isSafeInteger]: the integers that a JavaScript number holds
    exactly, on which the digits of a text and the number read from them
    agree. *)
Definition isSafeInteger (n : Z) : bool :=
  (- 9007199254740991 <=? n)%Z && (n <=? 9007199254740991)%Z.

(** A document all of whose times are safe integers, as those of
    [Date.now()] are. *)
Definition safeDocument (data : StorageData) : bool :=
  forallb
    (λ g, isSafeInteger (Group.createdAt g) && isSafeInteger (Group.updatedAt g)
          && forallb (λ t, isSafeInteger (Tab.createdAt t)) (Group.tabs g))
    (groups data).

(** ** [src/lib/services/auth.ts]: [withRetryOn401]

    What leaves [withRetryOn401] is the result of [fn], an error passed on
    as it was caught, or one of the three errors that the wrapper makes
    itself. *)
Inductive RetryError :=
  | Original (error : Error)        (* throw error *)
  | NoTokenAfterLogin               (* Không thể lấy token sau khi đăng nhập *)
  | ReauthFailed (original : Error) (* Token đã hết hạn và không thể tự động
                                       đăng nhập lại ... Lỗi gốc: <message> *)
  | RetriesExceeded.                (* Đã vượt quá số lần thử lại *)

Inductive RetryOutcome (T : Type) :=
  | Returned (a : T)
  | Failed (e : RetryError).
Arguments Returned {T} a.
Arguments Failed {T} e.

(** [is401Error]: the message of the error has [401], [hết hạn],
    [Bad credentials] or [Unauthorized] in it.  The messages of the errors
    of the GitHub endpoints quote the answer of the service and are not
    part of this model, so for them the test is the parameter [mentions];
    the fixed message of [ensureAuthenticated] has none of the four. *)
Definition is401Error (mentions : Error → bool) (error : Error) : bool :=
  match error with
  | LoginRequired => false
  | _ => mentions error
  end.

(** The sign-out and the new sign-in inside the [catch]; the result is
    [true] when the loop is to go on. *)
Definition reauthenticate (env : Env) : M World bool :=
  signOut env;;
  try_catch
    (let* settings := liftStore (getSettings (now env)) in
     if truthy (Settings.githubClientId settings)
        && truthy (Settings.githubClientSecret settings)
     then signIn env
     else ret false)
    (λ _, ret false).

(** The [while] loop, with its two variables as arguments.  [fuel] bounds
    the number of rounds; [retryLoop_enough_fuel] shows that the bound
    used by [withRetryOn401] is never met before the loop ends. *)
Fixpoint retryLoop {T} (mentions : Error → bool) (env : Env)
    (fn : string → M World T) (maxRetries : Z)
    (fuel : nat) (retryCount : Z) (currentToken : option string) (w : World)
    : RetryOutcome T * World :=
  match fuel with
  | O => (Failed RetriesExceeded, w)
  | S fuel' =>
      if bool_decide (retryCount ≤ maxRetries)%Z then
        let caught (error : Error) (w1 : World) :=
          if is401Error mentions error && bool_decide (retryCount < maxRetries)%Z then
            match reauthenticate env w1 with
            | (Ok true, w2) =>
                retryLoop mentions env fn maxRetries fuel' (retryCount + 1)
                  (AuthState.token (auth w2)) w2
            | (Ok false, w2) => (Failed (ReauthFailed error), w2)
            | (Throw e, w2) => (Failed (Original e), w2)
            end
          else (Failed (Original error), w1) in
        let call (token : string) (w1 : World) :=
          match fn token w1 with
          | (Ok a, w2) => (Returned a, w2)
          | (Throw error, w2) => caught error w2
          end in
        if truthy currentToken then call (default "" currentToken) w
        else
          match ensureAuthenticated env w with
          | (Throw error, w1) => caught error w1
          | (Ok _, w1) =>
              if truthy (AuthState.token (auth w1))
              then call (default "" (AuthState.token (auth w1))) w1
              else (Failed NoTokenAfterLogin, w1)
          end
      else (Failed RetriesExceeded, w)
  end.

Definition withRetryOn401 {T} (mentions : Error → bool) (env : Env)
    (fn : string → M World T) (maxRetries : Z) (w : World)
    : RetryOutcome T * World :=
  retryLoop mentions env fn maxRetries (Z.to_nat (maxRetries + 1)) 0
    (AuthState.token (auth w)) w.

(** An operation that the service refuses with 401 for the token
    [gho_expired] and carries out for any other token. *)
Definition expiredThenFine (token : string) : M World string :=
  if bool_decide (token = "gho_expired") then throw (HttpError "createGist" 401)
  else ret "0d9f8e7c6b5a".

Definition mentionsStatus401 (error : Error) : bool :=
  match error with
  | HttpError _ 401 => true
  | _ => false
  end.

(** ** The storage page ([src/storage/App.svelte]): the edit dialog and
    the drop handlers

    [editingGroup] is the group as the page had it when the dialog was
    opened; the page's own state (the dialog, the alerts) is not part of
    the store, so a handler is a computation on the store alone. *)
Module StoragePage.

(** [x.trim() || undefined] *)
Definition trimmedOrUndefined (x : string) : option string :=
  if bool_decide (trim x = "") then None else Some (trim x).

Definition handleUpdateGroup (now : Z) (editingGroup : option Group.t)
    (editGroupName editGroupDescription : string) : M Store unit :=
  match editingGroup with
  | None => ret tt
  | Some group =>
      if bool_decide (trim editGroupName = "") then ret tt
      else
        try_catch
          (saveGroup now
             (Group.mk (Group.id group) (trim editGroupName)
                (trimmedOrUndefined editGroupDescription)
                (Group.tabs group) (Group.createdAt group) (Group.updatedAt group)))
          (λ _, ret tt)
  end.

(** The two drop handlers of the storage page return the groups that the
    page shows afterwards.  An error of the reorder is caught and shown in
    an alert, which is not part of the store. *)
Module DraggedTab.
Record t := mk {
  id : string;
  groupId : string;
  index : nat
}.
End DraggedTab.

(** [const [removed] = newOrder.splice(from, 1);
     newOrder.splice(target, 0, removed)].
    [None] stands for the array with [undefined] in it, which results when
    [from] is not an index of [newOrder]. *)
Definition moveItem {A} (from target : nat) (newOrder : list A) : option (list A) :=
  match newOrder !! from with
  | Some removed =>
      let rest := delete from newOrder in
      Some (take target rest ++ removed :: drop target rest)
  | None => None
  end.

(** [reorderTabsInGroup] throws on the [undefined] in an order (or on a
    group that it does not find) before it writes; which of its errors it
    is does not matter to the [catch]. *)
Definition handleTabDrop (now : Z) (pageGroups : list Group.t)
    (draggedTab : option DraggedTab.t) (targetGroupId : string)
    (targetTabIndex : nat) : M Store (list Group.t) :=
  match draggedTab with
  | None => ret pageGroups
  | Some dragged =>
      if negb (bool_decide (DraggedTab.groupId dragged = targetGroupId))
      then ret pageGroups
      else if bool_decide (DraggedTab.index dragged = targetTabIndex)
      then ret pageGroups
      else
        try_catch
          (match findGroupById pageGroups targetGroupId with
           | None => ret pageGroups
           | Some group =>
               match moveItem (DraggedTab.index dragged) targetTabIndex
                       (Tab.id <$> Group.tabs group) with
               | Some newOrder =>
                   reorderTabsInGroup now targetGroupId newOrder;;
                   getGroups now
               | None => throw (InvalidTabIds [])
               end
           end)
          (λ _, ret pageGroups)
  end.

(** [groups[i].id] on an index that the page does not have is a
    [TypeError], thrown outside the [try]. *)
Definition handleGroupDrop (now : Z) (pageGroups : list Group.t)
    (draggedGroupIndex : option nat) (targetIndex : nat)
    : M Store (list Group.t) :=
  match draggedGroupIndex with
  | None => ret pageGroups
  | Some draggedIndex =>
      if bool_decide (draggedIndex = targetIndex) then ret pageGroups
      else
        match pageGroups !! targetIndex with
        | None => throw NullDereference
        | Some target =>
            if bool_decide (Group.id target = "default") then ret pageGroups
            else
              match pageGroups !! draggedIndex with
              | None => throw NullDereference
              | Some dragged =>
                  if bool_decide (Group.id dragged = "default") then ret pageGroups
                  else
                    try_catch
                      (match moveItem draggedIndex targetIndex
                               (Group.id <$> pageGroups) with
                       | Some newOrder =>
                           reorderGroups now newOrder;;
                           getGroups now
                       | None => throw (InvalidGroupIds [])
                       end)
                      (λ _, ret pageGroups)
              end
        end
  end.

End StoragePage.

(** A document with two groups besides the default group. *)
Definition sampleReading : Group.t :=
  Group.mk "group_1700000002000_p0o9i8u" "Reading" None [tabB]
    1700000002000 1700000002000.

Definition threeGroups : StorageData :=
  mkStorageData [sampleDefault; sampleWork; sampleReading] sampleSettings.

(** ** [src/lib/services/oauth.ts]: the PKCE code verifier

    [btoa] belongs to the runtime; it is embedded here after RFC 4648,
    section 4, on the bytes that [String.fromCharCode(...array)] turns
    into one code unit each.  [bytes] stands for the 32 random bytes that
    [crypto.getRandomValues] writes into the array. *)
Definition base64Alphabet : list ascii :=
  String.list_ascii_of_string
    "ABCDEFGHIJKLMNOPQRSTUVWXYZabcdefghijklmnopqrstuvwxyz0123456789+/".

Definition base64Char (n : N) : ascii :=
  nth (N.to_nat n) base64Alphabet "A"%char.

Fixpoint btoa (bytes : list ascii) : string :=
  match bytes with
  | [] => ""
  | [a] =>
      let a := Ascii.N_of_ascii a in
      String (base64Char (a / 4))
        (String (base64Char ((a mod 4) * 16)) "==")
  | [a; b] =>
      let a := Ascii.N_of_ascii a in
      let b := Ascii.N_of_ascii b in
      String (base64Char (a / 4))
        (String (base64Char ((a mod 4) * 16 + b / 16))
           (String (base64Char ((b mod 16) * 4)) "="))
  | a :: b :: c :: rest =>
      let a := Ascii.N_of_ascii a in
      let b := Ascii.N_of_ascii b in
      let c := Ascii.N_of_ascii c in
      String (base64Char (a / 4))
        (String (base64Char ((a mod 4) * 16 + b / 16))
           (String (base64Char ((b mod 16) * 4 + c / 64))
              (String (base64Char (c mod 64)) (btoa rest))))
  end.

(** [s.replace(/c/g, d)] for one character [c] and a string [d] *)
Fixpoint replaceAll (c : ascii) (d : string) (s : string) : string :=
  match s with
  | "" => ""
  | String a s' =>
      if Ascii.eqb a c then d +:+ replaceAll c d s' else String a (replaceAll c d s')
  end.

Definition generateCodeVerifier (bytes : list ascii) : string :=
  replaceAll "=" "" (replaceAll "/" "_" (replaceAll "+" "-" (btoa bytes))).

(** What the three replacements leave of one character. *)
Definition verifierPiece (x : ascii) : string :=
  replaceAll "=" "" (replaceAll "/" "_" (replaceAll "+" "-" (String x ""))).

(** The characters that RFC 7636 allows in a code verifier and that this
    encoding can produce: letters, digits, [-] and [_]. *)
Definition urlSafe (a : ascii) : bool :=
  let n := Ascii.N_of_ascii a in
  bool_decide (48 ≤ n ≤ 57)%N || bool_decide (65 ≤ n ≤ 90)%N
  || bool_decide (97 ≤ n ≤ 122)%N || bool_decide (n = 45)%N || bool_decide (n = 95)%N.

Fixpoint allChars (p : ascii → bool) (s : string) : bool :=
  match s with
  | "" => true
  | String a s' => p a && allChars p s'
  end.

(** * Properties *)

(** ** The monad and the document store *)

Lemma bind_run {S A B} (m : M S A) (k : A → M S B) s a s' :
  m s = (Ok a, s') → bind m k s = k a s'.
Proof. unfold bind. by intros ->. Qed.

Lemma bind_throw {S A B} (m : M S A) (k : A → M S B) s e s' :
  m s = (Throw e, s') → bind m k s = (Throw e, s').
Proof. unfold bind. by intros ->. Qed.

Lemma try_catch_run {S A} (m : M S A) (h : Error → M S A) s a s' :
  m s = (Ok a, s') → try_catch m h s = (Ok a, s').
Proof. unfold try_catch. by intros ->. Qed.

Lemma try_catch_throw {S A} (m : M S A) (h : Error → M S A) s e s' :
  m s = (Throw e, s') → try_catch m h s = h e s'.
Proof. unfold try_catch. by intros ->. Qed.

Lemma getStorageData_total now s :
  ∃ data, getStorageData now s = (Ok data, s).
Proof. unfold getStorageData. destruct (tabManagerData s); eauto. Qed.

Lemma getStorageData_stored now s data :
  tabManagerData s = Some data → getStorageData now s = (Ok data, s).
Proof. unfold getStorageData. by intros ->. Qed.

Lemma bind_getStorageData {A} now s data (k : StorageData → M Store A) :
  getStorageData now s = (Ok data, s) →
  bind (getStorageData now) k s = k data s.
Proof. unfold bind. by intros ->. Qed.

Lemma save_read_back now s data :
  getStorageData now s = (Ok data, s) →
  is_Some (tabManagerData s) →
  (saveStorageData data s).2 = s.
Proof.
  unfold getStorageData. intros Hread [d Hd]. rewrite Hd in Hread.
  destruct s as [doc verifier]; simpl in *. by simplify_eq.
Qed.

(** ** Groups addressed by id *)

Lemma findGroupById_Some gs id g :
  findGroupById gs id = Some g → g ∈ gs ∧ Group.id g = id.
Proof.
  unfold findGroupById. intros H. apply find_some in H as [Hin Hid].
  split; [by apply list_elem_of_In | by apply bool_decide_eq_true in Hid].
Qed.

Lemma findGroupById_None gs id :
  findGroupById gs id = None ↔ ∀ g, g ∈ gs → Group.id g ≠ id.
Proof.
  unfold findGroupById. induction gs as [|g gs IH]; simpl.
  - split; [intros _ g Hg; inversion Hg | done].
  - case_bool_decide as Hid.
    + split; [done | intros H; destruct (H g); [left | done]].
    + rewrite IH. split.
      * intros H g' Hg'. apply elem_of_cons in Hg' as [->|Hg']; auto.
      * intros H g' Hg'. apply H. by right.
Qed.

Lemma findGroupById_modifyGroup f id gs :
  (∀ g, Group.id (f g) = Group.id g) →
  findGroupById (modifyGroup f id gs) id = f <$> findGroupById gs id.
Proof.
  intros Hf. unfold findGroupById. induction gs as [|g gs IH]; simpl; [done|].
  case_bool_decide as Hid; simpl.
  - rewrite bool_decide_eq_true_2; [done | by rewrite Hf].
  - rewrite bool_decide_eq_false_2; done.
Qed.

Lemma filter_keeps_all (gs : list Group.t) id :
  (∀ g, g ∈ gs → Group.id g ≠ id) →
  List.filter (λ g, negb (bool_decide (Group.id g = id))) gs = gs.
Proof.
  induction gs as [|g gs IH]; intros H; simpl; [done|].
  rewrite bool_decide_eq_false_2 by (apply H; left). simpl.
  f_equal. apply IH. intros g' Hg'. apply H. by right.
Qed.

(** ** Deleting a group *)

Lemma deleteGroup_default now s :
  deleteGroup now "default" s = (Throw CannotDeleteDefaultGroup, s).
Proof.
  destruct (getStorageData_total now s) as [data Hdata].
  unfold deleteGroup. by rewrite (bind_getStorageData _ _ _ _ Hdata).
Qed.

Lemma deleteGroup_other now groupId s data :
  groupId ≠ "default" →
  getStorageData now s = (Ok data, s) →
  deleteGroup now groupId s
  = saveStorageData
      (with_groups
         (List.filter (λ g, negb (bool_decide (Group.id g = groupId))) (groups data))
         data) s.
Proof.
  intros Hne Hdata.
  unfold deleteGroup. rewrite (bind_getStorageData _ _ _ _ Hdata).
  by rewrite bool_decide_eq_false_2.
Qed.

(** C5: [deleteGroup("default")] throws a validation error and leaves the
    store as it is, in every state of the store; for every other id the
    call is not rejected: it returns normally and stores the document it
    read without the groups of that id.  No other id is protected. *)
Theorem deleteGroup_only_default_protected :
  (∀ now s,
     deleteGroup now "default" s = (Throw CannotDeleteDefaultGroup, s)
     ∧ classify CannotDeleteDefaultGroup = ValidationError)
  ∧ (∀ now groupId s data,
       groupId ≠ "default" →
       getStorageData now s = (Ok data, s) →
       deleteGroup now groupId s
       = (Ok tt,
          mkStore
            (Some (with_groups
                     (List.filter (λ g, negb (bool_decide (Group.id g = groupId)))
                        (groups data))
                     data))
            (oauthCodeVerifier s))).
Proof.
  split.
  - intros now s. split; [apply deleteGroup_default | done].
  - intros now groupId s data Hne Hdata. by rewrite (deleteGroup_other _ _ _ data).
Qed.

Lemma deleteGroup_only_default_protected_witness :
  sampleWork.(Group.id) ≠ "default"
  ∧ getStorageData sampleNow sampleStore = (Ok sampleData, sampleStore)
  ∧ deleteGroup sampleNow sampleWork.(Group.id) sampleStore
    = (Ok tt, mkStore (Some (mkStorageData [sampleDefault] sampleSettings)) None).
Proof.
  split; [done|]. split; [reflexivity|].
  apply (proj2 deleteGroup_only_default_protected
           sampleNow sampleWork.(Group.id) sampleStore sampleData);
    [done | reflexivity].
Defined.

(** C10: deleting an id that is not ["default"] and that no group of the
    document has returns normally (no error of any kind), and the document
    in the store afterwards is the document that was read: the group list
    is unchanged.  When the store held a document, the store is unchanged
    altogether. *)
Theorem deleteGroup_unknown_id now groupId s data :
  groupId ≠ "default" →
  getStorageData now s = (Ok data, s) →
  (∀ g, g ∈ groups data → Group.id g ≠ groupId) →
  ∃ s', deleteGroup now groupId s = (Ok tt, s')
        ∧ tabManagerData s' = Some data
        ∧ getGroups now s' = (Ok (groups data), s')
        ∧ (is_Some (tabManagerData s) → s' = s).
Proof.
  intros Hne Hdata Hnone.
  rewrite (deleteGroup_other now groupId s data Hne Hdata).
  rewrite (filter_keeps_all _ _ Hnone).
  assert (with_groups (groups data) data = data) as -> by by destruct data.
  eexists. split; [done|]. split; [done|]. split; [done|].
  intros Hsome. by apply (save_read_back now).
Qed.

Lemma deleteGroup_unknown_id_witness :
  ∃ s', deleteGroup sampleNow "group_0_missing" sampleStore = (Ok tt, s')
        ∧ tabManagerData s' = Some sampleData
        ∧ getGroups sampleNow s' = (Ok (groups sampleData), s')
        ∧ (is_Some (tabManagerData sampleStore) → s' = sampleStore).
Proof.
  apply (deleteGroup_unknown_id sampleNow "group_0_missing" sampleStore sampleData);
    [done | reflexivity |].
  intros g Hg. vm_compute in Hg.
  repeat (apply elem_of_cons in Hg as [->|Hg]; [done|]).
  by apply elem_of_nil in Hg.
Defined.

(** ** The settings are outside the reach of the group mutators *)

Lemma writesGroupsOnly_preservesSettings {A} now (m : M Store A) :
  writesGroupsOnly now m → preservesSettings m.
Proof.
  intros Hm now' s. destruct (Hm s) as [->|(data & gs & Hread & ->)]; [done|].
  unfold getStorageData in Hread. unfold getSettings, bind, getStorageData; simpl.
  destruct (tabManagerData s); by simplify_eq.
Qed.

Ltac read_document now s data H :=
  destruct (getStorageData_total now s) as [data H];
  rewrite (bind_getStorageData _ _ _ _ H).

Ltac groups_write H :=
  repeat case_match; simpl;
  first [ by left | right; eexists _, _; split; [exact H | reflexivity] ].

Lemma saveGroup_writes now group : writesGroupsOnly now (saveGroup now group).
Proof. intros s. unfold saveGroup. read_document now s data Hread. groups_write Hread. Qed.

Lemma deleteGroup_writes now groupId : writesGroupsOnly now (deleteGroup now groupId).
Proof. intros s. unfold deleteGroup. read_document now s data Hread. groups_write Hread. Qed.

Lemma addTabsToGroup_writes now groupId tabs :
  writesGroupsOnly now (addTabsToGroup now groupId tabs).
Proof. intros s. unfold addTabsToGroup. read_document now s data Hread. groups_write Hread. Qed.

Lemma removeTabFromGroup_writes now groupId tabId :
  writesGroupsOnly now (removeTabFromGroup now groupId tabId).
Proof.
  intros s. unfold removeTabFromGroup. read_document now s data Hread. groups_write Hread.
Qed.

Lemma reorderTabsInGroup_writes now groupId newOrder :
  writesGroupsOnly now (reorderTabsInGroup now groupId newOrder).
Proof.
  intros s. unfold reorderTabsInGroup. read_document now s data Hread. groups_write Hread.
Qed.

Lemma reorderGroups_writes now newOrder :
  writesGroupsOnly now (reorderGroups now newOrder).
Proof. intros s. unfold reorderGroups. read_document now s data Hread. groups_write Hread. Qed.

Lemma moveTabBetweenGroups_writes now tabId fromGroupId toGroupId :
  writesGroupsOnly now (moveTabBetweenGroups now tabId fromGroupId toGroupId).
Proof.
  intros s. unfold moveTabBetweenGroups.
  case_bool_decide; [by left|].
  read_document now s data Hread. groups_write Hread.
Qed.

Lemma createGroup_writes now random name description :
  writesGroupsOnly now (createGroup now random name description).
Proof.
  intros s. unfold createGroup.
  destruct (_ || _); [by left|].
  read_document now s data Hread. groups_write Hread.
Qed.

(** C9: each of the eight group mutators leaves the [settings] field of
    the stored document unchanged, on every store, for all arguments,
    whether it returns or throws. *)
Theorem group_mutators_preserve_settings :
  ∀ now,
    (∀ group, preservesSettings (saveGroup now group))
    ∧ (∀ groupId, preservesSettings (deleteGroup now groupId))
    ∧ (∀ groupId tabs, preservesSettings (addTabsToGroup now groupId tabs))
    ∧ (∀ groupId tabId, preservesSettings (removeTabFromGroup now groupId tabId))
    ∧ (∀ groupId newOrder, preservesSettings (reorderTabsInGroup now groupId newOrder))
    ∧ (∀ newOrder, preservesSettings (reorderGroups now newOrder))
    ∧ (∀ tabId fromGroupId toGroupId,
         preservesSettings (moveTabBetweenGroups now tabId fromGroupId toGroupId))
    ∧ (∀ random name description,
         preservesSettings (createGroup now random name description)).
Proof.
  intros now. repeat split; intros;
    apply (writesGroupsOnly_preservesSettings now);
    auto using saveGroup_writes, deleteGroup_writes, addTabsToGroup_writes,
      removeTabFromGroup_writes, reorderTabsInGroup_writes, reorderGroups_writes,
      moveTabBetweenGroups_writes, createGroup_writes.
Qed.

(** ** Adding tabs *)

Lemma filter_none {A} (P : A → Prop) `{!∀ x, Decision (P x)} (l : list A) :
  (∀ x, x ∈ l → ¬ P x) → filter P l = [].
Proof.
  induction l as [|x l IH]; intros Hall; [done|].
  rewrite filter_cons_False by (apply Hall; left). apply IH.
  intros y Hy. apply Hall. by right.
Qed.

Lemma modifyGroup_found f id gs g :
  findGroupById gs id = Some g →
  (∀ g, Group.id (f g) = Group.id g) →
  findGroupById (modifyGroup f id gs) id = Some (f g).
Proof. intros Hg Hf. by rewrite findGroupById_modifyGroup, Hg. Qed.

Lemma addTabsToGroup_found now groupId tabs s data g :
  getStorageData now s = (Ok data, s) →
  findGroupById (groups data) groupId = Some g →
  ∃ s' data',
    addTabsToGroup now groupId tabs s = (Ok tt, s')
    ∧ getStorageData now s' = (Ok data', s')
    ∧ findGroupById (groups data') groupId
      = Some (Group.with_updatedAt now
                (Group.with_tabs
                   (Group.tabs g
                    ++ filter (λ t, Tab.url t ∉ Tab.url <$> Group.tabs g) tabs) g)).
Proof.
  intros Hread Hg. unfold addTabsToGroup.
  rewrite (bind_getStorageData _ _ _ _ Hread), Hg.
  eexists _, _. split; [reflexivity|]. split; [reflexivity|]. simpl.
  rewrite (modifyGroup_found _ _ _ g Hg) by done. do 4 f_equal.
  apply list_filter_iff. intros t. by rewrite elem_of_list_to_set.
Qed.

(** Whatever is added, the entries of a URL that the group already has are
    the ones it had. *)
Lemma addTabsToGroup_url_entries now groupId tabs s data g u :
  getStorageData now s = (Ok data, s) →
  findGroupById (groups data) groupId = Some g →
  u ∈ Tab.url <$> Group.tabs g →
  ∃ s' data' g',
    addTabsToGroup now groupId tabs s = (Ok tt, s')
    ∧ getStorageData now s' = (Ok data', s')
    ∧ findGroupById (groups data') groupId = Some g'
    ∧ filter (λ t, Tab.url t = u) (Group.tabs g')
      = filter (λ t, Tab.url t = u) (Group.tabs g).
Proof.
  intros Hread Hg Hu.
  destruct (addTabsToGroup_found now groupId tabs s data g Hread Hg)
    as (s' & data' & Hrun & Hread' & Hg').
  eexists _, _, _. repeat (split; [eassumption|]). simpl.
  rewrite filter_app, (filter_none _ (filter _ tabs)); [apply app_nil_r|].
  intros t [Hnew _]%list_elem_of_filter Heq. by rewrite Heq in Hnew.
Qed.

(** C4: adding one tab whose URL the group already has returns normally
    and leaves the tabs of the group exactly as they were: the existing
    tab stays, the new one is dropped, nothing is duplicated.  (Only
    [updatedAt] of the group is refreshed.) *)
Theorem addTabsToGroup_existing_url now groupId t s data g :
  getStorageData now s = (Ok data, s) →
  findGroupById (groups data) groupId = Some g →
  Tab.url t ∈ Tab.url <$> Group.tabs g →
  ∃ s' data',
    addTabsToGroup now groupId [t] s = (Ok tt, s')
    ∧ getStorageData now s' = (Ok data', s')
    ∧ findGroupById (groups data') groupId = Some (Group.with_updatedAt now g)
    ∧ Group.tabs (Group.with_updatedAt now g) = Group.tabs g.
Proof.
  intros Hread Hg Hu.
  destruct (addTabsToGroup_found now groupId [t] s data g Hread Hg)
    as (s' & data' & Hrun & Hread' & Hg').
  eexists _, _. repeat (split; [eassumption|]). split; [|done].
  rewrite Hg'. rewrite filter_cons_False, filter_nil, app_nil_r by auto.
  by destruct g.
Qed.

Lemma addTabsToGroup_existing_url_witness :
  ∃ s' data',
    addTabsToGroup sampleNow "default" [tabA'] sampleStore = (Ok tt, s')
    ∧ getStorageData sampleNow s' = (Ok data', s')
    ∧ findGroupById (groups data') "default"
      = Some (Group.with_updatedAt sampleNow sampleDefault)
    ∧ Group.tabs (Group.with_updatedAt sampleNow sampleDefault)
      = Group.tabs sampleDefault.
Proof.
  apply (addTabsToGroup_existing_url sampleNow "default" tabA' sampleStore sampleData);
    [reflexivity | reflexivity | by left].
Defined.

(** ** Reordering *)

Section NewMap.
Context {V : Type} (key : V → string).

Lemma foldl_insert_lookup (kvs : list (string * V)) (m0 : gmap string V) k v :
  foldl (λ m kv, <[kv.1 := kv.2]> m) m0 kvs !! k = Some v →
  (k, v) ∈ kvs ∨ m0 !! k = Some v.
Proof.
  revert m0. induction kvs as [|[k' v'] kvs IH]; intros m0 Hk; simpl in *; [by right|].
  apply IH in Hk as [Hin|Hk]; [left; by right|].
  destruct (decide (k' = k)) as [->|Hne].
  - rewrite lookup_insert_eq in Hk. simplify_eq. left; by left.
  - rewrite lookup_insert_ne in Hk by done. by right.
Qed.

Lemma foldl_insert_is_Some (kvs : list (string * V)) (m0 : gmap string V) k :
  k ∈ kvs.*1 ∨ is_Some (m0 !! k) →
  is_Some (foldl (λ m kv, <[kv.1 := kv.2]> m) m0 kvs !! k).
Proof.
  revert m0. induction kvs as [|[k' v'] kvs IH]; intros m0 Hk; simpl in *.
  - destruct Hk as [Hk|Hk]; [by apply elem_of_nil in Hk | done].
  - apply IH. destruct (decide (k' = k)) as [->|Hne].
    + right. rewrite lookup_insert_eq. eauto.
    + destruct Hk as [Hk|Hk].
      * apply elem_of_cons in Hk as [?|?]; [congruence | by left].
      * right. by rewrite lookup_insert_ne.
Qed.

Lemma newMap_lookup_elem (vs : list V) k v :
  newMap ((λ v, (key v, v)) <$> vs) !! k = Some v → v ∈ vs ∧ key v = k.
Proof.
  intros [Hin|Hempty]%foldl_insert_lookup; [|by rewrite lookup_empty in Hempty].
  apply list_elem_of_fmap in Hin as (v' & Heq & Hv'). by simplify_eq.
Qed.

Lemma newMap_lookup_defined (vs : list V) k :
  k ∈ key <$> vs → is_Some (newMap ((λ v, (key v, v)) <$> vs) !! k).
Proof.
  intros Hk. apply foldl_insert_is_Some. left.
  by rewrite <- list_fmap_compose.
Qed.

(** Once every id of [newOrder] is the key of some element, no lookup of
    the reordering step is undefined; the elements it returns are elements
    of the original list, and their keys are [newOrder], in order. *)
Lemma getAll_newMap_defined (vs : list V) (newOrder : list string) :
  (∀ k, k ∈ newOrder → k ∈ key <$> vs) →
  ∃ out, getAll (newMap ((λ v, (key v, v)) <$> vs)) newOrder = Some out
         ∧ key <$> out = newOrder
         ∧ (∀ v, v ∈ out → v ∈ vs).
Proof.
  unfold getAll. induction newOrder as [|k ks IH]; intros Hks.
  - exists []. split; [done|]. split; [done|]. intros v Hv. by apply elem_of_nil in Hv.
  - destruct IH as (out & Hout & Hkeys & Hsub).
    { intros k' Hk'. apply Hks. by right. }
    destruct (newMap_lookup_defined vs k) as [v Hv]; [apply Hks; by left|].
    exists (v :: out). split.
    { apply mapM_Some. constructor; [done | by apply mapM_Some]. }
    apply newMap_lookup_elem in Hv as [Hin Hkey].
    split; [rewrite fmap_cons; by rewrite Hkey, Hkeys|].
    intros v' [->|Hv']%elem_of_cons; auto.
Qed.

(** When the keys of the original list are pairwise different and
    [newOrder] is a permutation of them, the reordered list is a
    permutation of the original list: nothing is lost or duplicated. *)
Lemma reordered_Permutation (vs out : list V) (newOrder : list string) :
  NoDup (key <$> vs) →
  newOrder ≡ₚ key <$> vs →
  key <$> out = newOrder →
  (∀ v, v ∈ out → v ∈ vs) →
  out ≡ₚ vs.
Proof.
  intros Hnodup Hperm Hkeys Hsub.
  apply submseteq_length_Permutation.
  - apply NoDup_submseteq; [|done].
    apply (NoDup_fmap_1 key). rewrite Hkeys. by rewrite Hperm.
  - apply Permutation_length in Hperm. rewrite <- Hkeys in Hperm.
    rewrite !length_fmap in Hperm. lia.
Qed.

Lemma no_invalid_ids (vs : list V) (newOrder : list string) :
  (∀ k, k ∈ newOrder → k ∈ key <$> vs) →
  filter (λ id, id ∉ (list_to_set (key <$> vs) : gset string)) newOrder = [].
Proof.
  intros Hall. apply filter_none. intros k Hk Hnot. apply Hnot.
  apply elem_of_list_to_set. auto.
Qed.

Lemma some_invalid_id (vs : list V) (newOrder : list string) k :
  k ∈ newOrder → k ∉ key <$> vs →
  0 < length (filter (λ id, id ∉ (list_to_set (key <$> vs) : gset string)) newOrder).
Proof.
  intros Hk Hnot.
  assert (k ∈ filter (λ id, id ∉ (list_to_set (key <$> vs) : gset string)) newOrder)
    as Hin.
  { apply list_elem_of_filter. split; [|done]. by rewrite elem_of_list_to_set. }
  destruct (filter _ newOrder); [by apply elem_of_nil in Hin | simpl; lia].
Qed.

End NewMap.

(** What [reorderTabsInGroup] accepts: any order of known ids that is as
    long as the group has tabs.  The stored tabs then have the ids of the
    order, in order, and each of them is a tab of the group as it was. *)
Lemma reorderTabsInGroup_accepted now groupId newOrder s data g :
  getStorageData now s = (Ok data, s) →
  findGroupById (groups data) groupId = Some g →
  (∀ k, k ∈ newOrder → k ∈ Tab.id <$> Group.tabs g) →
  length newOrder = length (Group.tabs g) →
  ∃ s' data' reorderedTabs,
    reorderTabsInGroup now groupId newOrder s = (Ok tt, s')
    ∧ getStorageData now s' = (Ok data', s')
    ∧ findGroupById (groups data') groupId
      = Some (Group.with_updatedAt now (Group.with_tabs reorderedTabs g))
    ∧ Tab.id <$> reorderedTabs = newOrder
    ∧ (∀ t, t ∈ reorderedTabs → t ∈ Group.tabs g).
Proof.
  intros Hread Hg Hknown Hlength.
  destruct (getAll_newMap_defined Tab.id (Group.tabs g) newOrder Hknown)
    as (out & Hout & Hids & Hsub).
  exists (saveStorageData
            (with_groups
               (modifyGroup
                  (λ g', Group.with_updatedAt now (Group.with_tabs out g'))
                  groupId (groups data)) data) s).2.
  eexists _, out. split.
  { unfold reorderTabsInGroup. rewrite (bind_getStorageData _ _ _ _ Hread), Hg.
    rewrite (no_invalid_ids Tab.id _ _ Hknown). simpl.
    rewrite bool_decide_eq_false_2 by (intros Hne; by apply Hne).
    by rewrite Hout. }
  split; [reflexivity|]. split; [|done].
  simpl. by rewrite (modifyGroup_found _ _ _ g Hg).
Qed.

(** C3: for a group that is found and an order that is a permutation of
    the ids of its tabs, [reorderTabsInGroup] returns normally, and the
    group that is read afterwards has tabs whose ids are the new order, in
    order.  Every one of these tabs is a tab of the group as it was, with
    all its fields; the ids are the old ids in another order; and when the
    ids of the group are pairwise different, the tabs are a permutation of
    the old tabs (of two tabs with one id the code keeps the later one for
    every place of that id).  The group keeps its id, name, description
    and time of creation, and its [updatedAt] is the time of the call. *)
Theorem reorderTabsInGroup_valid now groupId newOrder s data g :
  getStorageData now s = (Ok data, s) →
  findGroupById (groups data) groupId = Some g →
  newOrder ≡ₚ Tab.id <$> Group.tabs g →
  ∃ s' data' g',
    reorderTabsInGroup now groupId newOrder s = (Ok tt, s')
    ∧ getStorageData now s' = (Ok data', s')
    ∧ findGroupById (groups data') groupId = Some g'
    ∧ Tab.id <$> Group.tabs g' = newOrder
    ∧ (∀ t, t ∈ Group.tabs g' → t ∈ Group.tabs g)
    ∧ Tab.id <$> Group.tabs g' ≡ₚ Tab.id <$> Group.tabs g
    ∧ (NoDup (Tab.id <$> Group.tabs g) → Group.tabs g' ≡ₚ Group.tabs g)
    ∧ Group.id g' = Group.id g
    ∧ Group.name g' = Group.name g
    ∧ Group.description g' = Group.description g
    ∧ Group.createdAt g' = Group.createdAt g
    ∧ Group.updatedAt g' = now.
Proof.
  intros Hread Hg Hperm.
  destruct (reorderTabsInGroup_accepted now groupId newOrder s data g Hread Hg)
    as (s' & data' & out & Hrun & Hread' & Hg' & Hids & Hsub).
  { intros k Hk. by rewrite <- Hperm. }
  { apply Permutation_length in Hperm. by rewrite length_fmap in Hperm. }
  exists s', data', (Group.with_updatedAt now (Group.with_tabs out g)).
  split; [exact Hrun|]. split; [exact Hread'|]. split; [exact Hg'|].
  assert (Group.tabs (Group.with_updatedAt now (Group.with_tabs out g)) = out) as ->
    by reflexivity.
  split; [exact Hids|]. split; [exact Hsub|]. split; [by rewrite Hids|]. split.
  - intros Hnodup. by apply (reordered_Permutation Tab.id _ _ newOrder).
  - repeat split.
Qed.

Lemma reorderTabsInGroup_valid_witness :
  ∃ s' data' g',
    reorderTabsInGroup sampleNow "default" [Tab.id tabB; Tab.id tabA] sampleStore
    = (Ok tt, s')
    ∧ getStorageData sampleNow s' = (Ok data', s')
    ∧ findGroupById (groups data') "default" = Some g'
    ∧ Tab.id <$> Group.tabs g' = [Tab.id tabB; Tab.id tabA]
    ∧ (∀ t, t ∈ Group.tabs g' → t ∈ Group.tabs sampleDefault)
    ∧ Tab.id <$> Group.tabs g' ≡ₚ Tab.id <$> Group.tabs sampleDefault
    ∧ (NoDup (Tab.id <$> Group.tabs sampleDefault)
       → Group.tabs g' ≡ₚ Group.tabs sampleDefault)
    ∧ Group.id g' = Group.id sampleDefault
    ∧ Group.name g' = Group.name sampleDefault
    ∧ Group.description g' = Group.description sampleDefault
    ∧ Group.createdAt g' = Group.createdAt sampleDefault
    ∧ Group.updatedAt g' = sampleNow.
Proof.
  apply (reorderTabsInGroup_valid sampleNow "default"
           [Tab.id tabB; Tab.id tabA] sampleStore sampleData sampleDefault);
    [reflexivity | reflexivity | apply Permutation_swap].
Defined.

Example reorderTabsInGroup_swap :
  reorderTabsInGroup sampleNow "default" [Tab.id tabB; Tab.id tabA] sampleStore
  = (Ok tt,
     mkStore
       (Some (mkStorageData
                [Group.mk "default" "Default" None [tabB; tabA] 1700000000000 sampleNow;
                 sampleWork]
                sampleSettings))
       None).
Proof. vm_compute. reflexivity. Qed.

(** What the two checks of [reorderTabsInGroup] do reject: an order with
    an id that no tab of the group has, and an order whose length is not
    the number of tabs.  In both cases nothing is written. *)
Lemma reorderTabsInGroup_unknown_id now groupId newOrder s data g k :
  getStorageData now s = (Ok data, s) →
  findGroupById (groups data) groupId = Some g →
  k ∈ newOrder → k ∉ Tab.id <$> Group.tabs g →
  ∃ e, reorderTabsInGroup now groupId newOrder s = (Throw e, s)
       ∧ classify e = ValidationError.
Proof.
  intros Hread Hg Hk Hnot. unfold reorderTabsInGroup.
  rewrite (bind_getStorageData _ _ _ _ Hread), Hg. simpl.
  rewrite bool_decide_eq_true_2 by by apply (some_invalid_id Tab.id _ _ k).
  by eexists.
Qed.

Lemma reorderTabsInGroup_wrong_length now groupId newOrder s data g :
  getStorageData now s = (Ok data, s) →
  findGroupById (groups data) groupId = Some g →
  length newOrder ≠ length (Group.tabs g) →
  ∃ e, reorderTabsInGroup now groupId newOrder s = (Throw e, s)
       ∧ classify e = ValidationError.
Proof.
  intros Hread Hg Hlen. unfold reorderTabsInGroup.
  rewrite (bind_getStorageData _ _ _ _ Hread), Hg. simpl.
  case_bool_decide; [by eexists|].
  rewrite bool_decide_eq_true_2 by done. by eexists.
Qed.

Lemma reorderGroups_unknown_id now newOrder s data k :
  getStorageData now s = (Ok data, s) →
  k ∈ newOrder → k ∉ Group.id <$> groups data →
  ∃ e, reorderGroups now newOrder s = (Throw e, s)
       ∧ classify e = ValidationError.
Proof.
  intros Hread Hk Hnot. unfold reorderGroups.
  rewrite (bind_getStorageData _ _ _ _ Hread). simpl.
  rewrite bool_decide_eq_true_2 by by apply (some_invalid_id Group.id _ _ k).
  by eexists.
Qed.

Lemma reorderGroups_wrong_length now newOrder s data :
  getStorageData now s = (Ok data, s) →
  length newOrder ≠ length (groups data) →
  ∃ e, reorderGroups now newOrder s = (Throw e, s)
       ∧ classify e = ValidationError.
Proof.
  intros Hread Hlen. unfold reorderGroups.
  rewrite (bind_getStorageData _ _ _ _ Hread). simpl.
  case_bool_decide; [by eexists|].
  rewrite bool_decide_eq_true_2 by done. by eexists.
Qed.

(** C1: [reorderTabsInGroup] and [reorderGroups] are to reject, with a
    validation error and without a write, every order that omits an id,
    repeats one or has an unknown one.  The code rejects an unknown id and
    a wrong length (the four lemmas above), and that is all it checks: an
    order that repeats one id in the place of another passes.  On the
    sample document [reorderTabsInGroup] accepts the order [tabA, tabA]
    for the group of [tabA] and [tabB], returns normally and stores [tabA]
    twice, [tabB] being lost; [reorderGroups] accepts [default, default]
    and stores the default group twice, the other group being lost. *)
Theorem reorder_accepts_repeated_id :
  reorderTabsInGroup sampleNow "default" [Tab.id tabA; Tab.id tabA] sampleStore
  = (Ok tt,
     mkStore
       (Some (mkStorageData
                [Group.mk "default" "Default" None [tabA; tabA] 1700000000000 sampleNow;
                 sampleWork]
                sampleSettings))
       None)
  ∧ reorderGroups sampleNow ["default"; "default"] sampleStore
    = (Ok tt,
       mkStore (Some (mkStorageData [sampleDefault; sampleDefault] sampleSettings)) None).
Proof. split; vm_compute; reflexivity. Qed.

(** ** Creating a group *)

Example trim_examples :
  trim "  Work " = "Work"
  ∧ trim (String "009" "x y" +:+ String "010" (String "160" "")) = "x y"
  ∧ trim "   " = ""
  ∧ toLowerCase "Work Items 2" = "work items 2"
  ∧ toLowerCase (String "201" "t" +:+ String "215" "") = String "233" "t" +:+ String "215" "".
Proof. repeat split. Qed.

Lemma createGroup_empty_name now random name description s :
  name = "" ∨ trim name = "" →
  createGroup now random name description s = (Throw GroupNameEmpty, s).
Proof.
  intros Hname. unfold createGroup.
  assert (bool_decide (name = "") || bool_decide (trim name = "") = true) as ->; [|done].
  apply orb_true_iff. destruct Hname; [left | right]; by apply bool_decide_eq_true.
Qed.

Lemma createGroup_name_taken now random name description s data g :
  getStorageData now s = (Ok data, s) →
  g ∈ groups data →
  toLowerCase (trim (Group.name g)) = toLowerCase (trim name) →
  ∃ e, createGroup now random name description s = (Throw e, s)
       ∧ classify e = ValidationError.
Proof.
  intros Hread Hg Hsame. unfold createGroup.
  destruct (_ || _); [by eexists|].
  rewrite (bind_getStorageData _ _ _ _ Hread).
  destruct (List.find _ (groups data)) as [g'|] eqn:Hfind; [by eexists|].
  apply list_elem_of_In in Hg. apply (find_none _ _ Hfind) in Hg.
  by apply bool_decide_eq_false in Hg.
Qed.

Lemma createGroup_returns now random name description s g s1 :
  createGroup now random name description s = (Ok g, s1) →
  ∃ data, getStorageData now s = (Ok data, s)
          ∧ g = createNewGroup now random (trim name) (trim <$> description)
          ∧ s1 = (saveStorageData (with_groups (groups data ++ [g]) data) s).2.
Proof.
  unfold createGroup. destruct (_ || _); [done|].
  destruct (getStorageData_total now s) as [data Hread].
  rewrite (bind_getStorageData _ _ _ _ Hread).
  destruct (List.find _ (groups data)); [done|].
  unfold bind, saveStorageData, ret. intros [= <- <-]. by exists data.
Qed.

(** C6: [createGroup] throws a validation error and writes nothing when
    the name is empty or white space only, and when some group of the
    document has the same name after trimming and lower-casing both; in
    particular a [createGroup("work")] that follows a successful
    [createGroup("Work")] is rejected, for any store to start with. *)
Theorem createGroup_rejects :
  (∀ now random name description s,
     name = "" ∨ trim name = "" →
     createGroup now random name description s = (Throw GroupNameEmpty, s)
     ∧ classify GroupNameEmpty = ValidationError)
  ∧ (∀ now random name description s data g,
       getStorageData now s = (Ok data, s) →
       g ∈ groups data →
       toLowerCase (trim (Group.name g)) = toLowerCase (trim name) →
       ∃ e, createGroup now random name description s = (Throw e, s)
            ∧ classify e = ValidationError)
  ∧ (∀ now1 random1 description1 now2 random2 description2 s g s1,
       createGroup now1 random1 "Work" description1 s = (Ok g, s1) →
       ∃ e, createGroup now2 random2 "work" description2 s1 = (Throw e, s1)
            ∧ classify e = ValidationError).
Proof.
  split; [|split].
  - intros. split; [by apply createGroup_empty_name | done].
  - intros *. apply createGroup_name_taken.
  - intros * Hfirst.
    apply createGroup_returns in Hfirst as (data & Hread & -> & ->).
    set (g := createNewGroup now1 random1 (trim "Work") (trim <$> description1)).
    apply (createGroup_name_taken _ _ _ _ _
             (with_groups (groups data ++ [g]) data) g);
      [reflexivity | | reflexivity].
    simpl. apply elem_of_app. right. by left.
Qed.

Lemma createGroup_rejects_witness :
  (createGroup sampleNow "k3x9q2a" "   " None sampleStore
   = (Throw GroupNameEmpty, sampleStore))
  ∧ (∃ e, createGroup sampleNow "k3x9q2a" " WORK" (Some "again") sampleStore
          = (Throw e, sampleStore)
          ∧ classify e = ValidationError)
  ∧ (createGroup sampleNow "z81m0pd" "Work" None emptyStore
     = (Ok (createNewGroup sampleNow "z81m0pd" "Work" None), storeWithWork)
     ∧ ∃ e, createGroup sampleNow "k3x9q2a" "work" None storeWithWork
            = (Throw e, storeWithWork)
            ∧ classify e = ValidationError).
Proof.
  destruct createGroup_rejects as (Hempty & Htaken & Htwice).
  split; [|split].
  - apply Hempty. right. reflexivity.
  - apply (Htaken _ _ _ _ _ sampleData sampleWork); [reflexivity | | reflexivity].
    right. left.
  - split; [reflexivity|].
    apply (Htwice sampleNow "z81m0pd" None _ _ _ emptyStore
             (createNewGroup sampleNow "z81m0pd" "Work" None)).
    reflexivity.
Defined.

(** ** The auth session *)

Lemma signOut_run env w :
  ∃ st', signOut env w
         = (Ok tt, mkWorld st' signedOut (events w ++ [Notified signedOut]))
         ∧ storedToken (now env) st' = Ok None
         ∧ oauthCodeVerifier st' = oauthCodeVerifier (store w).
Proof.
  destruct w as [st a ev]. destruct (getStorageData_total (now env) st) as [data Hread].
  unfold signOut, liftStore, getSettings, saveSettings, markUserAsSignedOut,
    notifyListeners, setAuth, getAuth, emit, bind, ret; simpl.
  rewrite Hread; simpl. rewrite Hread; simpl.
  eexists. split; [reflexivity|]. done.
Qed.

Lemma testGitHubToken_run env token w :
  testGitHubToken env token w
  = (match userEndpoint env token with
     | Rejected => Throw NetworkError
     | Status status => Throw (HttpError "testGitHubToken" status)
     | Body user => Ok (negb (bool_decide (UserInfo.login user = "")))
     end,
     mkWorld (store w) (auth w) (events w ++ [FetchedUser token])).
Proof.
  unfold testGitHubToken, emit, bind, throw, ret; simpl.
  by destruct (userEndpoint env token).
Qed.

Lemma testGitHubToken_valid env token w :
  (testGitHubToken env token w).1 = Ok true ↔ remotelyValid env token = true.
Proof.
  rewrite testGitHubToken_run. unfold remotelyValid. simpl.
  destruct (userEndpoint env token); [done..|]. split; congruence.
Qed.

Lemma ensureAuthenticated_not_signed_in env w :
  AuthState.isSignedIn (auth w) && truthy (AuthState.token (auth w)) = false →
  ensureAuthenticated env w = (Throw LoginRequired, w).
Proof.
  intros Hout. unfold ensureAuthenticated, getAuth, bind; simpl. by rewrite Hout.
Qed.

Lemma ensureAuthenticated_valid env w token :
  AuthState.isSignedIn (auth w) = true →
  AuthState.token (auth w) = Some token →
  token ≠ "" →
  remotelyValid env token = true →
  ensureAuthenticated env w
  = (Ok tt, mkWorld (store w) (auth w) (events w ++ [FetchedUser token])).
Proof.
  intros Hin Htok Hne Hvalid.
  unfold ensureAuthenticated. rewrite (bind_run _ _ w (auth w) w) by done.
  rewrite Hin, Htok; simpl. rewrite bool_decide_eq_false_2 by done; simpl.
  set (w1 := mkWorld (store w) (auth w) (events w ++ [FetchedUser token])).
  assert (testGitHubToken env token w = (Ok true, w1)) as Htest.
  { rewrite testGitHubToken_run. f_equal.
    unfold remotelyValid in Hvalid. destruct (userEndpoint env token); congruence. }
  rewrite (bind_run _ _ w true w1); [done|].
  apply try_catch_run. by rewrite (bind_run _ _ _ _ _ Htest).
Qed.

Lemma ensureAuthenticated_invalid env w token :
  AuthState.isSignedIn (auth w) = true →
  AuthState.token (auth w) = Some token →
  token ≠ "" →
  remotelyValid env token = false →
  ∃ st',
    ensureAuthenticated env w
    = (Throw LoginRequired,
       mkWorld st' signedOut (events w ++ [FetchedUser token; Notified signedOut]))
    ∧ storedToken (now env) st' = Ok None
    ∧ oauthCodeVerifier st' = oauthCodeVerifier (store w).
Proof.
  intros Hin Htok Hne Hinvalid.
  set (w1 := mkWorld (store w) (auth w) (events w ++ [FetchedUser token])).
  destruct (signOut_run env w1) as (st' & Hout & Hstored & Hverifier).
  exists st'. split; [|done].
  assert (bind (signOut env) (λ _, ret false) w1
          = (Ok false,
             mkWorld st' signedOut (events w ++ [FetchedUser token; Notified signedOut])))
    as Hfall.
  { rewrite (bind_run _ _ _ _ _ Hout). unfold ret. simpl. by rewrite <- app_assoc. }
  unfold ensureAuthenticated. rewrite (bind_run _ _ w (auth w) w) by done.
  rewrite Hin, Htok; simpl. rewrite bool_decide_eq_false_2 by done; simpl.
  rewrite (bind_run _ _ w false
             (mkWorld st' signedOut
                (events w ++ [FetchedUser token; Notified signedOut]))); [done|].
  pose proof (testGitHubToken_run env token w) as Htest. fold w1 in Htest.
  unfold remotelyValid in Hinvalid.
  destruct (userEndpoint env token) as [|status|user].
  - rewrite (try_catch_throw _ _ w NetworkError w1); [done|].
    by rewrite (bind_throw _ _ _ _ _ Htest).
  - rewrite (try_catch_throw _ _ w (HttpError "testGitHubToken" status) w1); [done|].
    by rewrite (bind_throw _ _ _ _ _ Htest).
  - apply try_catch_run. rewrite (bind_run _ _ _ _ _ Htest). by rewrite Hinvalid.
Qed.

Lemma signed_in_token w :
  AuthState.isSignedIn (auth w) && truthy (AuthState.token (auth w)) = true →
  AuthState.isSignedIn (auth w) = true
  ∧ ∃ token, AuthState.token (auth w) = Some token ∧ token ≠ "".
Proof.
  intros [Hin Htok]%andb_true_iff. split; [done|].
  destruct (AuthState.token (auth w)) as [token|]; [|done].
  exists token. split; [done|]. simpl in Htok.
  apply negb_true_iff in Htok. by apply bool_decide_eq_false in Htok.
Qed.

(** C7: [ensureAuthenticated] never launches the interactive flow.  When
    the session is signed out (the flag is off, or there is no token in
    memory) it throws the login-required error at once, the world being
    untouched (no remote call, no write).  When the session
    is signed in with a token that the remote validation does not accept
    (the request fails, the status is not 2xx, or the profile has no
    login), the session is signed out first (the listeners are notified and
    the stored token is cleared) and the same error is thrown.  It returns
    normally only when the session is signed in with a token that the
    remote validation accepts, and in that case it does return. *)
Theorem ensureAuthenticated_never_signs_in env w :
  noInteractiveFlow w (ensureAuthenticated env w).2
  ∧ (AuthState.isSignedIn (auth w) = false
     ∨ truthy (AuthState.token (auth w)) = false →
       ensureAuthenticated env w = (Throw LoginRequired, w)
       ∧ classify LoginRequired = AuthRequiredError)
  ∧ (∀ token,
       AuthState.isSignedIn (auth w) = true →
       AuthState.token (auth w) = Some token → token ≠ "" →
       remotelyValid env token = false →
       ∃ w', ensureAuthenticated env w = (Throw LoginRequired, w')
             ∧ auth w' = signedOut
             ∧ storedToken (now env) (store w') = Ok None
             ∧ Notified signedOut ∈ events w')
  ∧ (∀ w', ensureAuthenticated env w = (Ok tt, w') →
           AuthState.isSignedIn (auth w) = true
           ∧ ∃ token, AuthState.token (auth w) = Some token
                      ∧ remotelyValid env token = true)
  ∧ (∀ token,
       AuthState.isSignedIn (auth w) = true →
       AuthState.token (auth w) = Some token → token ≠ "" →
       remotelyValid env token = true →
       (ensureAuthenticated env w).1 = Ok tt).
Proof.
  split; [|split; [|split; [|split]]].
  - destruct (AuthState.isSignedIn (auth w) && truthy (AuthState.token (auth w)))
      eqn:Hstate.
    + apply signed_in_token in Hstate as (Hin & token & Htok & Hne).
      destruct (remotelyValid env token) eqn:Hvalid.
      * rewrite (ensureAuthenticated_valid env w token) by done.
        exists [FetchedUser token]. split; [done|].
        intros clientId [?|?%elem_of_nil]%elem_of_cons; done.
      * destruct (ensureAuthenticated_invalid env w token) as (st' & -> & _); [done..|].
        exists [FetchedUser token; Notified signedOut]. split; [done|].
        intros clientId [?|[?|?%elem_of_nil]%elem_of_cons]%elem_of_cons; done.
    + rewrite ensureAuthenticated_not_signed_in by done.
      exists []. split; [by rewrite app_nil_r|]. intros clientId ?%elem_of_nil. done.
  - intros Hout. split; [|done].
    apply ensureAuthenticated_not_signed_in.
    destruct Hout as [-> | ->]; [done | apply andb_false_r].
  - intros token Hin Htok Hne Hinvalid.
    destruct (ensureAuthenticated_invalid env w token) as (st' & -> & Hcleared & _);
      [done..|].
    eexists. split; [reflexivity|]. split; [done|]. split; [done|]. simpl.
    apply elem_of_app. right. right. left.
  - intros w' Hrun.
    destruct (AuthState.isSignedIn (auth w) && truthy (AuthState.token (auth w)))
      eqn:Hstate.
    + apply signed_in_token in Hstate as (Hin & token & Htok & Hne).
      split; [done|]. exists token. split; [done|].
      destruct (remotelyValid env token) eqn:Hvalid; [done|].
      destruct (ensureAuthenticated_invalid env w token) as (st' & Hthrow & _);
        [done..|].
      congruence.
    + rewrite ensureAuthenticated_not_signed_in in Hrun by done. congruence.
  - intros token Hin Htok Hne Hvalid.
    by rewrite (ensureAuthenticated_valid env w token).
Qed.

Lemma ensureAuthenticated_never_signs_in_witness :
  ensureAuthenticated sampleEnv signedOutWorld = (Throw LoginRequired, signedOutWorld)
  ∧ (∃ w', ensureAuthenticated sampleEnv staleWorld = (Throw LoginRequired, w')
           ∧ auth w' = signedOut
           ∧ storedToken (now sampleEnv) (store w') = Ok None
           ∧ Notified signedOut ∈ events w')
  ∧ (ensureAuthenticated sampleEnv freshWorld).1 = Ok tt
  ∧ (AuthState.isSignedIn (auth freshWorld) = true
     ∧ ∃ token, AuthState.token (auth freshWorld) = Some token
                ∧ remotelyValid sampleEnv token = true).
Proof.
  split; [|split; [|split]].
  - apply (ensureAuthenticated_never_signs_in sampleEnv signedOutWorld).
    left. reflexivity.
  - apply (ensureAuthenticated_never_signs_in sampleEnv staleWorld) with "gho_expired";
      [reflexivity | reflexivity | done | reflexivity].
  - apply (ensureAuthenticated_never_signs_in sampleEnv freshWorld) with "gho_token";
      [reflexivity | reflexivity | done | reflexivity].
  - apply (ensureAuthenticated_never_signs_in sampleEnv freshWorld)
      with (mkWorld sampleStore (signedInAs "gho_token") [FetchedUser "gho_token"]).
    reflexivity.
Defined.

(** ** The interactive sign-in *)

Lemma liftStore_getSettings n w :
  ∃ settings, liftStore (getSettings n) w = (Ok settings, w)
              ∧ (getSettings n (store w)).1 = Ok settings.
Proof.
  destruct w as [st a ev]. destruct (getStorageData_total n st) as [data Hread].
  exists (settings data). unfold liftStore, getSettings; simpl.
  by rewrite !(bind_getStorageData _ _ _ _ Hread).
Qed.

Lemma storedToken_document n s s' :
  tabManagerData s = tabManagerData s' → storedToken n s = storedToken n s'.
Proof.
  intros Hdoc. unfold storedToken, getSettings, bind, getStorageData.
  rewrite Hdoc. by destruct (tabManagerData s').
Qed.

Lemma authenticateWithGitHub_denied env clientId clientSecret w url :
  lastError env = None →
  callbackUrl env = Some url →
  searchParams_get url "error" = Some "access_denied" →
  authenticateWithGitHub env clientId clientSecret w
  = (Throw AccessDenied,
     mkWorld (mkStore (tabManagerData (store w)) (Some (codeVerifier env)))
       (auth w) (events w ++ [LaunchedWebAuthFlow clientId])).
Proof.
  intros Hlast Hurl Herror.
  unfold authenticateWithGitHub, liftStore, emit, bind; simpl.
  rewrite Hlast, Hurl, Herror. done.
Qed.

(** C8: when the settings hold a client id and a client secret, the
    browser reports no error and the callback URL carries
    [error=access_denied], [signIn] throws the auth error whose message
    asks the user to authorize; the stored document (so the stored
    [oauthToken]) and the in-memory session are what they were, so a
    signed-out session stays signed out, and no listener is notified. *)
Theorem signIn_access_denied env w url settings :
  (getSettings (now env) (store w)).1 = Ok settings →
  truthy (Settings.githubClientId settings) = true →
  truthy (Settings.githubClientSecret settings) = true →
  lastError env = None →
  callbackUrl env = Some url →
  searchParams_get url "error" = Some "access_denied" →
  ∃ w', signIn env w = (Throw AccessDenied, w')
        ∧ classify AccessDenied = AuthError
        ∧ tabManagerData (store w') = tabManagerData (store w)
        ∧ storedToken (now env) (store w') = storedToken (now env) (store w)
        ∧ auth w' = auth w
        ∧ (AuthState.isSignedIn (auth w) = false → AuthState.isSignedIn (auth w') = false)
        ∧ (∀ state, Notified state ∈ events w' → Notified state ∈ events w).
Proof.
  intros Hsettings Hid Hsecret Hlast Hurl Herror.
  destruct (liftStore_getSettings (now env) w) as (settings' & Hlift & Hsettings').
  assert (settings' = settings) as -> by congruence.
  unfold signIn. rewrite (bind_run _ _ _ _ _ Hlift), Hid, Hsecret; simpl.
  erewrite try_catch_throw;
    [|erewrite bind_throw; [reflexivity|];
      by apply (authenticateWithGitHub_denied _ _ _ _ url)].
  eexists. split; [reflexivity|]. simpl. split; [done|]. split; [done|].
  split; [apply storedToken_document; done|]. repeat (split; [done|]).
  intros state [?|[?|?%elem_of_nil]%elem_of_cons]%elem_of_app; done.
Qed.

Lemma signIn_access_denied_witness :
  ∃ w', signIn sampleEnv signedOutWorld = (Throw AccessDenied, w')
        ∧ classify AccessDenied = AuthError
        ∧ tabManagerData (store w') = tabManagerData (store signedOutWorld)
        ∧ storedToken (now sampleEnv) (store w')
          = storedToken (now sampleEnv) (store signedOutWorld)
        ∧ auth w' = auth signedOutWorld
        ∧ (AuthState.isSignedIn (auth signedOutWorld) = false
           → AuthState.isSignedIn (auth w') = false)
        ∧ (∀ state, Notified state ∈ events w' → Notified state ∈ events signedOutWorld).
Proof.
  apply (signIn_access_denied sampleEnv signedOutWorld
           (mkURL [("error", "access_denied");
                   ("error_description", "The user has denied your application access.");
                   ("state", "x7Qz")])
           sampleSettings);
    reflexivity.
Defined.

(** ** JSON round trip *)

Module JSONFacts.
Section json_ind.
Variable P : json → Prop.
Hypothesis Hnull : P JNull.
Hypothesis Hbool : ∀ b, P (JBool b).
Hypothesis Hnumber : ∀ n, P (JNumber n).
Hypothesis Hstring : ∀ s, P (JString s).
Hypothesis Harray : ∀ xs, Forall P xs → P (JArray xs).
Hypothesis Hobject : ∀ ms, Forall (λ m, P m.2) ms → P (JObject ms).

(** Induction on a value, with the property of every element of an array
    and of every member of an object at hand. *)
Lemma json_nested_ind : ∀ v, P v.
Proof.
  fix IH 1. intros [|b|n|s|xs|ms].
  - apply Hnull.
  - apply Hbool.
  - apply Hnumber.
  - apply Hstring.
  - apply Harray. revert xs. fix IHxs 1. intros [|x xs].
    + constructor.
    + constructor; [apply IH | apply IHxs].
  - apply Hobject. revert ms. fix IHms 1. intros [|m ms].
    + constructor.
    + constructor; [apply IH | apply IHms].
Qed.
End json_ind.

(** *** White space and first characters *)

Lemma skip_ws_newline indent s : skip_ws (newline indent ++ s) = skip_ws s.
Proof. unfold newline. simpl. induction indent as [|n IH]; simpl; done. Qed.

Lemma newline_delimited indent s : delimited (newline indent ++ s) = true.
Proof. done. Qed.

Lemma skip_ws_starts_value c s : starts_value c = true → skip_ws (c :: s) = c :: s.
Proof.
  destruct c as [[] [] [] [] [] [] [] []]; simpl; intros; done.
Qed.

Lemma skip_ws_comma s : skip_ws (","%char :: s) = ","%char :: s.
Proof. done. Qed.

Lemma digits_starts u :
  u ≠ Decimal.Nil → ∃ c s, digits u = c :: s ∧ starts_number c = true.
Proof. destruct u; [done|..]; intros _; simpl; eauto. Qed.

Lemma to_uint_nonnil n : N.to_uint n ≠ Decimal.Nil.
Proof.
  destruct n as [|p]; [done|]. apply DecimalPos.Unsigned.to_uint_nonnil.
Qed.

Lemma print_number_starts n :
  ∃ c s, print_number n = c :: s ∧ starts_number c = true.
Proof.
  destruct n as [|p|p]; simpl; [eauto | | eauto].
  apply digits_starts, (to_uint_nonnil (Npos p)).
Qed.

Lemma starts_number_value c : starts_number c = true → starts_value c = true.
Proof. destruct c as [[] [] [] [] [] [] [] []]; simpl; done. Qed.

Lemma print_starts indent v :
  ∃ c s, print indent v = c :: s ∧ starts_value c = true.
Proof.
  destruct v as [|[]|n|str|[|x xs]|[|m ms]]; simpl; eauto.
  destruct (print_number_starts n) as (c & s & -> & Hc).
  eauto using starts_number_value.
Qed.

Lemma skip_ws_print indent v s : skip_ws (print indent v ++ s) = print indent v ++ s.
Proof.
  destruct (print_starts indent v) as (c & t & -> & Hc).
  by apply skip_ws_starts_value.
Qed.

(** *** Strings *)

Lemma parse_string_escape_char c r :
  parse_string (escape_char c ++ r)
  = match parse_string r with
    | Some (str, r') => Some (String c str, r')
    | None => None
    end.
Proof. destruct c as [[] [] [] [] [] [] [] []]; reflexivity. Qed.

Lemma parse_string_escape s rest :
  parse_string (escape s ++ "034"%char :: rest) = Some (s, rest).
Proof.
  induction s as [|c s IH]; simpl; [done|].
  by rewrite <- app_assoc, parse_string_escape_char, IH.
Qed.

Lemma parse_string_quote s rest :
  ∃ t, quote s ++ rest = "034"%char :: t ∧ parse_string t = Some (s, rest).
Proof.
  exists (escape s ++ "034"%char :: rest). split.
  - unfold quote. simpl. by rewrite <- app_assoc.
  - apply parse_string_escape.
Qed.

(** *** Numbers *)

Lemma delimited_no_digit s :
  delimited s = true →
  read_digits s = (Decimal.Nil, s) ∧ continues_number s = false.
Proof.
  destruct s as [|c s]; [done|].
  destruct c as [[] [] [] [] [] [] [] []]; simpl; done.
Qed.

Lemma read_digits_digits u rest :
  delimited rest = true → read_digits (digits u ++ rest) = (u, rest).
Proof.
  intros [Hrest _]%delimited_no_digit.
  induction u; simpl; rewrite ?IHu; done.
Qed.

Lemma canonical_uint u :
  Decimal.unorm u = u →
  match u with
  | Decimal.Nil => False
  | Decimal.D0 Decimal.Nil => True
  | Decimal.D0 _ => False
  | _ => True
  end.
Proof.
  destruct u as [|u|u|u|u|u|u|u|u|u|u]; try done.
  assert (u = Decimal.Nil ∨ u ≠ Decimal.Nil) as [->|Hne]
    by (destruct u; auto); [done|].
  rewrite unorm_D0. intros Hnorm.
  pose proof (nb_digits_unorm u Hne) as Hle. rewrite Hnorm in Hle.
  simpl in Hle. lia.
Qed.

Lemma parse_natural_digits n rest :
  delimited rest = true →
  parse_natural (digits (N.to_uint n) ++ rest) = Some (n, rest).
Proof.
  intros Hrest. unfold parse_natural.
  rewrite (read_digits_digits _ _ Hrest); cbn [fst snd].
  destruct (delimited_no_digit _ Hrest) as [_ ->].
  pose proof (canonical_uint (N.to_uint n)) as Hcanon.
  rewrite <- (DecimalN.Unsigned.to_of (N.to_uint n)) in Hcanon at 1.
  rewrite DecimalN.Unsigned.of_to in Hcanon. specialize (Hcanon eq_refl).
  pose proof (DecimalN.Unsigned.of_to n) as Hof.
  destruct (N.to_uint n) as [|u|u|u|u|u|u|u|u|u|u];
    [done | | cbv beta iota; by rewrite Hof ..].
  destruct u; [by rewrite <- Hof | done ..].
Qed.

Lemma parse_number_digits n rest :
  delimited rest = true →
  parse_number (digits (N.to_uint n) ++ rest) = Some (Z.of_N n, rest).
Proof.
  intros Hrest.
  pose proof (parse_natural_digits n rest Hrest) as Hnat.
  destruct (digits_starts (N.to_uint n) (to_uint_nonnil _))
    as (c & t & Hdigits & Hc).
  rewrite Hdigits in *. unfold parse_number.
  destruct c as [[] [] [] [] [] [] [] []]; try done; simpl in *;
    by rewrite Hnat.
Qed.

Lemma parse_number_print n rest :
  delimited rest = true →
  parse_number (print_number n ++ rest) = Some (n, rest).
Proof.
  intros Hrest. destruct n as [|p|p].
  - apply (parse_number_digits 0 rest Hrest).
  - apply (parse_number_digits (Npos p) rest Hrest).
  - unfold print_number, parse_number. cbn [app].
    by rewrite (parse_natural_digits (Npos p) rest Hrest).
Qed.

Lemma parse_value_number fuel c s :
  starts_number c = true →
  parse_value (S fuel) (c :: s)
  = match parse_number (c :: s) with
    | Some (n, r) => Some (JNumber n, r)
    | None => None
    end.
Proof. destruct c as [[] [] [] [] [] [] [] []]; simpl; intros; done. Qed.

(** *** Values *)

Lemma parse_value_array fuel rest :
  parse_value (S fuel) ("["%char :: rest)
  = match closes "]" (skip_ws rest) with
    | Some r => Some (JArray [], r)
    | None =>
        match parse_elements fuel (skip_ws rest) with
        | Some (xs, r') => Some (JArray xs, r')
        | None => None
        end
    end.
Proof. done. Qed.

Lemma parse_value_object fuel rest :
  parse_value (S fuel) ("{"%char :: rest)
  = match closes "}" (skip_ws rest) with
    | Some r => Some (JObject [], r)
    | None =>
        match parse_members fuel (skip_ws rest) with
        | Some (ms, r') => Some (JObject ms, r')
        | None => None
        end
    end.
Proof. done. Qed.

Lemma parse_elements_step fuel s x r :
  parse_value fuel s = Some (x, r) →
  parse_elements (S fuel) s
  = match skip_ws r with
    | "," :: r' =>
        match parse_elements fuel (skip_ws r') with
        | Some (xs, r'') => Some (x :: xs, r'')
        | None => None
        end
    | "]" :: r' => Some ([x], r')
    | _ => None
    end%char.
Proof. simpl. by intros ->. Qed.

Lemma parse_members_step fuel k t x r2 r :
  parse_string t = Some (k, ":"%char :: " "%char :: r) →
  parse_value fuel (skip_ws r) = Some (x, r2) →
  parse_members (S fuel) ("034"%char :: t)
  = match skip_ws r2 with
    | "," :: r3 =>
        match parse_members fuel (skip_ws r3) with
        | Some (ms, r4) => Some ((k, x) :: ms, r4)
        | None => None
        end
    | "}" :: r3 => Some ([(k, x)], r3)
    | _ => None
    end%char.
Proof. intros Hkey Hvalue. simpl. rewrite Hkey. simpl. by rewrite Hvalue. Qed.

Lemma closes_starts_value c c' s :
  starts_value c' = true → c = "]"%char ∨ c = "}"%char → closes c (c' :: s) = None.
Proof.
  intros Hc' [-> | ->]; destruct c' as [[] [] [] [] [] [] [] []]; done.
Qed.

Lemma more_elements_nil p indent :
  more_elements p indent [] = newline indent ++ ["]"%char].
Proof. done. Qed.

Lemma more_elements_cons p indent y ys :
  more_elements p indent (y :: ys)
  = ","%char :: newline (indent + 2) ++ p y ++ more_elements p indent ys.
Proof. done. Qed.

Lemma more_members_nil p indent :
  more_members p indent [] = newline indent ++ ["}"%char].
Proof. done. Qed.

Lemma more_members_cons p indent m ms :
  more_members p indent (m :: ms)
  = ","%char :: newline (indent + 2) ++ print_member p m ++ more_members p indent ms.
Proof. done. Qed.

Lemma print_array_cons indent x xs :
  print indent (JArray (x :: xs))
  = "["%char :: newline (indent + 2) ++ print (indent + 2) x
    ++ more_elements (print (indent + 2)) indent xs.
Proof. done. Qed.

Lemma print_object_cons indent m ms :
  print indent (JObject (m :: ms))
  = "{"%char :: newline (indent + 2) ++ print_member (print (indent + 2)) m
    ++ more_members (print (indent + 2)) indent ms.
Proof. done. Qed.

Lemma skip_ws_print_member p m s :
  skip_ws (print_member p m ++ s) = print_member p m ++ s.
Proof. done. Qed.

Lemma closes_print_member p m s : closes "}" (print_member p m ++ s) = None.
Proof. done. Qed.

Lemma more_elements_delimited p indent xs rest :
  delimited (more_elements p indent xs ++ rest) = true.
Proof. by destruct xs. Qed.

Lemma more_members_delimited p indent ms rest :
  delimited (more_members p indent ms ++ rest) = true.
Proof. by destruct ms. Qed.

Lemma parse_elements_print xs :
  Forall reads_back xs →
  ∀ x fuel indent rest,
    reads_back x →
    S (weight x + foldr (λ y n, S (weight y + n)) 0 xs) ≤ fuel →
    delimited rest = true →
    parse_elements fuel
      (print (indent + 2) x ++ more_elements (print (indent + 2)) indent xs ++ rest)
    = Some (x :: xs, rest).
Proof.
  induction 1 as [|y ys Hy Hys IH]; intros x fuel indent rest Hx Hfuel Hrest;
    (destruct fuel as [|fuel]; [lia|]).
  - rewrite (parse_elements_step fuel _ x (more_elements (print (indent + 2)) indent [] ++ rest)).
    + by rewrite more_elements_nil, <- app_assoc, skip_ws_newline.
    + apply Hx; [simpl in Hfuel; lia | done].
  - rewrite (parse_elements_step fuel _ x
               (more_elements (print (indent + 2)) indent (y :: ys) ++ rest)).
    + rewrite more_elements_cons. cbn [app]. rewrite skip_ws_comma.
      rewrite <- !app_assoc, skip_ws_newline, skip_ws_print.
      rewrite IH; [done | done | simpl in Hfuel; lia | done].
    + apply Hx; [simpl in Hfuel; lia | apply more_elements_delimited].
Qed.

Lemma parse_members_print ms :
  Forall (λ m, reads_back m.2) ms →
  ∀ m fuel indent rest,
    reads_back m.2 →
    S (weight m.2 + foldr (λ m' n, S (weight m'.2 + n)) 0 ms) ≤ fuel →
    delimited rest = true →
    parse_members fuel
      (print_member (print (indent + 2)) m
       ++ more_members (print (indent + 2)) indent ms ++ rest)
    = Some (m :: ms, rest).
Proof.
  induction 1 as [|m' ms Hm' Hms IH]; intros [k x] fuel indent rest Hx Hfuel Hrest;
    (destruct fuel as [|fuel]; [lia|]); simpl in Hx, Hfuel;
    unfold print_member at 1; cbn [fst snd].
  - destruct (parse_string_quote k
                (of_string ": " ++ print (indent + 2) x
                 ++ more_members (print (indent + 2)) indent [] ++ rest))
      as (t & Ht & Hparse).
    rewrite <- !app_assoc, Ht.
    rewrite (parse_members_step fuel k t x
               (more_members (print (indent + 2)) indent [] ++ rest) _ Hparse).
    + by rewrite more_members_nil, <- app_assoc, skip_ws_newline.
    + rewrite skip_ws_print. apply Hx; [lia | done].
  - destruct (parse_string_quote k
                (of_string ": " ++ print (indent + 2) x
                 ++ more_members (print (indent + 2)) indent (m' :: ms) ++ rest))
      as (t & Ht & Hparse).
    rewrite <- !app_assoc, Ht.
    rewrite (parse_members_step fuel k t x
               (more_members (print (indent + 2)) indent (m' :: ms) ++ rest) _ Hparse).
    + rewrite more_members_cons. cbn [app]. rewrite skip_ws_comma.
      rewrite <- !app_assoc, skip_ws_newline, skip_ws_print_member.
      rewrite IH; [done | done | lia | done].
    + rewrite skip_ws_print. apply Hx; [lia | apply more_members_delimited].
Qed.

Lemma parse_value_print v : reads_back v.
Proof.
  induction v as [|b|n|str|xs IH|ms IH] using json_nested_ind;
    intros fuel indent rest Hfuel Hrest;
    (destruct fuel as [|fuel]; [simpl in Hfuel; lia|]).
  - done.
  - by destruct b.
  - simpl print.
    destruct (print_number_starts n) as (c & s & Hn & Hc).
    pose proof (parse_number_print n rest Hrest) as Hparse.
    rewrite Hn in *. cbn [app] in *.
    by rewrite (parse_value_number fuel c _ Hc), Hparse.
  - destruct (parse_string_quote str rest) as (t & Ht & Hparse).
    simpl print. rewrite Ht. simpl. by rewrite Hparse.
  - destruct IH as [|x xs Hx Hxs]; [done|].
    rewrite print_array_cons. cbn [app]. rewrite parse_value_array.
    rewrite <- !app_assoc, skip_ws_newline, skip_ws_print.
    destruct (print_starts (indent + 2) x) as (c & s & Hprint & Hc).
    rewrite Hprint at 1. cbn [app].
    rewrite (closes_starts_value _ c _ Hc) by auto.
    rewrite parse_elements_print; [done | done | done | simpl in Hfuel; lia | done].
  - destruct IH as [|m ms Hm Hms]; [done|].
    rewrite print_object_cons. cbn [app]. rewrite parse_value_object.
    rewrite <- !app_assoc, skip_ws_newline, skip_ws_print_member, closes_print_member.
    rewrite parse_members_print; [done | done | done | simpl in Hfuel; lia | done].
Qed.

(** *** Fuel *)

Lemma more_elements_length indent xs :
  Forall (λ x, ∀ i, weight x ≤ length (print i x)) xs →
  foldr (λ y n, S (weight y + n)) 0 xs
  ≤ length (more_elements (print (indent + 2)) indent xs).
Proof.
  induction 1 as [|y ys Hy Hys IH]; [simpl; lia|].
  rewrite more_elements_cons. simpl foldr. cbn [length].
  rewrite !length_app. specialize (Hy (indent + 2)). lia.
Qed.

Lemma more_members_length indent ms :
  Forall (λ m, ∀ i, weight m.2 ≤ length (print i m.2)) ms →
  foldr (λ m n, S (weight m.2 + n)) 0 ms
  ≤ length (more_members (print (indent + 2)) indent ms).
Proof.
  induction 1 as [|m ms Hm Hms IH]; [simpl; lia|].
  rewrite more_members_cons. simpl foldr. cbn [length].
  unfold print_member. rewrite !length_app. specialize (Hm (indent + 2)). lia.
Qed.

Lemma weight_le_length v : ∀ indent, weight v ≤ length (print indent v).
Proof.
  induction v as [|b|n|str|xs IH|ms IH] using json_nested_ind; intros indent.
  - simpl. lia.
  - destruct b; simpl; lia.
  - destruct (print_number_starts n) as (c & s & Hn & _).
    simpl. rewrite Hn. simpl. lia.
  - simpl. lia.
  - destruct IH as [|x xs Hx Hxs]; [simpl; lia|].
    rewrite print_array_cons. simpl weight. cbn [length].
    rewrite !length_app.
    pose proof (more_elements_length indent xs Hxs). specialize (Hx (indent + 2)).
    unfold newline. simpl length. lia.
  - destruct IH as [|m ms Hm Hms]; [simpl; lia|].
    rewrite print_object_cons. simpl weight. cbn [length].
    unfold print_member at 1. rewrite !length_app.
    pose proof (more_members_length indent ms Hms). specialize (Hm (indent + 2)).
    unfold newline. simpl length. lia.
Qed.

(** [JSON.parse(JSON.stringify(v, null, 2))] is [v]. *)
Theorem parse_stringify v : parse (stringify v) = Some v.
Proof.
  unfold parse, stringify, of_string.
  rewrite String.list_ascii_of_string_of_list_ascii.
  pose proof (skip_ws_print 0 v []) as Hskip. rewrite app_nil_r in Hskip.
  pose proof (parse_value_print v (S (length (print 0 v))) 0 []) as Hparse.
  rewrite app_nil_r in Hparse.
  rewrite Hskip, Hparse; [done | | done].
  pose proof (weight_le_length v 0). lia.
Qed.

End JSONFacts.

(** ** [StorageData] documents as JSON texts *)

Lemma tabOfJson_jsonOfTab t : tabOfJson (jsonOfTab t) = Some t.
Proof. by destruct t as [? ? ? [?|] ?]. Qed.

Lemma groupOfJson_jsonOfGroup g : groupOfJson (jsonOfGroup g) = Some g.
Proof.
  assert (mapM tabOfJson (jsonOfTab <$> Group.tabs g) = Some (Group.tabs g)) as Htabs.
  { apply mapM_fmap_Some. intros t. apply tabOfJson_jsonOfTab. }
  destruct g as [? ? [?|] tabs ? ?]; unfold groupOfJson; simpl in *; by rewrite Htabs.
Qed.

Lemma settingsOfJson_jsonOfSettings s : settingsOfJson (jsonOfSettings s) = Some s.
Proof. by destruct s as [? [?|] [?|] [?|] [?|]]. Qed.

Lemma storageDataOfJson_jsonOfStorageData d :
  storageDataOfJson (jsonOfStorageData d) = Some d.
Proof.
  assert (mapM groupOfJson (jsonOfGroup <$> groups d) = Some (groups d)) as Hgroups.
  { apply mapM_fmap_Some. intros g. apply groupOfJson_jsonOfGroup. }
  destruct d as [gs st]; unfold storageDataOfJson; simpl in *.
  by rewrite Hgroups, settingsOfJson_jsonOfSettings.
Qed.

(** Parsing the pretty-printed serialisation of a document gives the
    document back, field by field. *)
Lemma parse_serialize d :
  JSON.parse (serialize d) ≫= storageDataOfJson = Some d.
Proof.
  unfold serialize. rewrite JSONFacts.parse_stringify. simpl.
  apply storageDataOfJson_jsonOfStorageData.
Qed.

Example serialize_default :
  serialize (mkStorageData [createDefaultGroup 1700000000000] defaultSettings)
  = String.concat (String "010" "")
      ["{";
       "  " +:+ String "034" "groups" +:+ String "034" ": [";
       "    {";
       "      " +:+ String "034" "id" +:+ String "034" ": "
         +:+ String "034" "default" +:+ String "034" ",";
       "      " +:+ String "034" "name" +:+ String "034" ": "
         +:+ String "034" "Default" +:+ String "034" ",";
       "      " +:+ String "034" "tabs" +:+ String "034" ": [],";
       "      " +:+ String "034" "createdAt" +:+ String "034" ": 1700000000000,";
       "      " +:+ String "034" "updatedAt" +:+ String "034" ": 1700000000000";
       "    }";
       "  ],";
       "  " +:+ String "034" "settings" +:+ String "034" ": {";
       "    " +:+ String "034" "closeAndSave" +:+ String "034" ": false";
       "  }";
       "}"].
Proof. vm_compute. reflexivity. Qed.

(** ** Sync to a gist and back *)

Lemma includes_nonempty name sub :
  sub ≠ "" → includes name sub = true → name ≠ "".
Proof. intros Hsub Hin ->. by destruct sub. Qed.

Lemma liftLocal_read env c data :
  getStorageData (now env) (local c) = (Ok data, local c) →
  liftLocal (getStorageDataForSync (now env)) c = (Ok data, c).
Proof.
  intros Hread. unfold liftLocal, getStorageDataForSync. rewrite Hread.
  by destruct c.
Qed.

Lemma getGistRequest_found env token gistId c files :
  gistAccess env token = true →
  gists c !! gistId = Some files →
  getGistRequest env token gistId c = (Ok (Body files), c).
Proof. intros Haccess Hgist. unfold getGistRequest. by rewrite Haccess, Hgist. Qed.

Lemma patchGistRequest_found env token gistId filename content c files :
  gistAccess env token = true →
  gists c !! gistId = Some files →
  patchGistRequest env token gistId filename content c
  = (Ok (Body tt),
     mkCloud (local c) (<[gistId := setFile filename content files]> (gists c))).
Proof. intros Haccess Hgist. unfold patchGistRequest. by rewrite Haccess, Hgist. Qed.

(** [Object.keys] lists every name once. *)
Lemma insertIndex_names index name sorted :
  (insertIndex index name sorted).*2 ≡ₚ name :: sorted.*2.
Proof.
  induction sorted as [|[index' name'] sorted IH]; [done|].
  cbn [insertIndex]. destruct (index <? index')%N; [done|].
  rewrite !fmap_cons, IH. cbn [snd]. apply Permutation_swap.
Qed.

Lemma objectKeys_Permutation names : objectKeys names ≡ₚ names.
Proof.
  unfold objectKeys. induction names as [|name names IH]; [done|].
  cbn [indexKeys foldr]. fold (indexKeys names). rewrite filter_cons.
  destruct (arrayIndex name) as [index|] eqn:Hindex.
  - rewrite decide_False by done. rewrite insertIndex_names. simpl. by rewrite IH.
  - rewrite decide_True by done. rewrite <- Permutation_middle. by rewrite IH.
Qed.

Lemma objectKeys_head names name :
  head (objectKeys names) = Some name → name ∈ names.
Proof.
  intros Hhead. rewrite <- (objectKeys_Permutation names).
  destruct (objectKeys names); [done|]. injection Hhead as ->. left.
Qed.

Lemma firstFilename_head files name :
  head (objectKeys files.*1) = Some name → name ≠ "" → firstFilename files = name.
Proof.
  unfold firstFilename. intros Hhead Hname.
  destruct (objectKeys files.*1); [done|]. injection Hhead as ->.
  by rewrite bool_decide_eq_false_2.
Qed.

Lemma dataFilename_head files name :
  head (objectKeys files.*1) = Some name →
  includes name "the-one-tab" = true →
  dataFilename files = Some name.
Proof.
  unfold dataFilename. intros Hhead Hincludes.
  destruct (objectKeys files.*1); [done|]. injection Hhead as ->.
  simpl. by rewrite Hincludes.
Qed.

(** What the service does with the file of a [PATCH]. *)
Lemma setFile_split name content files :
  name ∈ files.*1 →
  ∃ before old after,
    files = before ++ (name, old) :: after
    ∧ (name ∉ before.*1)
    ∧ setFile name content files = before ++ (name, content) :: after.
Proof.
  induction files as [|[n c] files IH]; [by intros ?%elem_of_nil|].
  intros Hin. cbn [setFile]. destruct (String.eqb n name) eqn:Heq.
  - apply String.eqb_eq in Heq as ->.
    exists [], c, files. split; [done|]. split; [apply not_elem_of_nil | done].
  - apply String.eqb_neq in Heq.
    rewrite fmap_cons in Hin. apply elem_of_cons in Hin as [Hin|Hin]; [by subst|].
    destruct (IH Hin) as (before & old & after & -> & Hbefore & ->).
    exists ((n, c) :: before), old, after. split; [done|]. split; [|done].
    rewrite fmap_cons. intros [?|?]%elem_of_cons; [by subst | done].
Qed.

Lemma fileNamed_middle before name content after :
  name ∉ before.*1 →
  fileNamed (before ++ (name, content) :: after) name = Some content.
Proof.
  unfold fileNamed. induction before as [|[n c] before IH]; intros Hbefore; simpl.
  - by rewrite String.eqb_refl.
  - rewrite fmap_cons in Hbefore. apply not_elem_of_cons in Hbefore as [Hne Hbefore].
    destruct (String.eqb n name) eqn:Heq; [by apply String.eqb_eq in Heq|].
    by apply IH.
Qed.


Lemma updateGist_writes env token gistId data c files :
  gistAccess env token = true →
  gists c !! gistId = Some files →
  updateGist env token gistId data c
  = (Ok tt,
     mkCloud (local c)
       (<[gistId := setFile (firstFilename files) (serialize data) files]> (gists c))).
Proof.
  intros Haccess Hgist. unfold updateGist.
  rewrite (bind_run _ _ c (firstFilename files) c).
  - by rewrite (bind_run _ _ _ _ _
                  (patchGistRequest_found _ _ _ _ (serialize data) _ _ Haccess Hgist)).
  - apply try_catch_run.
    by rewrite (bind_run _ _ _ _ _ (getGistRequest_found _ _ _ _ _ Haccess Hgist)).
Qed.

Lemma syncToGist_writes env token gistId c data files :
  gistAccess env token = true →
  gistId ≠ "" →
  getStorageData (now env) (local c) = (Ok data, local c) →
  gists c !! gistId = Some files →
  syncToGist env token (Some gistId) c
  = (Ok tt,
     mkCloud (local c)
       (<[gistId := setFile (firstFilename files) (serialize data) files]> (gists c))).
Proof.
  intros Haccess Hid Hread Hgist. unfold syncToGist.
  rewrite (bind_run _ _ _ _ _ (liftLocal_read env c data Hread)). simpl.
  rewrite bool_decide_eq_false_2 by done. simpl.
  apply try_catch_run. by apply updateGist_writes.
Qed.

Lemma syncFromGist_reads env token gistId c files filename data :
  gistAccess env token = true →
  gists c !! gistId = Some files →
  dataFilename files = Some filename →
  filename ≠ "" →
  fileNamed files filename = Some (serialize data) →
  syncFromGist env token gistId c
  = (Ok data, mkCloud (mkStore (Some data) (oauthCodeVerifier (local c))) (gists c)).
Proof.
  intros Haccess Hgist Hname Hne Hfile. unfold syncFromGist.
  rewrite (bind_run _ _ _ _ _ (getGistRequest_found _ _ _ _ _ Haccess Hgist)).
  rewrite Hname. simpl. rewrite bool_decide_eq_false_2 by done. simpl.
  rewrite Hfile. unfold serialize. rewrite JSONFacts.parse_stringify.
  by rewrite storageDataOfJson_jsonOfStorageData.
Qed.

(** When the file that [Object.keys] lists first is a data file (its name
    has [the-one-tab] in it), a [syncToGist] followed by a [syncFromGist]
    gives the local document back. *)
Lemma sync_round_trip_first_file env token gistId c data files name :
  gistAccess env token = true →
  gistId ≠ "" →
  getStorageData (now env) (local c) = (Ok data, local c) →
  gists c !! gistId = Some files →
  head (objectKeys files.*1) = Some name →
  includes name "the-one-tab" = true →
  ∃ c1 c2,
    syncToGist env token (Some gistId) c = (Ok tt, c1)
    ∧ local c1 = local c
    ∧ syncFromGist env token gistId c1 = (Ok data, c2)
    ∧ tabManagerData (local c2) = Some data.
Proof.
  intros Haccess Hid Hread Hgist Hhead Hincludes.
  assert (name ≠ "") as Hname by by apply (includes_nonempty _ "the-one-tab").
  destruct (setFile_split name (serialize data) files (objectKeys_head _ _ Hhead))
    as (before & old & after & Hfiles & Hbefore & Hset).
  eexists _, _. split; [by apply (syncToGist_writes _ _ _ _ data files)|].
  rewrite (firstFilename_head _ _ Hhead Hname), Hset.
  split; [done|]. split.
  - apply (syncFromGist_reads _ _ _ _ (before ++ (name, serialize data) :: after) name).
    + done.
    + simpl. by rewrite lookup_insert_eq.
    + apply dataFilename_head; [|done].
      replace ((before ++ (name, serialize data) :: after).*1) with files.*1; [done|].
      rewrite Hfiles, !fmap_app. done.
    + done.
    + by apply fileNamed_middle.
  - reflexivity.
Qed.

(** C2: parsing the serialisation of a document is to give the document
    back, and so a [syncFromGist] after a [syncToGist] of the same gist is
    to reproduce the local document.  The first half holds
    ([parse_serialize]).  The second does not: the two directions of the
    sync do not agree on the file.  [updateGist] writes to the file that
    the gist lists first, [syncFromGist] reads the first file whose name
    has [the-one-tab] in it.  On the sample gist, which lists a read-me
    before the data file, [syncToGist] returns normally, leaves the local
    store alone and puts the document into the read-me; the [syncFromGist]
    that follows returns the older backup, which is not the local
    document, and overwrites the local store with it. *)
Theorem sync_round_trip_other_file :
  let c1 := (syncToGist sampleEnv "gho_token" (Some "abc123") sampleCloud).2 in
  let c2 := (syncFromGist sampleEnv "gho_token" "abc123" c1).2 in
  getStorageData sampleNow (local sampleCloud) = (Ok sampleData, local sampleCloud)
  ∧ (syncToGist sampleEnv "gho_token" (Some "abc123") sampleCloud).1 = Ok tt
  ∧ local c1 = local sampleCloud
  ∧ gists c1 !! "abc123"
    = Some [("README.md", serialize sampleData);
            ("the-one-tab-data.json", serialize staleData)]
  ∧ (syncFromGist sampleEnv "gho_token" "abc123" c1).1 = Ok staleData
  ∧ staleData ≠ sampleData
  ∧ tabManagerData (local c2) = Some staleData.
Proof.
  assert (syncToGist sampleEnv "gho_token" (Some "abc123") sampleCloud
          = (Ok tt,
             mkCloud (local sampleCloud)
               (<["abc123" := [("README.md", serialize sampleData);
                               ("the-one-tab-data.json", serialize staleData)]]>
                  (gists sampleCloud)))) as Hto.
  { by rewrite (syncToGist_writes sampleEnv "gho_token" "abc123" sampleCloud sampleData
                  [("README.md", "# Saved tabs");
                   ("the-one-tab-data.json", serialize staleData)]). }
  set (files := [("README.md", serialize sampleData);
                 ("the-one-tab-data.json", serialize staleData)]) in *.
  pose proof (syncFromGist_reads sampleEnv "gho_token" "abc123"
                (mkCloud (local sampleCloud) (<["abc123" := files]> (gists sampleCloud)))
                files "the-one-tab-data.json" staleData) as Hfrom.
  cbv zeta. rewrite Hto. cbn [fst snd].
  rewrite Hfrom; [| reflexivity | apply lookup_insert_eq | reflexivity | done | reflexivity ].
  cbn [fst snd local gists tabManagerData].
  split; [reflexivity|]. split; [done|]. split; [done|].
  split; [apply lookup_insert_eq|]. split; [reflexivity|]. split; [|reflexivity].
  unfold staleData, sampleData. discriminate.
Qed.

(** * Further properties of the store *)

(** ** Looking groups up *)

Lemma findGroupById_is_Some gs id :
  is_Some (findGroupById gs id) ↔ id ∈ Group.id <$> gs.
Proof.
  unfold findGroupById. induction gs as [|g gs IH]; simpl.
  - split; [intros [? [=]] | intros []%elem_of_nil].
  - case_bool_decide as Hid.
    + split; [intros _; rewrite <- Hid; left | eauto].
    + rewrite IH. split; [by right|].
      intros [?|?]%elem_of_cons; [congruence | done].
Qed.


Lemma modifyGroup_ids f id gs :
  (∀ g, Group.id (f g) = Group.id g) →
  Group.id <$> modifyGroup f id gs = Group.id <$> gs.
Proof.
  intros Hf. induction gs as [|g gs IH]; [done|].
  cbn [modifyGroup]. case_bool_decide; rewrite !fmap_cons; [by rewrite Hf | by rewrite IH].
Qed.

Lemma modifyGroup_other f id id' gs :
  (∀ g, Group.id (f g) = Group.id g) →
  id' ≠ id →
  findGroupById (modifyGroup f id gs) id' = findGroupById gs id'.
Proof.
  intros Hf Hne. unfold findGroupById. induction gs as [|g gs IH]; simpl; [done|].
  case_bool_decide as Hid; simpl.
  - rewrite Hf. by rewrite !bool_decide_eq_false_2 by congruence.
  - by rewrite IH.
Qed.

Lemma existsb_findGroupById gs id :
  existsb (λ g, bool_decide (Group.id g = id)) gs
  = bool_decide (is_Some (findGroupById gs id)).
Proof.
  unfold findGroupById. induction gs as [|g gs IH]; simpl.
  - reflexivity.
  - destruct (bool_decide (Group.id g = id)); simpl; [reflexivity | done].
Qed.

Lemma with_groups_same data : with_groups (groups data) data = data.
Proof. by destruct data. Qed.

(** ** [initStorage] *)

(** [initStorage] returns normally.  It writes only when the store holds a
    document without a default group, and then it puts the default group
    in front of the groups that are there; on a store without a document
    it writes nothing (the default group that a reader sees is made up at
    each read).  Afterwards every read finds a default group, and a second
    [initStorage] changes nothing. *)
Theorem initStorage_ensures_default now s :
  ∃ s1,
    initStorage now s = (Ok tt, s1)
    ∧ match tabManagerData s with
      | None => s1 = s
      | Some data =>
          if bool_decide (is_Some (findGroupById (groups data) "default"))
          then s1 = s
          else s1 = mkStore
                      (Some (with_groups (createDefaultGroup now :: groups data) data))
                      (oauthCodeVerifier s)
      end
    ∧ (∀ now1 data1,
         getStorageData now1 s1 = (Ok data1, s1) → hasDefaultGroup data1)
    ∧ (∀ now1, initStorage now1 s1 = (Ok tt, s1)).
Proof.
  assert (∀ n st d, getStorageData n st = (Ok d, st) →
            is_Some (findGroupById (groups d) "default") →
            initStorage n st = (Ok tt, st)) as Hkeep.
  { intros n st d Hread Hdef. unfold initStorage.
    rewrite (bind_getStorageData _ _ _ _ Hread), existsb_findGroupById.
    by rewrite bool_decide_eq_true_2. }
  assert (∀ st, (∀ n d, getStorageData n st = (Ok d, st) →
                        is_Some (findGroupById (groups d) "default")) →
            (∀ n d, getStorageData n st = (Ok d, st) → hasDefaultGroup d)
            ∧ (∀ n, initStorage n st = (Ok tt, st))) as Hafter.
  { intros st Hst. split.
    - intros n d Hread. apply findGroupById_is_Some. eauto.
    - intros n. destruct (getStorageData_total n st) as [d Hread]. eauto. }
  destruct s as [[data|] verifier]; simpl.
  - case_bool_decide as Hdef.
    + exists (mkStore (Some data) verifier).
      split; [by apply (Hkeep _ _ data)|]. split; [done|].
      apply Hafter. intros n d [= <-]. done.
    + eexists. split.
      { unfold initStorage, bind; simpl. rewrite existsb_findGroupById.
        by rewrite bool_decide_eq_false_2. }
      split; [done|]. apply Hafter. intros n d [= <-]. simpl.
      unfold findGroupById. simpl. eauto.
  - exists (mkStore None verifier).
    split; [apply (Hkeep _ _ (mkStorageData [createDefaultGroup now] defaultSettings));
            [done | unfold findGroupById; simpl; eauto]|].
    split; [done|]. apply Hafter. intros n d [= <-]. unfold findGroupById; simpl; eauto.
Qed.

(** ** [saveGroup] *)

Lemma saveGroup_placed (x : Group.t) (gs : list Group.t) :
  let gs1 :=
    match list_find (λ g, Group.id g = Group.id x) gs with
    | Some (index, _) => <[index := x]> gs
    | None => gs ++ [x]
    end in
  findGroupById gs1 (Group.id x) = Some x
  ∧ (∀ id, id ≠ Group.id x → findGroupById gs1 id = findGroupById gs id)
  ∧ Group.id <$> gs1
    = (if bool_decide (Group.id x ∈ Group.id <$> gs) then Group.id <$> gs
       else (Group.id <$> gs) ++ [Group.id x]).
Proof.
  induction gs as [|g gs IH]; cbn zeta in *.
  - unfold findGroupById. simpl. rewrite bool_decide_eq_true_2 by done.
    split; [done|]. split; [|done].
    intros id Hne. by rewrite bool_decide_eq_false_2.
  - cbn [list_find]. destruct (decide (Group.id g = Group.id x)) as [Hg|Hg]; simpl.
    + unfold findGroupById. simpl. rewrite bool_decide_eq_true_2 by done.
      split; [done|]. split.
      * intros id Hne. by rewrite !bool_decide_eq_false_2 by congruence.
      * rewrite bool_decide_eq_true_2; [by rewrite Hg | rewrite Hg; left].
    + destruct IH as (Hfound & Hother & Hids).
      assert (Group.id x ∈ Group.id g :: (Group.id <$> gs)
              ↔ Group.id x ∈ Group.id <$> gs) as Hmem.
      { rewrite elem_of_cons. split; [intros [Heq|Hin]; [by symmetry in Heq | done] | by right]. }
      rewrite (bool_decide_ext _ _ Hmem).
      destruct (list_find _ gs) as [[index y]|]; simpl in *.
      * unfold findGroupById in *. simpl.
        rewrite bool_decide_eq_false_2 by done. split; [done|]. split.
        -- intros id Hne.
           destruct (bool_decide (Group.id g = id)); [done | by apply Hother].
        -- unfold fmap in Hids. rewrite Hids.
           by destruct (bool_decide _).
      * unfold findGroupById in *. simpl.
        rewrite bool_decide_eq_false_2 by done. split; [done|]. split.
        -- intros id Hne.
           destruct (bool_decide (Group.id g = id)); [done | by apply Hother].
        -- unfold fmap in Hids. rewrite Hids.
           by destruct (bool_decide _).
Qed.



(** ** [removeTabFromGroup] *)

Lemma filter_id_absent tabId (ts : list Tab.t) :
  tabId ∉ Tab.id <$> ts → filter (λ t, Tab.id t ≠ tabId) ts = ts.
Proof.
  induction ts as [|t ts IH]; [done|].
  rewrite fmap_cons, not_elem_of_cons. intros [Hne Hrest].
  rewrite filter_cons_True by done. by rewrite IH.
Qed.

(** [removeTabFromGroup] takes every tab with the given id out of the
    group (not the first one only) and keeps the other tabs in their
    order.  A tab id that the group does not have is no error: the call
    returns, and the group differs in its time stamp only. *)
Theorem removeTabFromGroup_removes now groupId tabId s data g :
  getStorageData now s = (Ok data, s) →
  findGroupById (groups data) groupId = Some g →
  ∃ s1 data1 g1,
    removeTabFromGroup now groupId tabId s = (Ok tt, s1)
    ∧ getStorageData now s1 = (Ok data1, s1)
    ∧ findGroupById (groups data1) groupId = Some g1
    ∧ g1 = Group.with_updatedAt now
             (Group.with_tabs (filter (λ t, Tab.id t ≠ tabId) (Group.tabs g)) g)
    ∧ (tabId ∉ Tab.id <$> Group.tabs g1)
    ∧ (∀ t, Tab.id t ≠ tabId → t ∈ Group.tabs g → t ∈ Group.tabs g1)
    ∧ sublist (Group.tabs g1) (Group.tabs g)
    ∧ (tabId ∉ Tab.id <$> Group.tabs g → g1 = Group.with_updatedAt now g).
Proof.
  intros Hread Hfind.
  unfold removeTabFromGroup. rewrite (bind_getStorageData _ _ _ _ Hread), Hfind.
  eexists _, _, _. split; [reflexivity|]. split; [reflexivity|]. split.
  { simpl. by apply modifyGroup_found. }
  split; [reflexivity|]. simpl. split; [|split; [|split]].
  - rewrite list_elem_of_fmap. intros (t & -> & Hin).
    apply list_elem_of_filter in Hin as [Hne _]. done.
  - intros t Hne Hin. by apply list_elem_of_filter.
  - apply sublist_filter.
  - intros Habsent. rewrite (filter_id_absent _ _ Habsent). by destruct g.
Qed.

Lemma removeTabFromGroup_removes_witness :
  ∃ s1 data1 g1,
    removeTabFromGroup sampleNow "default" (Tab.id tabA) sampleStore = (Ok tt, s1)
    ∧ getStorageData sampleNow s1 = (Ok data1, s1)
    ∧ findGroupById (groups data1) "default" = Some g1
    ∧ g1 = Group.with_updatedAt sampleNow
             (Group.with_tabs
                (filter (λ t, Tab.id t ≠ Tab.id tabA) (Group.tabs sampleDefault))
                sampleDefault)
    ∧ (Tab.id tabA ∉ Tab.id <$> Group.tabs g1)
    ∧ (∀ t, Tab.id t ≠ Tab.id tabA → t ∈ Group.tabs sampleDefault → t ∈ Group.tabs g1)
    ∧ sublist (Group.tabs g1) (Group.tabs sampleDefault)
    ∧ (Tab.id tabA ∉ Tab.id <$> Group.tabs sampleDefault
       → g1 = Group.with_updatedAt sampleNow sampleDefault).
Proof.
  apply (removeTabFromGroup_removes sampleNow "default" (Tab.id tabA)
           sampleStore sampleData sampleDefault); reflexivity.
Defined.

(** ** A group that is not there *)

(** The three operations on the tabs of one group refuse a group id that
    no group has: each throws the not-found error that names the id, and
    the store is as it was. *)
Theorem tab_mutators_unknown_group now groupId s data :
  getStorageData now s = (Ok data, s) →
  groupId ∉ groupIds data →
  classify (GroupNotFound groupId) = NotFoundError
  ∧ (∀ tabs, addTabsToGroup now groupId tabs s = (Throw (GroupNotFound groupId), s))
  ∧ (∀ tabId, removeTabFromGroup now groupId tabId s = (Throw (GroupNotFound groupId), s))
  ∧ (∀ newOrder,
       reorderTabsInGroup now groupId newOrder s = (Throw (GroupNotFound groupId), s)).
Proof.
  intros Hread Habsent.
  assert (findGroupById (groups data) groupId = None) as Hnone.
  { apply eq_None_not_Some. by rewrite findGroupById_is_Some. }
  split; [done|]. repeat split; intros;
    unfold addTabsToGroup, removeTabFromGroup, reorderTabsInGroup;
    by rewrite (bind_getStorageData _ _ _ _ Hread), Hnone.
Qed.

Lemma tab_mutators_unknown_group_witness :
  classify (GroupNotFound "group_0_missing") = NotFoundError
  ∧ (∀ tabs, addTabsToGroup sampleNow "group_0_missing" tabs sampleStore
             = (Throw (GroupNotFound "group_0_missing"), sampleStore))
  ∧ (∀ tabId, removeTabFromGroup sampleNow "group_0_missing" tabId sampleStore
              = (Throw (GroupNotFound "group_0_missing"), sampleStore))
  ∧ (∀ newOrder, reorderTabsInGroup sampleNow "group_0_missing" newOrder sampleStore
                 = (Throw (GroupNotFound "group_0_missing"), sampleStore)).
Proof.
  apply (tab_mutators_unknown_group sampleNow "group_0_missing" sampleStore sampleData).
  - reflexivity.
  - unfold groupIds. simpl. rewrite !not_elem_of_cons.
    repeat split; [discriminate | discriminate | apply not_elem_of_nil].
Defined.

(** ** [moveTabBetweenGroups] *)

(** What [moveTabBetweenGroups] leaves of the tabs of the target before it
    pushes the moved tab: the first tab with the URL of the moved tab is
    taken out. *)
Lemma target_tabs_kept (tab : Tab.t) (ts : list Tab.t) :
  let toTabs :=
    match list_find (λ t, Tab.url t = Tab.url tab) ts with
    | Some (existingTabIndex, _) => delete existingTabIndex ts
    | None => ts
    end in
  (∀ t, t ∈ ts → Tab.url t ≠ Tab.url tab → t ∈ toTabs)
  ∧ (NoDup (Tab.url <$> ts) →
     NoDup (Tab.url <$> toTabs) ∧ Tab.url tab ∉ Tab.url <$> toTabs)
  ∧ (Tab.url tab ∉ Tab.url <$> ts → toTabs = ts).
Proof.
  cbn zeta. destruct (list_find _ ts) as [[j y]|] eqn:Hfind.
  - apply list_find_Some in Hfind as (Hj & Hy & _).
    pose proof (take_drop_middle _ _ _ Hj) as Hsplit.
    rewrite delete_take_drop. split; [|split].
    + intros t Hin Hne. rewrite <- Hsplit in Hin.
      rewrite elem_of_app, elem_of_cons in Hin. rewrite elem_of_app.
      destruct Hin as [?|[->|?]]; [by left | done | by right].
    + intros Hnodup. rewrite <- Hsplit in Hnodup.
      rewrite fmap_app, fmap_cons in Hnodup.
      apply NoDup_app in Hnodup as (Hl & Hlr & Hr).
      apply NoDup_cons in Hr as [Hy' Hr].
      rewrite fmap_app. split.
      * apply NoDup_app. split; [done|]. split; [|done].
        intros u Hu Hu'. apply (Hlr u Hu). by right.
      * rewrite elem_of_app, <- Hy. intros [Hin|Hin]; [|done].
        apply (Hlr _ Hin). left.
    + intros Habsent. exfalso. apply Habsent. rewrite <- Hy.
      apply list_elem_of_fmap. exists y. split; [done|].
      by apply list_elem_of_lookup_2 in Hj.
  - apply list_find_None in Hfind. split; [done|]. split; [|done].
    intros Hnodup. split; [done|].
    rewrite list_elem_of_fmap. intros (t & Hurl & Hin).
    rewrite Forall_forall in Hfind. by apply (Hfind t Hin).
Qed.

(** [moveTabBetweenGroups] between two different groups that exist, for a
    tab id that the source has: the first tab with that id leaves the
    source and becomes the last tab of the target; a tab of the target with
    the same URL is dropped for it, the other tabs of the target stay;
    a target without two tabs of one URL stays so.  Both groups get the
    time of the call. *)
Theorem moveTabBetweenGroups_moves now tabId fromGroupId toGroupId s data gf gt i tab :
  getStorageData now s = (Ok data, s) →
  fromGroupId ≠ toGroupId →
  findGroupById (groups data) fromGroupId = Some gf →
  findGroupById (groups data) toGroupId = Some gt →
  list_find (λ t, Tab.id t = tabId) (Group.tabs gf) = Some (i, tab) →
  ∃ s1 data1 gf1 gt1,
    moveTabBetweenGroups now tabId fromGroupId toGroupId s = (Ok tt, s1)
    ∧ getStorageData now s1 = (Ok data1, s1)
    ∧ findGroupById (groups data1) fromGroupId = Some gf1
    ∧ findGroupById (groups data1) toGroupId = Some gt1
    ∧ Group.tabs gf1 = delete i (Group.tabs gf)
    ∧ S (length (Group.tabs gf1)) = length (Group.tabs gf)
    ∧ Group.tabs gt1
      = match list_find (λ t, Tab.url t = Tab.url tab) (Group.tabs gt) with
        | Some (existingTabIndex, _) => delete existingTabIndex (Group.tabs gt)
        | None => Group.tabs gt
        end ++ [tab]
    ∧ last (Group.tabs gt1) = Some tab
    ∧ (∀ t, t ∈ Group.tabs gt → Tab.url t ≠ Tab.url tab → t ∈ Group.tabs gt1)
    ∧ (NoDup (Tab.url <$> Group.tabs gt) → NoDup (Tab.url <$> Group.tabs gt1))
    ∧ (Tab.url tab ∉ Tab.url <$> Group.tabs gt
       → Group.tabs gt1 = Group.tabs gt ++ [tab])
    ∧ Group.updatedAt gf1 = now
    ∧ Group.updatedAt gt1 = now.
Proof.
  intros Hread Hne Hfrom Hto Hfind.
  unfold moveTabBetweenGroups. rewrite bool_decide_eq_false_2 by done.
  rewrite (bind_getStorageData _ _ _ _ Hread), Hfrom, Hto, Hfind.
  destruct (target_tabs_kept tab (Group.tabs gt)) as (Hkept & Hnodup & Hfresh).
  eexists _, _, _, _. split; [reflexivity|]. split; [reflexivity|]. split.
  { simpl. rewrite modifyGroup_other by (done || congruence).
    by apply modifyGroup_found. }
  split.
  { simpl. apply modifyGroup_found; [|done].
    rewrite modifyGroup_other by (done || congruence). exact Hto. }
  simpl. split; [done|]. split.
  { apply list_find_Some in Hfind as (Hi & _).
    apply lookup_lt_Some in Hi. rewrite length_delete by (by apply lookup_lt_is_Some_2).
    lia. }
  split; [reflexivity|]. split; [apply last_snoc|]. split.
  { intros t Hin Hurl. rewrite elem_of_app. left. by apply Hkept. }
  split.
  { intros Hgt. destruct (Hnodup Hgt) as [Hkeep Habsent].
    rewrite fmap_app. apply NoDup_app. split; [done|]. split.
    - intros u Hu [->|[]%elem_of_nil]%elem_of_cons. done.
    - apply NoDup_singleton. }
  split; [|done].
  intros Habsent. by rewrite (Hfresh Habsent).
Qed.

Lemma moveTabBetweenGroups_moves_witness :
  ∃ s1 data1 gf1 gt1,
    moveTabBetweenGroups sampleNow (Tab.id tabA) "default" (Group.id sampleWork)
      sampleStore = (Ok tt, s1)
    ∧ getStorageData sampleNow s1 = (Ok data1, s1)
    ∧ findGroupById (groups data1) "default" = Some gf1
    ∧ findGroupById (groups data1) (Group.id sampleWork) = Some gt1
    ∧ Group.tabs gf1 = delete 0 (Group.tabs sampleDefault)
    ∧ S (length (Group.tabs gf1)) = length (Group.tabs sampleDefault)
    ∧ Group.tabs gt1
      = match list_find (λ t, Tab.url t = Tab.url tabA) (Group.tabs sampleWork) with
        | Some (existingTabIndex, _) => delete existingTabIndex (Group.tabs sampleWork)
        | None => Group.tabs sampleWork
        end ++ [tabA]
    ∧ last (Group.tabs gt1) = Some tabA
    ∧ (∀ t, t ∈ Group.tabs sampleWork → Tab.url t ≠ Tab.url tabA → t ∈ Group.tabs gt1)
    ∧ (NoDup (Tab.url <$> Group.tabs sampleWork) → NoDup (Tab.url <$> Group.tabs gt1))
    ∧ (Tab.url tabA ∉ Tab.url <$> Group.tabs sampleWork
       → Group.tabs gt1 = Group.tabs sampleWork ++ [tabA])
    ∧ Group.updatedAt gf1 = sampleNow
    ∧ Group.updatedAt gt1 = sampleNow.
Proof.
  apply (moveTabBetweenGroups_moves sampleNow (Tab.id tabA) "default"
           (Group.id sampleWork) sampleStore sampleData sampleDefault sampleWork
           0 tabA);
    [reflexivity | discriminate | reflexivity | reflexivity | reflexivity].
Defined.

(** [moveTabBetweenGroups] never writes when it does not move.  With the
    same id for source and target it returns at once, whatever the ids
    name.  Otherwise it looks for the source first, the target second and
    the tab last, and throws the not-found error of the first one that is
    missing; every error it throws is of that kind and leaves the store as
    it was. *)
Theorem moveTabBetweenGroups_refuses now tabId fromGroupId toGroupId s data :
  getStorageData now s = (Ok data, s) →
  (fromGroupId = toGroupId →
   moveTabBetweenGroups now tabId fromGroupId toGroupId s = (Ok tt, s))
  ∧ (fromGroupId ≠ toGroupId →
     (fromGroupId ∉ groupIds data →
      moveTabBetweenGroups now tabId fromGroupId toGroupId s
      = (Throw (SourceGroupNotFound fromGroupId), s))
     ∧ (fromGroupId ∈ groupIds data → toGroupId ∉ groupIds data →
        moveTabBetweenGroups now tabId fromGroupId toGroupId s
        = (Throw (TargetGroupNotFound toGroupId), s))
     ∧ (∀ gf, findGroupById (groups data) fromGroupId = Some gf →
              toGroupId ∈ groupIds data →
              tabId ∉ Tab.id <$> Group.tabs gf →
        moveTabBetweenGroups now tabId fromGroupId toGroupId s
        = (Throw (TabNotFoundInSource tabId), s)))
  ∧ (∀ e s1,
       moveTabBetweenGroups now tabId fromGroupId toGroupId s = (Throw e, s1) →
       classify e = NotFoundError ∧ s1 = s).
Proof.
  intros Hread. unfold moveTabBetweenGroups, groupIds. split; [|split].
  - intros Heq. by rewrite bool_decide_eq_true_2.
  - intros Hne. rewrite bool_decide_eq_false_2 by done.
    rewrite (bind_getStorageData _ _ _ _ Hread).
    rewrite <- !findGroupById_is_Some. split; [|split].
    + intros Hnone%eq_None_not_Some. by rewrite Hnone.
    + intros [gf ->] Hnone%eq_None_not_Some. by rewrite Hnone.
    + intros gf -> [gt ->]%findGroupById_is_Some Habsent.
      destruct (list_find _ (Group.tabs gf)) as [[j t]|] eqn:Hfind; [|done].
      apply list_find_Some in Hfind as (Hj & Hid & _).
      exfalso. apply Habsent. rewrite <- Hid. apply list_elem_of_fmap.
      exists t. split; [done|]. by apply list_elem_of_lookup_2 in Hj.
  - intros e s1. case_bool_decide; [intros [=]|].
    rewrite (bind_getStorageData _ _ _ _ Hread).
    destruct (findGroupById (groups data) fromGroupId) as [gf|];
      [|by intros [= <- <-]].
    destruct (findGroupById (groups data) toGroupId) as [gt|];
      [|by intros [= <- <-]].
    destruct (list_find _ (Group.tabs gf)) as [[j t]|];
      [intros [=] | by intros [= <- <-]].
Qed.

Lemma moveTabBetweenGroups_refuses_witness :
  (moveTabBetweenGroups sampleNow "tab_0" "group_0_missing" "group_0_missing"
     sampleStore = (Ok tt, sampleStore))
  ∧ (moveTabBetweenGroups sampleNow "tab_0" "group_0_missing" "default" sampleStore
     = (Throw (SourceGroupNotFound "group_0_missing"), sampleStore))
  ∧ (moveTabBetweenGroups sampleNow "tab_0" "default" "group_0_missing" sampleStore
     = (Throw (TargetGroupNotFound "group_0_missing"), sampleStore))
  ∧ (moveTabBetweenGroups sampleNow "tab_0" "default" (Group.id sampleWork) sampleStore
     = (Throw (TabNotFoundInSource "tab_0"), sampleStore)).
Proof.
  assert (getStorageData sampleNow sampleStore = (Ok sampleData, sampleStore)) as Hread
    by reflexivity.
  assert (("group_0_missing" : string) ∉ groupIds sampleData) as Hmissing.
  { unfold groupIds. simpl. rewrite !not_elem_of_cons.
    repeat split; [discriminate | discriminate | apply not_elem_of_nil]. }
  split; [|split; [|split]].
  - by apply (moveTabBetweenGroups_refuses sampleNow "tab_0" "group_0_missing"
                "group_0_missing" sampleStore sampleData Hread).
  - apply (moveTabBetweenGroups_refuses sampleNow "tab_0" "group_0_missing"
             "default" sampleStore sampleData Hread); [discriminate | exact Hmissing].
  - apply (moveTabBetweenGroups_refuses sampleNow "tab_0" "default"
             "group_0_missing" sampleStore sampleData Hread);
      [discriminate | left | exact Hmissing].
  - destruct (moveTabBetweenGroups_refuses sampleNow "tab_0" "default"
                (Group.id sampleWork) sampleStore sampleData Hread) as (_ & Hmove & _).
    destruct Hmove as (_ & _ & Htab); [discriminate|].
    apply (Htab sampleDefault); [reflexivity | right; left |].
    simpl. rewrite !not_elem_of_cons.
    repeat split; [discriminate | discriminate | apply not_elem_of_nil].
Defined.

(** ** [addTabsToGroup]: duplicates by URL *)

Lemma addTabsToGroup_stores now groupId tabs s data g :
  getStorageData now s = (Ok data, s) →
  findGroupById (groups data) groupId = Some g →
  ∃ data1,
    addTabsToGroup now groupId tabs s
    = (Ok tt, mkStore (Some data1) (oauthCodeVerifier s))
    ∧ findGroupById (groups data1) groupId
      = Some (Group.with_updatedAt now
                (Group.with_tabs
                   (Group.tabs g
                    ++ filter (λ t, Tab.url t ∉ Tab.url <$> Group.tabs g) tabs) g)).
Proof.
  intros Hread Hg. unfold addTabsToGroup.
  rewrite (bind_getStorageData _ _ _ _ Hread), Hg.
  eexists. split; [reflexivity|]. simpl.
  rewrite (modifyGroup_found _ _ _ g Hg) by done. do 4 f_equal.
  apply list_filter_iff. intros t. by rewrite elem_of_list_to_set.
Qed.

(** Adding the same tabs a second time adds nothing: after the first
    call the group has every URL of the batch, so the second call, at
    whatever time, returns and leaves the tabs of the group as the first
    call left them; it only stamps the group again. *)
Theorem addTabsToGroup_twice now1 now2 groupId tabs s data g :
  getStorageData now1 s = (Ok data, s) →
  findGroupById (groups data) groupId = Some g →
  ∃ s1 data1 g1 s2 data2,
    addTabsToGroup now1 groupId tabs s = (Ok tt, s1)
    ∧ getStorageData now2 s1 = (Ok data1, s1)
    ∧ findGroupById (groups data1) groupId = Some g1
    ∧ (∀ t, t ∈ tabs → Tab.url t ∈ Tab.url <$> Group.tabs g1)
    ∧ addTabsToGroup now2 groupId tabs s1 = (Ok tt, s2)
    ∧ getStorageData now2 s2 = (Ok data2, s2)
    ∧ findGroupById (groups data2) groupId = Some (Group.with_updatedAt now2 g1).
Proof.
  intros Hread Hg.
  destruct (addTabsToGroup_stores now1 groupId tabs s data g Hread Hg)
    as (data1 & Hrun1 & Hg1).
  set (s1 := mkStore (Some data1) (oauthCodeVerifier s)) in *.
  assert (getStorageData now2 s1 = (Ok data1, s1)) as Hread1 by reflexivity.
  destruct (addTabsToGroup_stores now2 groupId tabs s1 data1 _ Hread1 Hg1)
    as (data2 & Hrun2 & Hg2).
  assert (∀ t, t ∈ tabs →
            Tab.url t ∈ Tab.url <$> Group.tabs g
                                    ++ filter (λ t, Tab.url t ∉ Tab.url <$> Group.tabs g) tabs)
    as Hall.
  { intros t Hin. rewrite fmap_app, elem_of_app.
    destruct (decide (Tab.url t ∈ Tab.url <$> Group.tabs g)) as [?|Hnew]; [by left|].
    right. apply list_elem_of_fmap. exists t. split; [done|].
    by apply list_elem_of_filter. }
  set (tabs1 := Group.tabs g
                ++ filter (λ t, Tab.url t ∉ Tab.url <$> Group.tabs g) tabs) in *.
  eexists s1, data1, _, _, data2.
  split; [exact Hrun1|]. split; [exact Hread1|]. split; [exact Hg1|].
  split; [exact Hall|]. split; [exact Hrun2|]. split; [reflexivity|].
  rewrite Hg2. simpl. f_equal. unfold Group.with_updatedAt, Group.with_tabs. simpl.
  f_equal. rewrite (filter_none _ tabs); [apply app_nil_r|].
  intros t Hin Hnew. by apply Hnew, Hall.
Qed.

Lemma addTabsToGroup_twice_witness :
  ∃ s1 data1 g1 s2 data2,
    addTabsToGroup sampleNow "default" [tabA'; tabB] sampleStore = (Ok tt, s1)
    ∧ getStorageData (sampleNow + 1000) s1 = (Ok data1, s1)
    ∧ findGroupById (groups data1) "default" = Some g1
    ∧ (∀ t, t ∈ [tabA'; tabB] → Tab.url t ∈ Tab.url <$> Group.tabs g1)
    ∧ addTabsToGroup (sampleNow + 1000) "default" [tabA'; tabB] s1 = (Ok tt, s2)
    ∧ getStorageData (sampleNow + 1000) s2 = (Ok data2, s2)
    ∧ findGroupById (groups data2) "default"
      = Some (Group.with_updatedAt (sampleNow + 1000) g1).
Proof.
  apply (addTabsToGroup_twice sampleNow (sampleNow + 1000) "default" [tabA'; tabB]
           sampleStore sampleData sampleDefault); reflexivity.
Defined.

Lemma new_urls (old : list string) (tabs : list Tab.t) :
  Tab.url <$> filter (λ t, Tab.url t ∉ old) tabs
  = filter (λ u, u ∉ old) (Tab.url <$> tabs).
Proof.
  induction tabs as [|t tabs IH]; [done|].
  rewrite fmap_cons.
  destruct (decide (Tab.url t ∈ old)) as [Hold|Hnew].
  - rewrite !filter_cons_False by (intros Hnot; by apply Hnot). exact IH.
  - rewrite !filter_cons_True by done. rewrite fmap_cons. by rewrite IH.
Qed.

(** The URLs of a group after [addTabsToGroup] are the URLs it had,
    followed by the URLs of the batch that it did not have, in the order
    of the batch and as often as the batch repeats them: the batch is
    compared with the group, not with itself.  So the group ends without
    two tabs of one URL exactly when it began so and the new URLs of the
    batch are pairwise different. *)
Theorem addTabsToGroup_urls now groupId tabs s data g :
  getStorageData now s = (Ok data, s) →
  findGroupById (groups data) groupId = Some g →
  ∃ s1 data1 g1,
    addTabsToGroup now groupId tabs s = (Ok tt, s1)
    ∧ getStorageData now s1 = (Ok data1, s1)
    ∧ findGroupById (groups data1) groupId = Some g1
    ∧ Tab.url <$> Group.tabs g1
      = (Tab.url <$> Group.tabs g)
        ++ filter (λ u, u ∉ Tab.url <$> Group.tabs g) (Tab.url <$> tabs)
    ∧ (NoDup (Tab.url <$> Group.tabs g1)
       ↔ NoDup (Tab.url <$> Group.tabs g)
         ∧ NoDup (filter (λ u, u ∉ Tab.url <$> Group.tabs g) (Tab.url <$> tabs))).
Proof.
  intros Hread Hg.
  destruct (addTabsToGroup_stores now groupId tabs s data g Hread Hg)
    as (data1 & Hrun & Hg1).
  eexists _, data1, _. split; [exact Hrun|]. split; [reflexivity|].
  split; [exact Hg1|]. simpl.
  rewrite fmap_app, new_urls. split; [done|].
  rewrite NoDup_app. split.
  - intros (Hl & _ & Hr). done.
  - intros [Hl Hr]. split; [done|]. split; [|done].
    intros u Hu [Hnew _]%list_elem_of_filter. done.
Qed.

Lemma addTabsToGroup_urls_witness :
  ∃ s1 data1 g1,
    addTabsToGroup sampleNow (Group.id sampleWork) [tabA; tabA'] sampleStore = (Ok tt, s1)
    ∧ getStorageData sampleNow s1 = (Ok data1, s1)
    ∧ findGroupById (groups data1) (Group.id sampleWork) = Some g1
    ∧ Tab.url <$> Group.tabs g1
      = (Tab.url <$> Group.tabs sampleWork)
        ++ filter (λ u, u ∉ Tab.url <$> Group.tabs sampleWork)
             (Tab.url <$> [tabA; tabA'])
    ∧ (NoDup (Tab.url <$> Group.tabs g1)
       ↔ NoDup (Tab.url <$> Group.tabs sampleWork)
         ∧ NoDup (filter (λ u, u ∉ Tab.url <$> Group.tabs sampleWork)
                    (Tab.url <$> [tabA; tabA']))).
Proof.
  apply (addTabsToGroup_urls sampleNow (Group.id sampleWork) [tabA; tabA']
           sampleStore sampleData sampleWork); reflexivity.
Defined.

(** ** The operations on tabs stay inside their group *)

Ltac modified_group :=
  right; eexists; split; [reflexivity|]; split;
  [ unfold groupIds; simpl; by rewrite !modifyGroup_ids by done
  | split; [done|];
    intros id Hid; simpl; rewrite !not_elem_of_cons in Hid;
    by rewrite !modifyGroup_other by (done || tauto) ].

Lemma addTabsToGroup_touches now groupId tabs :
  touchesOnly now [groupId] (addTabsToGroup now groupId tabs).
Proof.
  intros s data Hread. unfold addTabsToGroup.
  rewrite (bind_getStorageData _ _ _ _ Hread).
  destruct (findGroupById (groups data) groupId); [modified_group | by left].
Qed.

Lemma removeTabFromGroup_touches now groupId tabId :
  touchesOnly now [groupId] (removeTabFromGroup now groupId tabId).
Proof.
  intros s data Hread. unfold removeTabFromGroup.
  rewrite (bind_getStorageData _ _ _ _ Hread).
  destruct (findGroupById (groups data) groupId); [modified_group | by left].
Qed.

Lemma reorderTabsInGroup_touches now groupId newOrder :
  touchesOnly now [groupId] (reorderTabsInGroup now groupId newOrder).
Proof.
  intros s data Hread. unfold reorderTabsInGroup.
  rewrite (bind_getStorageData _ _ _ _ Hread).
  destruct (findGroupById (groups data) groupId); [|by left].
  destruct (bool_decide (0 < length _)); [by left|].
  destruct (bool_decide (length newOrder ≠ _)); [by left|].
  destruct (getAll _ newOrder); [modified_group | by left].
Qed.

Lemma moveTabBetweenGroups_touches now tabId fromGroupId toGroupId :
  touchesOnly now [fromGroupId; toGroupId]
    (moveTabBetweenGroups now tabId fromGroupId toGroupId).
Proof.
  intros s data Hread. unfold moveTabBetweenGroups.
  destruct (bool_decide (fromGroupId = toGroupId)); [by left|].
  rewrite (bind_getStorageData _ _ _ _ Hread).
  destruct (findGroupById (groups data) fromGroupId); [|by left].
  destruct (findGroupById (groups data) toGroupId); [|by left].
  destruct (list_find _ _) as [[tabIndex tab]|]; [modified_group | by left].
Qed.

(** The operations on the tabs of a group write nothing or one document
    that has the same group ids in the same order and the same settings,
    and in which every group but the one addressed (for a move: the
    source and the target) is as it was. *)
Theorem tab_mutators_touch_their_group now :
  (∀ groupId tabs, touchesOnly now [groupId] (addTabsToGroup now groupId tabs))
  ∧ (∀ groupId tabId, touchesOnly now [groupId] (removeTabFromGroup now groupId tabId))
  ∧ (∀ groupId newOrder,
       touchesOnly now [groupId] (reorderTabsInGroup now groupId newOrder))
  ∧ (∀ tabId fromGroupId toGroupId,
       touchesOnly now [fromGroupId; toGroupId]
         (moveTabBetweenGroups now tabId fromGroupId toGroupId)).
Proof.
  split; [|split; [|split]]; intros.
  - apply addTabsToGroup_touches.
  - apply removeTabFromGroup_touches.
  - apply reorderTabsInGroup_touches.
  - apply moveTabBetweenGroups_touches.
Qed.

(** ** [reorderGroups] *)

Lemma reorderGroups_accepted now newOrder s data :
  getStorageData now s = (Ok data, s) →
  (∀ k, k ∈ newOrder → k ∈ groupIds data) →
  length newOrder = length (groups data) →
  ∃ s1 data1,
    reorderGroups now newOrder s = (Ok tt, s1)
    ∧ getStorageData now s1 = (Ok data1, s1)
    ∧ groupIds data1 = newOrder
    ∧ (∀ g, g ∈ groups data1 → g ∈ groups data)
    ∧ settings data1 = settings data
    ∧ (NoDup (groupIds data) → newOrder ≡ₚ groupIds data →
       groups data1 ≡ₚ groups data)
    ∧ (hasDefaultGroup data1 ↔ "default" ∈ newOrder).
Proof.
  intros Hread Hknown Hlength. unfold groupIds in *.
  destruct (getAll_newMap_defined Group.id (groups data) newOrder Hknown)
    as (out & Hout & Hids & Hsub).
  exists (saveStorageData (with_groups out data) s).2, (with_groups out data).
  split.
  { unfold reorderGroups. rewrite (bind_getStorageData _ _ _ _ Hread).
    rewrite (no_invalid_ids Group.id _ _ Hknown). simpl.
    rewrite bool_decide_eq_false_2 by (intros Hne; by apply Hne).
    by rewrite Hout. }
  split; [reflexivity|]. split; [exact Hids|]. split; [exact Hsub|].
  split; [reflexivity|]. split.
  - intros Hnodup Hperm. by apply (reordered_Permutation Group.id _ _ newOrder).
  - unfold hasDefaultGroup, groupIds. simpl. by rewrite Hids.
Qed.

(** [reorderGroups] accepts an order that names groups only and is as long
    as the list of groups.  The groups it stores are groups that were
    there, untouched, and their ids are the new order, in order; the
    settings stay.  For an order that is a permutation of pairwise
    different group ids the stored groups are a permutation of the old
    ones.  The default group is among them exactly when the order names
    it. *)
Theorem reorderGroups_accepts now newOrder s data :
  getStorageData now s = (Ok data, s) →
  (∀ k, k ∈ newOrder → k ∈ groupIds data) →
  length newOrder = length (groups data) →
  ∃ s1 data1,
    reorderGroups now newOrder s = (Ok tt, s1)
    ∧ getStorageData now s1 = (Ok data1, s1)
    ∧ groupIds data1 = newOrder
    ∧ (∀ g, g ∈ groups data1 → g ∈ groups data)
    ∧ settings data1 = settings data
    ∧ (NoDup (groupIds data) → newOrder ≡ₚ groupIds data →
       groups data1 ≡ₚ groups data)
    ∧ (hasDefaultGroup data1 ↔ "default" ∈ newOrder).
Proof. apply reorderGroups_accepted. Qed.

Lemma reorderGroups_accepts_witness :
  ∃ s1 data1,
    reorderGroups sampleNow [Group.id sampleWork; "default"] sampleStore = (Ok tt, s1)
    ∧ getStorageData sampleNow s1 = (Ok data1, s1)
    ∧ groupIds data1 = [Group.id sampleWork; "default"]
    ∧ (∀ g, g ∈ groups data1 → g ∈ groups sampleData)
    ∧ settings data1 = settings sampleData
    ∧ (NoDup (groupIds sampleData) →
       [Group.id sampleWork; "default"] ≡ₚ groupIds sampleData →
       groups data1 ≡ₚ groups sampleData)
    ∧ (hasDefaultGroup data1 ↔ "default" ∈ [Group.id sampleWork; "default"]).
Proof.
  apply (reorderGroups_accepts sampleNow [Group.id sampleWork; "default"]
           sampleStore sampleData); [reflexivity | | reflexivity].
  intros k Hk. unfold groupIds. simpl.
  apply elem_of_cons in Hk as [->|Hk]; [right; left|].
  apply elem_of_cons in Hk as [->|Hk]; [left|]. by apply elem_of_nil in Hk.
Defined.

(** ** The default group *)

Lemma keepsDefaultGroup_by_write {A} now (m : M Store A) :
  (∀ s data,
     getStorageData now s = (Ok data, s) → hasDefaultGroup data →
     (m s).2 = s
     ∨ ∃ data1, (m s).2 = (saveStorageData data1 s).2 ∧ hasDefaultGroup data1) →
  keepsDefaultGroup m.
Proof.
  intros Hm s Hs now1 data1 Hread1.
  destruct (getStorageData_total now s) as [data Hread].
  destruct (Hm s data Hread (Hs _ _ Hread)) as [Hsame|(d & Hwrite & Hd)].
  - rewrite Hsame in Hread1. by apply (Hs now1).
  - rewrite Hwrite in Hread1. unfold getStorageData, saveStorageData in Hread1.
    simpl in Hread1. by injection Hread1 as <-.
Qed.

Lemma touchesOnly_keepsDefaultGroup {A} now ids (m : M Store A) :
  touchesOnly now ids m → keepsDefaultGroup m.
Proof.
  intros Hm. apply (keepsDefaultGroup_by_write now). intros s data Hread Hdefault.
  destruct (Hm s data Hread) as [?|(data1 & Hwrite & Hids & _)]; [by left|].
  right. exists data1. split; [done|]. unfold hasDefaultGroup. by rewrite Hids.
Qed.

(** A store in which every read finds a default group stays so under
    [initStorage], [saveGroup], [deleteGroup], [createGroup],
    [saveSettings] and the operations on tabs, whether they return or
    throw.  [reorderGroups] is not among them: it accepts an order that
    names another group twice in the place of the default group. *)
Theorem default_group_kept now :
  keepsDefaultGroup (initStorage now)
  ∧ (∀ group, keepsDefaultGroup (saveGroup now group))
  ∧ (∀ groupId, keepsDefaultGroup (deleteGroup now groupId))
  ∧ (∀ random name description,
       keepsDefaultGroup (createGroup now random name description))
  ∧ (∀ newSettings, keepsDefaultGroup (saveSettings now newSettings))
  ∧ (∀ groupId tabs, keepsDefaultGroup (addTabsToGroup now groupId tabs))
  ∧ (∀ groupId tabId, keepsDefaultGroup (removeTabFromGroup now groupId tabId))
  ∧ (∀ groupId newOrder, keepsDefaultGroup (reorderTabsInGroup now groupId newOrder))
  ∧ (∀ tabId fromGroupId toGroupId,
       keepsDefaultGroup (moveTabBetweenGroups now tabId fromGroupId toGroupId))
  ∧ ¬ (∀ newOrder, keepsDefaultGroup (reorderGroups now newOrder)).
Proof.
  split; [|split; [|split; [|split; [|split; [|split; [|split; [|split; [|split]]]]]]]].
  - apply (keepsDefaultGroup_by_write now). intros s data Hread Hdefault.
    unfold initStorage. rewrite (bind_getStorageData _ _ _ _ Hread).
    destruct (negb _); [|by left].
    right. eexists. split; [reflexivity|].
    unfold hasDefaultGroup, groupIds. simpl. left.
  - intros group. apply (keepsDefaultGroup_by_write now). intros s data Hread Hdefault.
    destruct (saveGroup_placed (Group.with_updatedAt now group) (groups data))
      as (_ & _ & Hids).
    unfold saveGroup. rewrite (bind_getStorageData _ _ _ _ Hread).
    change (Group.id (Group.with_updatedAt now group)) with (Group.id group) in *.
    right.
    destruct (list_find _ (groups data)) as [[index y]|];
      (eexists; split; [reflexivity|]);
      unfold hasDefaultGroup, groupIds in *; simpl; rewrite Hids;
      destruct (bool_decide _); try done; apply elem_of_app; by left.
  - intros groupId. apply (keepsDefaultGroup_by_write now). intros s data Hread Hdefault.
    unfold deleteGroup. rewrite (bind_getStorageData _ _ _ _ Hread).
    case_bool_decide as Hid; [by left|].
    right. eexists. split; [reflexivity|].
    unfold hasDefaultGroup, groupIds in *. simpl.
    apply list_elem_of_fmap in Hdefault as (g & Hg & Hin).
    apply list_elem_of_fmap. exists g. split; [done|].
    apply list_elem_of_In, filter_In. split; [by apply list_elem_of_In|].
    rewrite bool_decide_eq_false_2; [done | congruence].
  - intros random name description.
    apply (keepsDefaultGroup_by_write now). intros s data Hread Hdefault.
    unfold createGroup. destruct (_ || _); [by left|].
    rewrite (bind_getStorageData _ _ _ _ Hread).
    destruct (find _ (groups data)); [by left|].
    right. eexists. split; [reflexivity|].
    unfold hasDefaultGroup, groupIds in *. simpl.
    rewrite fmap_app, elem_of_app. by left.
  - intros newSettings. apply (keepsDefaultGroup_by_write now).
    intros s data Hread Hdefault.
    unfold saveSettings. rewrite (bind_getStorageData _ _ _ _ Hread).
    right. eexists. split; [reflexivity|]. done.
  - intros groupId tabs.
    eapply touchesOnly_keepsDefaultGroup, addTabsToGroup_touches.
  - intros groupId tabId.
    eapply touchesOnly_keepsDefaultGroup, removeTabFromGroup_touches.
  - intros groupId newOrder.
    eapply touchesOnly_keepsDefaultGroup, reorderTabsInGroup_touches.
  - intros tabId fromGroupId toGroupId.
    eapply touchesOnly_keepsDefaultGroup, moveTabBetweenGroups_touches.
  - intros Hkeeps.
    assert (defaultGroupInStore sampleStore) as Hbefore.
    { intros now1 data [= <-]. unfold hasDefaultGroup, groupIds. simpl. left. }
    pose proof (Hkeeps [Group.id sampleWork; Group.id sampleWork] sampleStore Hbefore
                  now (mkStorageData [sampleWork; sampleWork] sampleSettings)) as Hafter.
    unfold hasDefaultGroup, groupIds in Hafter. simpl in Hafter.
    rewrite !elem_of_cons, elem_of_nil in Hafter.
    assert (("default" : string) ≠ "group_1700000001000_k3x9q2a") as Hne by discriminate.
    destruct Hafter as [?|[?|[]]]; [|done|done].
    vm_compute. reflexivity.
Qed.

(** ** [trim] *)

Lemma append_cons (a : ascii) (s t : string) :
  String a s +:+ t = String a (s +:+ t).
Proof. reflexivity. Qed.

Lemma append_empty_l (s : string) : "" +:+ s = s.
Proof. reflexivity. Qed.

Lemma append_assoc (s t u : string) : (s +:+ t) +:+ u = s +:+ t +:+ u.
Proof. induction s as [|a s IH]; [done | by rewrite !append_cons, IH]. Qed.

Lemma append_empty_r (s : string) : s +:+ "" = s.
Proof. induction s as [|a s IH]; [done | by rewrite append_cons, IH]. Qed.

Lemma rev_app_append (s t : string) : String.rev_app s t = String.rev s +:+ t.
Proof.
  unfold String.rev. revert t.
  induction s as [|a s IH]; intros t; cbn [String.rev_app]; [done|].
  rewrite (IH (String a t)), (IH (String a "")). by rewrite append_assoc.
Qed.

Lemma rev_cons (a : ascii) (s : string) :
  String.rev (String a s) = String.rev s +:+ String a "".
Proof. unfold String.rev at 1. simpl. apply rev_app_append. Qed.

Lemma rev_append (s t : string) :
  String.rev (s +:+ t) = String.rev t +:+ String.rev s.
Proof.
  induction s as [|a s IH].
  - by rewrite append_empty_r.
  - by rewrite append_cons, !rev_cons, IH, append_assoc.
Qed.

Lemma rev_involutive (s : string) : String.rev (String.rev s) = s.
Proof.
  induction s as [|a s IH]; [done|].
  by rewrite rev_cons, rev_append, IH.
Qed.

Lemma allWhiteSpace_append (s t : string) :
  allWhiteSpace (s +:+ t) = allWhiteSpace s && allWhiteSpace t.
Proof.
  induction s as [|a s IH]; [done|].
  rewrite append_cons. simpl. by rewrite IH, andb_assoc.
Qed.

Lemma allWhiteSpace_rev (s : string) : allWhiteSpace (String.rev s) = allWhiteSpace s.
Proof.
  induction s as [|a s IH]; [done|].
  rewrite rev_cons, allWhiteSpace_append, IH. simpl.
  by rewrite andb_true_r, andb_comm.
Qed.

Lemma trimStart_allWhiteSpace (s : string) :
  allWhiteSpace s = true → trimStart s = "".
Proof.
  induction s as [|a s IH]; simpl; [done|].
  intros [-> Hs]%andb_true_iff. by apply IH.
Qed.

Lemma trimStart_append (s t : string) :
  trimStart (s +:+ t)
  = if allWhiteSpace s then trimStart t else trimStart s +:+ t.
Proof.
  induction s as [|a s IH]; [done|].
  rewrite append_cons. simpl.
  destruct (isWhiteSpace a); simpl; [exact IH | done].
Qed.

(** [trimEnd] read from the front: the string ends where only white space
    follows. *)
Lemma trimEnd_cons (a : ascii) (s : string) :
  trimEnd (String a s)
  = if isWhiteSpace a && allWhiteSpace s then "" else String a (trimEnd s).
Proof.
  unfold trimEnd. rewrite rev_cons, trimStart_append, allWhiteSpace_rev.
  destruct (allWhiteSpace s) eqn:Hs.
  - rewrite andb_true_r. simpl.
    rewrite (trimStart_allWhiteSpace (String.rev s)) by by rewrite allWhiteSpace_rev.
    by destruct (isWhiteSpace a).
  - rewrite andb_false_r. by rewrite rev_append.
Qed.

Lemma allWhiteSpace_trimEnd (s : string) :
  allWhiteSpace (trimEnd s) = allWhiteSpace s.
Proof.
  induction s as [|a s IH]; [done|].
  rewrite trimEnd_cons. simpl.
  destruct (isWhiteSpace a && allWhiteSpace s) eqn:Hs; [done|].
  simpl. by rewrite IH.
Qed.

Lemma trimEnd_idempotent (s : string) : trimEnd (trimEnd s) = trimEnd s.
Proof.
  induction s as [|a s IH]; [done|].
  rewrite trimEnd_cons.
  destruct (isWhiteSpace a && allWhiteSpace s) eqn:Hs; [done|].
  by rewrite trimEnd_cons, allWhiteSpace_trimEnd, Hs, IH.
Qed.

Lemma trimStart_head (s : string) :
  trimStart s = ""
  ∨ ∃ a s', trimStart s = String a s' ∧ isWhiteSpace a = false.
Proof.
  induction s as [|a s IH]; simpl; [by left|].
  destruct (isWhiteSpace a) eqn:Ha; [done | right; eauto].
Qed.

Lemma trimStart_trim (s : string) : trimStart (trim s) = trim s.
Proof.
  unfold trim. destruct (trimStart_head s) as [->|(a & s' & -> & Ha)]; [done|].
  rewrite trimEnd_cons, Ha. simpl. by rewrite Ha.
Qed.

Lemma trim_idempotent (s : string) : trim (trim s) = trim s.
Proof.
  unfold trim at 1. rewrite trimStart_trim. unfold trim. apply trimEnd_idempotent.
Qed.


(** ** [createGroup] *)



(** * Further properties of the auth session *)

(** ** [signOut] *)

(** [signOut] always returns.  It leaves the process signed out, tells the
    listeners once, and stores the document it read with the token taken
    out of the settings and nothing else changed; on a store without a
    document that is the first write of one.  A second [signOut] changes
    nothing in the store or the session and tells the listeners again. *)
Theorem signOut_clears_token env w :
  ∃ data data1 w1,
    getStorageData (now env) (store w) = (Ok data, store w)
    ∧ signOut env w = (Ok tt, w1)
    ∧ w1 = mkWorld (mkStore (Some data1) (oauthCodeVerifier (store w))) signedOut
             (events w ++ [Notified signedOut])
    ∧ groups data1 = groups data
    ∧ settings data1
      = Settings.mk (Settings.closeAndSave (settings data)) None
          (Settings.gistId (settings data)) (Settings.githubClientId (settings data))
          (Settings.githubClientSecret (settings data))
    ∧ signOut env w1
      = (Ok tt, mkWorld (store w1) signedOut (events w1 ++ [Notified signedOut])).
Proof.
  destruct w as [st a ev]. destruct (getStorageData_total (now env) st) as [data Hread].
  exists data. eexists _, _. split; [exact Hread|]. split.
  { unfold signOut, liftStore, getSettings, saveSettings, markUserAsSignedOut,
      notifyListeners, setAuth, getAuth, emit, bind, ret; simpl.
    rewrite Hread; simpl. rewrite Hread; simpl. reflexivity. }
  split; [reflexivity|]. split; [reflexivity|]. split.
  { destruct data as [gs [c t g i k]]. simpl.
    by destruct g, i, k. }
  destruct data as [gs [c t g i k]]. by destruct g, i, k.
Qed.

(** ** The options page after a sign-out *)

(** The options page does not load its settings again after a sign-out.
    The object it holds still has the token, and [saveSettings] takes
    every key of its argument: the next change of the close-and-save
    switch, or of the gist id, puts the token back into the store, while
    the session stays signed out. *)
Theorem page_copy_restores_token env w page token checked gistIdInput :
  OptionsPage.loadSettings (now env) (store w) = (Ok page, store w) →
  storedToken (now env) (store w) = Ok (Some token) →
  ∃ w1,
    signOut env w = (Ok tt, w1)
    ∧ auth w1 = signedOut
    ∧ storedToken (now env) (store w1) = Ok None
    ∧ (∃ page2 w2,
         liftStore (OptionsPage.handleCloseAndSaveChange (now env) page checked) w1
         = (Ok page2, w2)
         ∧ storedToken (now env) (store w2) = Ok (Some token)
         ∧ auth w2 = signedOut)
    ∧ (∃ page2 w2,
         liftStore (OptionsPage.handleSaveGistId (now env) page gistIdInput) w1
         = (Ok page2, w2)
         ∧ storedToken (now env) (store w2) = Ok (Some token)
         ∧ auth w2 = signedOut).
Proof.
  destruct w as [st a ev]. destruct (getStorageData_total (now env) st) as [data Hread].
  unfold OptionsPage.loadSettings, storedToken, getSettings, bind, ret. simpl.
  rewrite Hread. simpl. intros [= <-] [= Htoken].
  eexists. split.
  { unfold signOut, liftStore, getSettings, saveSettings, markUserAsSignedOut,
      notifyListeners, setAuth, getAuth, emit, bind, ret; simpl.
    rewrite Hread; simpl. rewrite Hread; simpl. reflexivity. }
  split; [reflexivity|]. split; [reflexivity|].
  split; eexists _, _; (split; [reflexivity|]); simpl; by rewrite Htoken.
Qed.

Lemma page_copy_restores_token_witness :
  ∃ w1,
    signOut sampleEnv freshWorld = (Ok tt, w1)
    ∧ auth w1 = signedOut
    ∧ storedToken (now sampleEnv) (store w1) = Ok None
    ∧ (∃ page2 w2,
         liftStore
           (OptionsPage.handleCloseAndSaveChange (now sampleEnv)
              (SettingsArg.spread sampleSettings) false) w1
         = (Ok page2, w2)
         ∧ storedToken (now sampleEnv) (store w2) = Ok (Some "gho_token")
         ∧ auth w2 = signedOut)
    ∧ (∃ page2 w2,
         liftStore
           (OptionsPage.handleSaveGistId (now sampleEnv)
              (SettingsArg.spread sampleSettings) " 0d9f8e7c6b5a ") w1
         = (Ok page2, w2)
         ∧ storedToken (now sampleEnv) (store w2) = Ok (Some "gho_token")
         ∧ auth w2 = signedOut).
Proof.
  apply (page_copy_restores_token sampleEnv freshWorld
           (SettingsArg.spread sampleSettings) "gho_token" false " 0d9f8e7c6b5a ");
    reflexivity.
Defined.

(** ** [authenticateWithGitHub] *)

Lemma authenticateWithGitHub_cases env clientId clientSecret w :
  (∃ e posted,
     authenticateWithGitHub env clientId clientSecret w
     = (Throw e,
        mkWorld (mkStore (tabManagerData (store w)) (Some (codeVerifier env)))
          (auth w) (events w ++ LaunchedWebAuthFlow clientId :: posted))
     ∧ (classify e = AuthError ∨ e = NetworkError)
     ∧ (posted = [] ∨ ∃ code, posted = [PostedTokenExchange code]))
  ∨ (∃ accessToken url code tokenData,
       authenticateWithGitHub env clientId clientSecret w
       = (Ok accessToken,
          mkWorld (mkStore (tabManagerData (store w)) None)
            (auth w)
            (events w ++ [LaunchedWebAuthFlow clientId; PostedTokenExchange code]))
       ∧ accessToken ≠ ""
       ∧ lastError env = None
       ∧ callbackUrl env = Some url
       ∧ searchParams_get url "code" = Some code
       ∧ tokenEndpoint env code = Body tokenData
       ∧ access_token tokenData = Some accessToken).
Proof.
  destruct w as [st a ev].
  unfold authenticateWithGitHub, liftStore, emit, bind, throw, ret; simpl.
  destruct (lastError env) as [message|] eqn:Hlast; simpl.
  { left. eexists _, []. split; [reflexivity|]. split; [by left | by left]. }
  destruct (callbackUrl env) as [url|] eqn:Hurl; simpl;
    [|left; eexists _, []; split; [reflexivity|]; split; by left].
  destruct (truthy (searchParams_get url "error")) eqn:Herror; simpl.
  { case_bool_decide; left; eexists _, []; (split; [reflexivity|]); split; by left. }
  destruct (searchParams_get url "code") as [code|] eqn:Hcode; simpl;
    [|left; eexists _, []; split; [reflexivity|]; split; by left].
  case_bool_decide as Hempty; simpl;
    [left; eexists _, []; split; [reflexivity|]; split; by left|].
  case_bool_decide as Hverifier; simpl;
    [left; eexists _, []; split; [reflexivity|]; split; by left|].
  rewrite <- !app_assoc. simpl.
  destruct (tokenEndpoint env code) as [|status|tokenData] eqn:Htoken; simpl.
  - left. eexists _, [_]. split; [reflexivity|]. split; [by right | right; eauto].
  - left. eexists _, [_]. split; [reflexivity|]. split; [by left | right; eauto].
  - destruct (truthy (td_error tokenData)); simpl.
    { left. eexists _, [_]. split; [reflexivity|]. split; [by left | right; eauto]. }
    destruct (access_token tokenData) as [accessToken|] eqn:Haccess; simpl.
    + case_bool_decide as Htok; simpl.
      * left. eexists _, [_]. split; [reflexivity|]. split; [by left | right; eauto].
      * right. exists accessToken, url, code, tokenData. done.
    + left. eexists _, [_]. split; [reflexivity|]. split; [by left | right; eauto].
Qed.

(** [authenticateWithGitHub] launches the interactive flow once, whatever
    happens then, and never touches the stored document or the session.
    When it fails the error is an authorization error or the rejection of
    the token request, the code verifier stays in the store, and the
    token endpoint was asked at most once; when it returns, the token is
    the non-empty [access_token] that the token endpoint gave for the code
    of the callback, and the code verifier is removed. *)
Theorem authenticateWithGitHub_outcomes env clientId clientSecret w :
  let r := (authenticateWithGitHub env clientId clientSecret w).1 in
  let w1 := (authenticateWithGitHub env clientId clientSecret w).2 in
  tabManagerData (store w1) = tabManagerData (store w)
  ∧ auth w1 = auth w
  ∧ (∃ posted,
       events w1 = events w ++ LaunchedWebAuthFlow clientId :: posted
       ∧ (posted = [] ∨ ∃ code, posted = [PostedTokenExchange code]))
  ∧ match r with
    | Throw e =>
        (classify e = AuthError ∨ e = NetworkError)
        ∧ oauthCodeVerifier (store w1) = Some (codeVerifier env)
    | Ok accessToken =>
        accessToken ≠ ""
        ∧ oauthCodeVerifier (store w1) = None
        ∧ ∃ url code tokenData,
            callbackUrl env = Some url
            ∧ searchParams_get url "code" = Some code
            ∧ tokenEndpoint env code = Body tokenData
            ∧ access_token tokenData = Some accessToken
            ∧ events w1
              = events w ++ [LaunchedWebAuthFlow clientId; PostedTokenExchange code]
    end.
Proof.
  cbn zeta.
  destruct (authenticateWithGitHub_cases env clientId clientSecret w)
    as [(e & posted & -> & He & Hposted)
       |(accessToken & url & code & tokenData & -> & Hne & _ & Hurl & Hcode & Htok & Hacc)];
    simpl.
  - split; [done|]. split; [done|]. split; [eauto|]. done.
  - split; [done|]. split; [done|]. split; [eauto|].
    split; [done|]. split; [done|]. exists url, code, tokenData. done.
Qed.

(** ** [signIn] *)

Lemma getUserInfo_run env token w :
  getUserInfo env token w
  = (match userEndpoint env token with
     | Rejected => Throw NetworkError
     | Status status => Throw (HttpError "getUserInfo" status)
     | Body user => Ok user
     end,
     mkWorld (store w) (auth w) (events w ++ [FetchedUser token])).
Proof.
  unfold getUserInfo, emit, bind, throw, ret; simpl.
  by destruct (userEndpoint env token).
Qed.

Lemma getStorageData_same_document n s s' data :
  tabManagerData s = tabManagerData s' →
  getStorageData n s = (Ok data, s) → getStorageData n s' = (Ok data, s').
Proof.
  unfold getStorageData. intros <-. destruct (tabManagerData s); by intros [= <-].
Qed.

Lemma getGroups_read n s data :
  getStorageData n s = (Ok data, s) → (getGroups n s).1 = Ok (groups data).
Proof. intros Hread. unfold getGroups. by rewrite (bind_getStorageData _ _ _ _ Hread). Qed.

Lemma storedToken_read n s data :
  getStorageData n s = (Ok data, s) →
  storedToken n s = Ok (Settings.oauthToken (settings data)).
Proof.
  intros Hread. unfold storedToken, getSettings, bind, ret. by rewrite Hread.
Qed.

Lemma markUserAsSignedIn_run env newToken newUserInfo refreshUI w data :
  getStorageData (now env) (store w) = (Ok data, store w) →
  let state :=
    AuthState.mk true (UserInfo.login newUserInfo) (Some newUserInfo) (Some newToken) in
  markUserAsSignedIn env newToken newUserInfo refreshUI w
  = (Ok tt,
     mkWorld
       (if bool_decide (Settings.oauthToken (settings data) = Some newToken)
        then store w
        else mkStore
               (Some (with_settings
                        (SettingsArg.merge (settings data)
                           (SettingsArg.with_oauthToken (Some newToken)
                              (SettingsArg.spread (settings data))))
                        data))
               (oauthCodeVerifier (store w)))
       state
       (if refreshUI then events w ++ [Notified state] else events w)).
Proof.
  intros Hread. destruct w as [st a ev]. simpl in *.
  unfold markUserAsSignedIn, liftStore, getSettings, saveSettings, notifyListeners,
    setAuth, getAuth, emit, bind, ret; simpl.
  rewrite Hread; simpl.
  case_bool_decide; simpl; [by destruct refreshUI|].
  rewrite Hread; simpl. by destruct refreshUI.
Qed.

Lemma signIn_cases env w :
  let r := (signIn env w).1 in
  let w1 := (signIn env w).2 in
  match r with
  | Throw e =>
      auth w1 = auth w
      ∧ tabManagerData (store w1) = tabManagerData (store w)
      ∧ (∃ new, events w1 = events w ++ new ∧ ∀ state, Notified state ∉ new)
      ∧ (classify e = ConfigError ∨ classify e = AuthError ∨ classify e = RemoteError)
      ∧ (classify e = ConfigError → w1 = w)
  | Ok success =>
      success = true
      ∧ ∃ accessToken user,
          accessToken ≠ ""
          ∧ userEndpoint env accessToken = Body user
          ∧ auth w1
            = AuthState.mk true (UserInfo.login user) (Some user) (Some accessToken)
          ∧ storedToken (now env) (store w1) = Ok (Some accessToken)
          ∧ (getGroups (now env) (store w1)).1 = (getGroups (now env) (store w)).1
          ∧ oauthCodeVerifier (store w1) = None
          ∧ ∃ clientId code,
              events w1
              = events w ++ [LaunchedWebAuthFlow clientId; PostedTokenExchange code;
                             FetchedUser accessToken; Notified (auth w1)]
  end.
Proof.
  cbn zeta. unfold signIn.
  destruct (liftStore_getSettings (now env) w) as (settings & Hsettings & _).
  rewrite (bind_run _ _ _ _ _ Hsettings).
  destruct (truthy (Settings.githubClientId settings)); simpl.
  2:{ split; [done|]. split; [done|]. split; [|split; [by left | done]].
      exists []. split; [by rewrite app_nil_r | intros state []%elem_of_nil]. }
  destruct (truthy (Settings.githubClientSecret settings)); simpl.
  2:{ split; [done|]. split; [done|]. split; [|split; [by left | done]].
      exists []. split; [by rewrite app_nil_r | intros state []%elem_of_nil]. }
  set (clientId := default "" (Settings.githubClientId settings)).
  destruct (authenticateWithGitHub_cases env clientId
              (Settings.githubClientSecret settings) w)
    as [(e & posted & Hauth & He & Hposted)
       |(accessToken & url & code & tokenData & Hauth & Hne & _)].
  - erewrite try_catch_throw; [|by erewrite bind_throw]. simpl.
    split; [done|]. split; [done|]. split.
    + eexists. split; [reflexivity|]. intros state.
      destruct Hposted as [->|[code ->]]; rewrite !elem_of_cons, elem_of_nil;
        intros Hin; repeat destruct Hin as [Hin|Hin]; done.
    + split; [|destruct He as [He| ->]; rewrite ?He; done].
      destruct He as [->| ->]; auto.
  - set (w2 := mkWorld (mkStore (tabManagerData (store w)) None) (auth w)
                 (events w
                  ++ [LaunchedWebAuthFlow clientId; PostedTokenExchange code])) in *.
    pose proof (getUserInfo_run env accessToken w2) as Huser.
    destruct (userEndpoint env accessToken) as [|status|user] eqn:Hendpoint.
    + erewrite try_catch_throw;
        [|erewrite bind_run; [|exact Hauth]; by erewrite bind_throw].
      simpl. split; [done|]. split; [done|]. split; [|split; [auto | done]].
      eexists. split; [by rewrite <- app_assoc|]. intros state. simpl.
      rewrite !elem_of_cons, elem_of_nil.
      intros Hin; repeat destruct Hin as [Hin|Hin]; done.
    + erewrite try_catch_throw;
        [|erewrite bind_run; [|exact Hauth]; by erewrite bind_throw].
      simpl. split; [done|]. split; [done|]. split; [|split; [auto | done]].
      eexists. split; [by rewrite <- app_assoc|]. intros state. simpl.
      rewrite !elem_of_cons, elem_of_nil.
      intros Hin; repeat destruct Hin as [Hin|Hin]; done.
    + set (w3 := mkWorld (store w2) (auth w2) (events w2 ++ [FetchedUser accessToken]))
        in *.
      destruct (getStorageData_total (now env) (store w3)) as [data Hread].
      pose proof (markUserAsSignedIn_run env accessToken user true w3 data Hread)
        as Hmark. cbn zeta in Hmark.
      erewrite try_catch_run;
        [|erewrite bind_run; [|exact Hauth];
          erewrite bind_run; [|exact Huser];
          erewrite bind_run; [|exact Hmark]; reflexivity].
      assert (getStorageData (now env) (store w) = (Ok data, store w)) as Hread0.
      { by apply (getStorageData_same_document _ (store w3)). }
      cbn [fst snd]. split; [done|]. exists accessToken, user.
      split; [done|]. split; [done|]. split; [done|].
      rewrite (getGroups_read _ _ _ Hread0).
      case_bool_decide as Hsame; cbn [store events auth].
      * rewrite (storedToken_read _ _ _ Hread), (getGroups_read _ _ _ Hread), Hsame.
        repeat (split; [done|]). exists clientId, code.
        unfold w3, w2. simpl. by rewrite <- !app_assoc.
      * repeat (split; [done|]). exists clientId, code.
        unfold w3, w2. simpl. by rewrite <- !app_assoc.
Qed.

(** [signIn] returns [true] or throws; it never returns [false].
    When it throws, the session and the stored document are what they
    were and no listener was told; for a missing client id or secret
    nothing at all has happened, not even the launch of the flow.
    When it returns, the process is signed in with a non-empty token and
    the user that the user endpoint gave for it, the token is in the
    stored settings, the groups are as they were, the code verifier is
    gone, and what has happened is, in this order: the launch of the
    flow, the exchange of the code, the request for the user, the word to
    the listeners. *)
Theorem signIn_outcomes env w :
  let r := (signIn env w).1 in
  let w1 := (signIn env w).2 in
  match r with
  | Throw e =>
      auth w1 = auth w
      ∧ tabManagerData (store w1) = tabManagerData (store w)
      ∧ (∃ new, events w1 = events w ++ new ∧ ∀ state, Notified state ∉ new)
      ∧ (classify e = ConfigError ∨ classify e = AuthError ∨ classify e = RemoteError)
      ∧ (classify e = ConfigError → w1 = w)
  | Ok success =>
      success = true
      ∧ ∃ accessToken user,
          accessToken ≠ ""
          ∧ userEndpoint env accessToken = Body user
          ∧ auth w1
            = AuthState.mk true (UserInfo.login user) (Some user) (Some accessToken)
          ∧ storedToken (now env) (store w1) = Ok (Some accessToken)
          ∧ (getGroups (now env) (store w1)).1 = (getGroups (now env) (store w)).1
          ∧ oauthCodeVerifier (store w1) = None
          ∧ ∃ clientId code,
              events w1
              = events w ++ [LaunchedWebAuthFlow clientId; PostedTokenExchange code;
                             FetchedUser accessToken; Notified (auth w1)]
  end.
Proof. apply signIn_cases. Qed.

(** ** [attemptSilentSignin] *)

Lemma signOutIfSignedIn_run w :
  signOutIfSignedIn w
  = (Ok tt,
     if AuthState.isSignedIn (auth w)
     then mkWorld (store w) signedOut (events w ++ [Notified signedOut])
     else w).
Proof.
  destruct w as [st a ev]. unfold signOutIfSignedIn, getAuth, bind. simpl.
  by destruct (AuthState.isSignedIn a).
Qed.

(** The silent sign-in never throws, never launches the interactive flow
    and never writes to the store: a stored token that the user endpoint
    refuses stays stored.  Without a stored token, or with one that is
    refused, a signed-in session is signed out (and the listeners are
    told) and a signed-out one is left alone.  A session that is signed in
    with the stored token is left alone without a request.  Otherwise a
    stored token that the user endpoint accepts signs the session in as
    the user of that token, after two requests to the user endpoint, and
    the listeners are told when [refreshUI] says so. *)
Theorem attemptSilentSignin_outcomes env refreshUI w :
  ∃ settings w1,
    (getSettings (now env) (store w)).1 = Ok settings
    ∧ attemptSilentSignin env refreshUI w = (Ok tt, w1)
    ∧ store w1 = store w
    ∧ noInteractiveFlow w w1
    ∧ let stored := Settings.oauthToken settings in
      let signedOutAfter requests :=
        if AuthState.isSignedIn (auth w)
        then mkWorld (store w) signedOut (events w ++ requests ++ [Notified signedOut])
        else mkWorld (store w) (auth w) (events w ++ requests) in
      (truthy stored = false → w1 = signedOutAfter [])
      ∧ (truthy stored = true →
         AuthState.isSignedIn (auth w) = true → AuthState.token (auth w) = stored →
         w1 = w)
      ∧ (∀ token, stored = Some token → token ≠ "" →
           ¬ (AuthState.isSignedIn (auth w) = true ∧ AuthState.token (auth w) = stored) →
           if remotelyValid env token
           then ∃ user,
                  let state :=
                    AuthState.mk true (UserInfo.login user) (Some user) (Some token) in
                  userEndpoint env token = Body user
                  ∧ w1 = mkWorld (store w) state
                           (events w ++ [FetchedUser token; FetchedUser token]
                            ++ if refreshUI then [Notified state] else [])
           else w1 = signedOutAfter [FetchedUser token]).
Proof.
  destruct (liftStore_getSettings (now env) w) as (cfg & Hsettings & Hget).
  exists cfg. unfold attemptSilentSignin. rewrite (bind_run _ _ _ _ _ Hsettings).
  destruct (truthy (Settings.oauthToken cfg)) eqn:Htruthy; simpl.
  2:{ rewrite signOutIfSignedIn_run. eexists. split; [done|]. split; [reflexivity|].
      split; [by destruct (AuthState.isSignedIn (auth w))|]. split.
      { destruct (AuthState.isSignedIn (auth w)); eexists; simpl.
        - split; [reflexivity|]. intros c [[=]|[]%elem_of_nil]%elem_of_cons.
        - split; [by rewrite app_nil_r|]. intros c []%elem_of_nil. }
      split; [|split].
      - intros _. destruct w as [st a ev]. simpl.
        destruct (AuthState.isSignedIn a); [done | by rewrite app_nil_r].
      - done.
      - intros token Hstored Hne. rewrite Hstored in Htruthy. simpl in Htruthy.
        by rewrite bool_decide_eq_false_2 in Htruthy. }
  destruct (Settings.oauthToken cfg) as [token|] eqn:Hstored; [|done].
  simpl in Htruthy. apply negb_true_iff, bool_decide_eq_false in Htruthy.
  unfold getAuth at 1. unfold bind at 1. simpl.
  destruct (AuthState.isSignedIn (auth w)
            && bool_decide (AuthState.token (auth w) = Some token)) eqn:Hsame.
  { apply andb_true_iff in Hsame as [Hin Htok%bool_decide_eq_true].
    exists w. split; [done|]. split; [done|]. split; [done|]. split.
    { exists []. split; [by rewrite app_nil_r | intros c []%elem_of_nil]. }
    split; [done|]. split; [done|].
    intros token' [= <-] _ Hnot. exfalso. by apply Hnot. }
  assert (¬ (AuthState.isSignedIn (auth w) = true ∧ AuthState.token (auth w) = Some token))
    as Hdiffer.
  { intros [Hin Htok]. by rewrite Hin, Htok, bool_decide_eq_true_2 in Hsame. }
  pose proof (testGitHubToken_run env token w) as Htest.
  pose proof (getUserInfo_run env token
                (mkWorld (store w) (auth w) (events w ++ [FetchedUser token]))) as Huser.
  unfold remotelyValid.
  set (w2 := mkWorld (store w) (auth w) (events w ++ [FetchedUser token])) in *.
  assert (noInteractiveFlow w
            (if AuthState.isSignedIn (auth w2)
             then mkWorld (store w2) signedOut (events w2 ++ [Notified signedOut])
             else w2)) as Hquiet.
  { destruct (AuthState.isSignedIn (auth w2)); eexists; simpl.
    - split; [by rewrite <- app_assoc|].
      intros c [[=]|[[=]|[]%elem_of_nil]%elem_of_cons]%elem_of_cons.
    - split; [reflexivity|]. intros c [[=]|[]%elem_of_nil]%elem_of_cons. }
  assert ((if AuthState.isSignedIn (auth w2)
           then mkWorld (store w2) signedOut (events w2 ++ [Notified signedOut])
           else w2)
          = (if AuthState.isSignedIn (auth w)
             then mkWorld (store w) signedOut
                    (events w ++ [FetchedUser token] ++ [Notified signedOut])
             else mkWorld (store w) (auth w) (events w ++ [FetchedUser token])))
    as Hout.
  { simpl. destruct (AuthState.isSignedIn (auth w)); [|done]. by rewrite <- app_assoc. }
  destruct (userEndpoint env token) as [|status|user] eqn:Hendpoint.
  - erewrite try_catch_throw; [|by erewrite bind_throw].
    rewrite signOutIfSignedIn_run. eexists. split; [done|]. split; [reflexivity|].
    split; [by destruct (AuthState.isSignedIn (auth w2))|]. split; [exact Hquiet|].
    split; [done|]. split; [intros _ Hin Htok; exfalso; by apply Hdiffer|].
    intros token' [= <-] _ _. rewrite Hendpoint. exact Hout.
  - erewrite try_catch_throw; [|by erewrite bind_throw].
    rewrite signOutIfSignedIn_run. eexists. split; [done|]. split; [reflexivity|].
    split; [by destruct (AuthState.isSignedIn (auth w2))|]. split; [exact Hquiet|].
    split; [done|]. split; [intros _ Hin Htok; exfalso; by apply Hdiffer|].
    intros token' [= <-] _ _. rewrite Hendpoint. exact Hout.
  - case_bool_decide as Hlogin; simpl in Htest.
    + erewrite try_catch_run;
        [|erewrite bind_run; [|exact Htest]; simpl; apply signOutIfSignedIn_run].
      eexists. split; [done|]. split; [reflexivity|].
      split; [by destruct (AuthState.isSignedIn (auth w2))|]. split; [exact Hquiet|].
      split; [done|]. split; [intros _ Hin Htok; exfalso; by apply Hdiffer|].
      intros token' [= <-] _ _. rewrite Hendpoint.
      rewrite bool_decide_eq_true_2 by done. simpl. exact Hout.
    + set (w3 := mkWorld (store w2) (auth w2) (events w2 ++ [FetchedUser token])) in *.
      destruct (getStorageData_total (now env) (store w3)) as [data Hread].
      pose proof (markUserAsSignedIn_run env token user refreshUI w3 data Hread)
        as Hmark. cbn zeta in Hmark.
      assert (Settings.oauthToken (settings data) = Some token) as Hdata.
      { unfold getSettings in Hget. simpl in Hread.
        rewrite (bind_getStorageData _ _ _ _ Hread) in Hget.
        injection Hget as <-. exact Hstored. }
      rewrite bool_decide_eq_true_2 in Hmark by done.
      erewrite try_catch_run;
        [|erewrite bind_run; [|exact Htest]; simpl;
          erewrite bind_run; [|exact Huser]; exact Hmark].
      eexists. split; [done|]. split; [reflexivity|]. split; [done|]. split.
      { exists ([FetchedUser token; FetchedUser token]
                ++ if refreshUI
                   then [Notified (AuthState.mk true (UserInfo.login user) (Some user)
                                     (Some token))]
                   else []).
        simpl. split; [destruct refreshUI; by rewrite <- !app_assoc|].
        intros c. destruct refreshUI; simpl;
          rewrite !elem_of_cons, elem_of_nil; intros Hin;
          repeat destruct Hin as [Hin|Hin]; done. }
      split; [done|]. split; [intros _ Hin Htok; exfalso; by apply Hdiffer|].
      intros token' [= <-] _ _. rewrite Hendpoint.
      rewrite bool_decide_eq_false_2 by done. simpl.
      exists user. split; [done|].
      destruct refreshUI; by rewrite <- !app_assoc.
Qed.

(** * Further properties of the gist sync *)

Lemma createGist_run env token c data :
  gistAccess env token = true →
  getStorageData (now env) (local c) = (Ok data, local c) →
  createGist env token c
  = (Ok (newGistId env),
     mkCloud (local c)
       (<[newGistId env := [(GIST_FILENAME, serialize data)]]> (gists c))).
Proof.
  intros Haccess Hread. unfold createGist.
  rewrite (bind_run _ _ _ _ _ (liftLocal_read env c data Hread)).
  unfold postGistRequest, bind. by rewrite Haccess.
Qed.

(** ** [syncToGist] without a gist id *)

(** Without a gist id [syncToGist] creates a gist with the one file
    [the-one-tab-data.json] and saves the id of the gist in the local
    settings, leaving the groups and the other settings alone.  The file
    holds the whole local document as it was before that id was saved,
    the settings with the token among them.  So a [syncFromGist] of the new
    gist returns that document and puts it in the place of the local one:
    the local settings are then the ones that were uploaded. *)
Theorem syncToGist_creates env token gistId c data :
  gistAccess env token = true →
  truthy gistId = false →
  getStorageData (now env) (local c) = (Ok data, local c) →
  ∃ c1 data1 content,
    syncToGist env token gistId c = (Ok tt, c1)
    ∧ gists c1 = <[newGistId env := [(GIST_FILENAME, content)]]> (gists c)
    ∧ JSON.parse content ≫= storageDataOfJson = Some data
    ∧ getStorageData (now env) (local c1) = (Ok data1, local c1)
    ∧ groups data1 = groups data
    ∧ settings data1
      = Settings.mk (Settings.closeAndSave (settings data))
          (Settings.oauthToken (settings data)) (Some (newGistId env))
          (Settings.githubClientId (settings data))
          (Settings.githubClientSecret (settings data))
    ∧ ∃ c2,
        syncFromGist env token (newGistId env) c1 = (Ok data, c2)
        ∧ tabManagerData (local c2) = Some data
        ∧ gists c2 = gists c1.
Proof.
  intros Haccess Hid Hread.
  pose proof (createGist_run env token c data Haccess Hread) as Hcreate.
  set (remote := <[newGistId env := [(GIST_FILENAME, serialize data)]]> (gists c)) in *.
  set (data1 :=
         with_settings
           (SettingsArg.merge (settings data)
              (SettingsArg.with_gistId (Some (newGistId env))
                 (SettingsArg.spread (settings data))))
           data).
  set (c1 := mkCloud (mkStore (Some data1) (oauthCodeVerifier (local c))) remote).
  assert (syncToGist env token gistId c = (Ok tt, c1)) as Hsync.
  { unfold syncToGist.
    rewrite (bind_run _ _ _ _ _ (liftLocal_read env c data Hread)). rewrite Hid.
    apply try_catch_run. rewrite (bind_run _ _ _ _ _ Hcreate).
    unfold liftLocal, getSettings, saveSettings, bind, ret. simpl.
    rewrite Hread. simpl. by rewrite Hread. }
  exists c1, data1, (serialize data).
  split; [exact Hsync|]. split; [reflexivity|]. split; [apply parse_serialize|].
  split; [reflexivity|]. split; [reflexivity|]. split.
  { destruct data as [gs [cs t g i k]]. simpl. by destruct t, i, k. }
  eexists. split.
  - apply (syncFromGist_reads env token (newGistId env) c1
             [(GIST_FILENAME, serialize data)] GIST_FILENAME data);
      [done | apply lookup_insert_eq | reflexivity | done | reflexivity].
  - done.
Qed.

Lemma syncToGist_creates_witness :
  ∃ c1 data1 content,
    syncToGist sampleEnv "gho_token" None sampleCloud = (Ok tt, c1)
    ∧ gists c1
      = <[newGistId sampleEnv := [(GIST_FILENAME, content)]]> (gists sampleCloud)
    ∧ JSON.parse content ≫= storageDataOfJson = Some sampleData
    ∧ getStorageData (now sampleEnv) (local c1) = (Ok data1, local c1)
    ∧ groups data1 = groups sampleData
    ∧ settings data1
      = Settings.mk (Settings.closeAndSave (settings sampleData))
          (Settings.oauthToken (settings sampleData)) (Some (newGistId sampleEnv))
          (Settings.githubClientId (settings sampleData))
          (Settings.githubClientSecret (settings sampleData))
    ∧ ∃ c2,
        syncFromGist sampleEnv "gho_token" (newGistId sampleEnv) c1 = (Ok sampleData, c2)
        ∧ tabManagerData (local c2) = Some sampleData
        ∧ gists c2 = gists c1.
Proof.
  apply (syncToGist_creates sampleEnv "gho_token" None sampleCloud sampleData);
    reflexivity.
Defined.

(** ** A token that the gist endpoints refuse *)

(** With a token that the gist endpoints refuse, creating a gist,
    updating one and both directions of the sync throw a remote error and
    change nothing, neither in the local store nor in any gist.  The
    error of [syncToGist] without a gist id is the one of [createGist]
    inside the message of [syncToGist]; with a gist id it is the error of
    [updateGist] as it is. *)
Theorem refused_token_changes_nothing env token c :
  gistAccess env token = false →
  createGist env token c = (Throw (HttpError "createGist" 401), c)
  ∧ (∀ gistId data,
       updateGist env token gistId data c = (Throw (HttpError "updateGist" 401), c))
  ∧ (∀ gistId, truthy gistId = true →
       syncToGist env token gistId c = (Throw (HttpError "updateGist" 401), c))
  ∧ (∀ gistId, truthy gistId = false →
       syncToGist env token gistId c
       = (Throw (TokenCannotSync (HttpError "createGist" 401)), c))
  ∧ (∀ gistId,
       syncFromGist env token gistId c = (Throw (HttpError "syncFromGist" 401), c))
  ∧ classify (HttpError "createGist" 401) = RemoteError
  ∧ classify (HttpError "updateGist" 401) = RemoteError
  ∧ classify (TokenCannotSync (HttpError "createGist" 401)) = RemoteError
  ∧ classify (HttpError "syncFromGist" 401) = RemoteError.
Proof.
  intros Haccess.
  destruct (getStorageData_total (now env) (local c)) as [data Hread].
  assert (createGist env token c = (Throw (HttpError "createGist" 401), c)) as Hcreate.
  { unfold createGist.
    rewrite (bind_run _ _ _ _ _ (liftLocal_read env c data Hread)).
    unfold postGistRequest, bind. by rewrite Haccess. }
  assert (∀ gistId d,
            updateGist env token gistId d c = (Throw (HttpError "updateGist" 401), c))
    as Hupdate.
  { intros gistId d. unfold updateGist, getGistRequest, patchGistRequest, try_catch, bind.
    by rewrite Haccess. }
  split; [exact Hcreate|]. split; [exact Hupdate|]. split; [|split; [|split]].
  - intros gistId Hid. unfold syncToGist.
    rewrite (bind_run _ _ _ _ _ (liftLocal_read env c data Hread)). rewrite Hid.
    by rewrite (try_catch_throw _ _ _ _ _ (Hupdate _ _)).
  - intros gistId Hid. unfold syncToGist.
    rewrite (bind_run _ _ _ _ _ (liftLocal_read env c data Hread)). rewrite Hid.
    erewrite try_catch_throw; [|by erewrite bind_throw]. done.
  - intros gistId. unfold syncFromGist, getGistRequest, bind. by rewrite Haccess.
  - done.
Qed.

Lemma refused_token_changes_nothing_witness :
  createGist sampleEnv "gho_expired" sampleCloud
  = (Throw (HttpError "createGist" 401), sampleCloud)
  ∧ (∀ gistId data,
       updateGist sampleEnv "gho_expired" gistId data sampleCloud
       = (Throw (HttpError "updateGist" 401), sampleCloud))
  ∧ (∀ gistId, truthy gistId = true →
       syncToGist sampleEnv "gho_expired" gistId sampleCloud
       = (Throw (HttpError "updateGist" 401), sampleCloud))
  ∧ (∀ gistId, truthy gistId = false →
       syncToGist sampleEnv "gho_expired" gistId sampleCloud
       = (Throw (TokenCannotSync (HttpError "createGist" 401)), sampleCloud))
  ∧ (∀ gistId,
       syncFromGist sampleEnv "gho_expired" gistId sampleCloud
       = (Throw (HttpError "syncFromGist" 401), sampleCloud))
  ∧ classify (HttpError "createGist" 401) = RemoteError
  ∧ classify (HttpError "updateGist" 401) = RemoteError
  ∧ classify (TokenCannotSync (HttpError "createGist" 401)) = RemoteError
  ∧ classify (HttpError "syncFromGist" 401) = RemoteError.
Proof.
  apply (refused_token_changes_nothing sampleEnv "gho_expired" sampleCloud).
  reflexivity.
Defined.

(** ** [syncFromGist] *)





(** On the sample gist the chosen file is the data file and holds the
    serialisation of the older backup, whose times are safe integers: the
    run returns the backup and stores it. *)
Example syncFromGist_sample :
  dataFilename [("README.md", "# Saved tabs");
                ("the-one-tab-data.json", serialize staleData)]
  = Some "the-one-tab-data.json"
  ∧ safeDocument staleData = true
  ∧ syncFromGist sampleEnv "gho_token" "abc123" sampleCloud
    = (Ok staleData,
       mkCloud (mkStore (Some staleData) (oauthCodeVerifier (local sampleCloud)))
         (gists sampleCloud)).
Proof. repeat split; vm_compute; reflexivity. Qed.

(** A gist without files, and a gist whose one file has the empty name. *)
Example syncFromGist_no_file :
  ∀ files, files = [] ∨ files = [("", "{}")] →
  syncFromGist sampleEnv "gho_token" "abc123"
    (mkCloud sampleStore {[ "abc123" := files ]})
  = (Throw GistFileNotFound, mkCloud sampleStore {[ "abc123" := files ]}).
Proof. intros files [-> | ->]; reflexivity. Qed.

(** ** A gist id that the service does not know *)

Lemma gistNotFoundMessage_includes gistId :
  includes (gistNotFoundMessage gistId) "Permissions" = includes gistId "Permissions"
  ∧ includes (gistNotFoundMessage gistId) "permissions" = includes gistId "permissions"
  ∧ includes (gistNotFoundMessage gistId) "401" = includes gistId "401"
  ∧ includes (gistNotFoundMessage gistId) "403" = includes gistId "403"
  ∧ String.length (gistNotFoundMessage gistId) = 57 + String.length gistId.
Proof. repeat split; vm_compute; reflexivity. Qed.

Lemma gistNotFoundMessage_detailed gistId :
  isDetailedMessage (gistNotFoundMessage gistId)
  = includes gistId "Permissions" || includes gistId "permissions"
    || bool_decide (143 < String.length gistId).
Proof.
  unfold isDetailedMessage.
  destruct (gistNotFoundMessage_includes gistId) as (-> & -> & _ & _ & ->).
  f_equal. apply bool_decide_ext. lia.
Qed.

Lemma gistNotFoundMessage_mentions gistId :
  mentions401Or403 (gistNotFoundMessage gistId)
  = includes gistId "401" || includes gistId "403".
Proof.
  unfold mentions401Or403.
  by destruct (gistNotFoundMessage_includes gistId) as (_ & _ & -> & -> & _).
Qed.

(** For a gist id that the service does not know, [updateGist] and
    [syncFromGist] throw the error of their 404 answer, and [syncToGist]
    with that id throws the error of [updateGist]: as it is, or, when the
    id of the gist has [401] or [403] in it, has neither [Permissions] nor
    [permissions] in it and is at most 143 code units long (the message
    quotes the id after 57 code units of its own), inside the message that
    [syncToGist] puts around it.  No gist is created and the local store
    is as it was. *)
Theorem unknown_gist_changes_nothing env token gistId c :
  gistAccess env token = true →
  gists c !! gistId = None →
  (∀ data, updateGist env token gistId data c = (Throw (HttpError "updateGist" 404), c))
  ∧ (gistId ≠ "" →
     syncToGist env token (Some gistId) c
     = (Throw (if (includes gistId "401" || includes gistId "403")
                  && negb (includes gistId "Permissions"
                           || includes gistId "permissions"
                           || bool_decide (143 < String.length gistId))
               then TokenCannotSync (HttpError "updateGist" 404)
               else HttpError "updateGist" 404), c))
  ∧ syncFromGist env token gistId c = (Throw (HttpError "syncFromGist" 404), c).
Proof.
  intros Haccess Hgist.
  destruct (getStorageData_total (now env) (local c)) as [data Hread].
  assert (∀ d, updateGist env token gistId d c = (Throw (HttpError "updateGist" 404), c))
    as Hupdate.
  { intros d. unfold updateGist, getGistRequest, try_catch, bind.
    by rewrite Haccess, Hgist. }
  split; [exact Hupdate|]. split.
  - intros Hid. unfold syncToGist.
    rewrite (bind_run _ _ _ _ _ (liftLocal_read env c data Hread)). simpl.
    rewrite bool_decide_eq_false_2 by done. simpl.
    rewrite (try_catch_throw _ _ _ _ _ (Hupdate _)).
    rewrite gistNotFoundMessage_detailed, gistNotFoundMessage_mentions.
    destruct (includes gistId "Permissions" || includes gistId "permissions"
              || bool_decide (143 < String.length gistId));
      [by rewrite andb_false_r|].
    rewrite andb_true_r. by destruct (includes gistId "401" || includes gistId "403").
  - unfold syncFromGist, getGistRequest, bind. by rewrite Haccess, Hgist.
Qed.

Lemma unknown_gist_changes_nothing_witness :
  (∀ data, updateGist sampleEnv "gho_token" "e4f401aa" data sampleCloud
           = (Throw (HttpError "updateGist" 404), sampleCloud))
  ∧ (("e4f401aa" : string) ≠ "" →
     syncToGist sampleEnv "gho_token" (Some "e4f401aa") sampleCloud
     = (Throw (TokenCannotSync (HttpError "updateGist" 404)), sampleCloud))
  ∧ syncFromGist sampleEnv "gho_token" "e4f401aa" sampleCloud
    = (Throw (HttpError "syncFromGist" 404), sampleCloud).
Proof.
  apply (unknown_gist_changes_nothing sampleEnv "gho_token" "e4f401aa" sampleCloud);
    reflexivity.
Defined.

(** The same for an id without [401] and [403] in it, by running the code:
    the error of [updateGist] comes out of [syncToGist] as it is. *)
Example unknown_gist_plain_id :
  syncToGist sampleEnv "gho_token" (Some "ffff0000") sampleCloud
  = (Throw (HttpError "updateGist" 404), sampleCloud).
Proof. reflexivity. Qed.

(** ** Which file the two directions of the sync use *)

(** The order of [Object.keys] on names of the three kinds: array indices
    by value, then the other names as listed, among them the numerals with
    a leading zero and those from 2^32 - 1 on. *)
Example objectKeys_order :
  objectKeys ["b"; "10"; ""; "a"; "2"; "01"; "4294967295"; "4294967294"; "0"; "1e3"]
  = ["0"; "2"; "10"; "4294967294"; "b"; ""; "a"; "01"; "4294967295"; "1e3"].
Proof. reflexivity. Qed.




(** * [withRetryOn401] *)

Section RetryLoop.
Context {T : Type}.
Variable mentions : Error → bool.
Variable env : Env.
Variable fn : string → M World T.
Variable maxRetries : Z.

(** The loop ends within [maxRetries - retryCount + 1] rounds: more fuel
    than that changes nothing. *)
Lemma retryLoop_enough_fuel (extra : nat) (rounds : nat) retryCount currentToken w :
  rounds = Z.to_nat (maxRetries - retryCount + 1) →
  retryLoop mentions env fn maxRetries (rounds + extra) retryCount currentToken w
  = retryLoop mentions env fn maxRetries rounds retryCount currentToken w.
Proof.
  revert retryCount currentToken w.
  induction rounds as [|rounds IH]; intros retryCount currentToken w Hrounds.
  - destruct extra as [|extra]; [done|]. simpl.
    rewrite bool_decide_eq_false_2; [done | lia].
  - cbn [Nat.add retryLoop].
    case_bool_decide as Hle; [|done].
    assert (∀ error w1,
              (if is401Error mentions error && bool_decide (retryCount < maxRetries)%Z
               then match reauthenticate env w1 with
                    | (Ok true, w2) =>
                        retryLoop mentions env fn maxRetries (rounds + extra)
                          (retryCount + 1) (AuthState.token (auth w2)) w2
                    | (Ok false, w2) => (Failed (ReauthFailed error), w2)
                    | (Throw e, w2) => (Failed (Original e), w2)
                    end
               else (Failed (Original error), w1))
              = (if is401Error mentions error && bool_decide (retryCount < maxRetries)%Z
                 then match reauthenticate env w1 with
                      | (Ok true, w2) =>
                          retryLoop mentions env fn maxRetries rounds
                            (retryCount + 1) (AuthState.token (auth w2)) w2
                      | (Ok false, w2) => (Failed (ReauthFailed error), w2)
                      | (Throw e, w2) => (Failed (Original e), w2)
                      end
                 else (Failed (Original error), w1))) as Hcaught.
    { intros error w1. destruct (is401Error mentions error); [|done]. simpl.
      case_bool_decide as Hlt; [|done].
      destruct (reauthenticate env w1) as [[[|]|e] w2]; [|done|done].
      apply IH. lia. }
    destruct (truthy currentToken).
    + destruct (fn _ w) as [[a|error] w2]; [done | apply Hcaught].
    + destruct (ensureAuthenticated env w) as [[[]|error] w1]; [|apply Hcaught].
      destruct (truthy _); [|done].
      destruct (fn _ w1) as [[a|error] w2]; [done | apply Hcaught].
Qed.

End RetryLoop.

Lemma truthy_Some token : token ≠ "" → truthy (Some token) = true.
Proof. intros Hne. simpl. by rewrite bool_decide_eq_false_2. Qed.

Lemma reauthenticate_run env w1 :
  ∃ w2 settings,
    signOut env w1 = (Ok tt, w2)
    ∧ auth w2 = signedOut
    ∧ storedToken (now env) (store w2) = Ok None
    ∧ (getSettings (now env) (store w2)).1 = Ok settings
    ∧ reauthenticate env w1
      = (if truthy (Settings.githubClientId settings)
            && truthy (Settings.githubClientSecret settings)
         then match signIn env w2 with
              | (Ok success, w3) => (Ok success, w3)
              | (Throw _, w3) => (Ok false, w3)
              end
         else (Ok false, w2)).
Proof.
  destruct (signOut_run env w1) as (st & Hout & Htoken & _).
  set (w2 := mkWorld st signedOut (events w1 ++ [Notified signedOut])) in *.
  destruct (liftStore_getSettings (now env) w2) as (cfg & Hsettings & Hget).
  exists w2, cfg. split; [done|]. split; [done|]. split; [done|]. split; [done|].
  unfold reauthenticate. rewrite (bind_run _ _ _ _ _ Hout).
  unfold try_catch. rewrite (bind_run _ _ _ _ _ Hsettings).
  destruct (truthy (Settings.githubClientId cfg)
            && truthy (Settings.githubClientSecret cfg)); [|done].
  by destruct (signIn env w2) as [[success|e] w3].
Qed.

(** ** The first attempt *)

(** With a token in memory [withRetryOn401] calls [fn] with it at once,
    without asking the user endpoint.  What [fn] returns is returned.  An
    error of [fn] whose message does not mention 401 (or any error, when
    no retry is allowed) is passed on as it is, and the session is left as
    [fn] left it: no sign-out. *)
Theorem withRetryOn401_first_attempt {T} mentions env (fn : string → M World T)
    maxRetries w token :
  (0 ≤ maxRetries)%Z →
  AuthState.token (auth w) = Some token →
  token ≠ "" →
  match fn token w with
  | (Ok a, w1) => withRetryOn401 mentions env fn maxRetries w = (Returned a, w1)
  | (Throw error, w1) =>
      is401Error mentions error = false ∨ maxRetries = 0%Z →
      withRetryOn401 mentions env fn maxRetries w = (Failed (Original error), w1)
  end.
Proof.
  intros Hmax Htoken Hne. unfold withRetryOn401.
  destruct (Z.to_nat (maxRetries + 1)) as [|fuel] eqn:Hfuel; [lia|].
  cbn [retryLoop]. rewrite bool_decide_eq_true_2 by done.
  rewrite Htoken, (truthy_Some _ Hne). simpl.
  destruct (fn token w) as [[a|error] w1]; [done|].
  intros [-> | ->]; [done|].
  rewrite (bool_decide_eq_false_2 (0 < 0)%Z) by lia. by rewrite andb_false_r.
Qed.

Lemma withRetryOn401_first_attempt_witness :
  match expiredThenFine "gho_token" freshWorld with
  | (Ok a, w1) =>
      withRetryOn401 mentionsStatus401 sampleEnv expiredThenFine 1 freshWorld
      = (Returned a, w1)
  | (Throw error, w1) =>
      is401Error mentionsStatus401 error = false ∨ 1%Z = 0%Z →
      withRetryOn401 mentionsStatus401 sampleEnv expiredThenFine 1 freshWorld
      = (Failed (Original error), w1)
  end.
Proof.
  apply (withRetryOn401_first_attempt mentionsStatus401 sampleEnv expiredThenFine 1
           freshWorld "gho_token"); [lia | reflexivity | discriminate].
Defined.

(** ** No attempt at all *)

(** Without a token in memory [withRetryOn401] does not call [fn] and
    does not sign in: it throws the error of [ensureAuthenticated] and
    leaves everything as it was.  With a negative [maxRetries] it does not
    call [fn] either and throws its own last error. *)
Theorem withRetryOn401_without_call {T} mentions env (fn : string → M World T)
    maxRetries w :
  ((maxRetries < 0)%Z →
   withRetryOn401 mentions env fn maxRetries w = (Failed RetriesExceeded, w))
  ∧ ((0 ≤ maxRetries)%Z → truthy (AuthState.token (auth w)) = false →
     withRetryOn401 mentions env fn maxRetries w = (Failed (Original LoginRequired), w)).
Proof.
  unfold withRetryOn401. split.
  - intros Hneg. by replace (Z.to_nat (maxRetries + 1)) with 0%nat by lia.
  - intros Hmax Htoken.
    destruct (Z.to_nat (maxRetries + 1)) as [|fuel] eqn:Hfuel; [lia|].
    cbn [retryLoop]. rewrite bool_decide_eq_true_2 by done. rewrite Htoken.
    rewrite ensureAuthenticated_not_signed_in; [done|].
    rewrite Htoken. apply andb_false_r.
Qed.

Lemma withRetryOn401_without_call_witness :
  (withRetryOn401 mentionsStatus401 sampleEnv expiredThenFine (-1) freshWorld
   = (Failed RetriesExceeded, freshWorld))
  ∧ (withRetryOn401 mentionsStatus401 sampleEnv expiredThenFine 1 signedOutWorld
     = (Failed (Original LoginRequired), signedOutWorld)).
Proof.
  split.
  - apply (withRetryOn401_without_call mentionsStatus401 sampleEnv expiredThenFine (-1)
             freshWorld). lia.
  - apply (withRetryOn401_without_call mentionsStatus401 sampleEnv expiredThenFine 1
             signedOutWorld); [lia | reflexivity].
Defined.

(** ** The retry *)

(** When retries are allowed and [fn] fails with an error whose message
    mentions 401, [withRetryOn401] signs out first: the session is signed
    out and the stored token is gone before anything else is tried.
    Without both client credentials in the settings, or when the
    interactive sign-in that follows fails, it throws its own error around
    the first one and leaves the process signed out.  When the sign-in
    succeeds, [fn] is called again with the new token; its result is
    returned, and its error is passed on as it is when that was the last
    retry or the message does not mention 401. *)
Theorem withRetryOn401_reauthenticates {T} mentions env (fn : string → M World T)
    maxRetries w token error w1 :
  (0 < maxRetries)%Z →
  AuthState.token (auth w) = Some token →
  token ≠ "" →
  fn token w = (Throw error, w1) →
  is401Error mentions error = true →
  ∃ w2 settings,
    signOut env w1 = (Ok tt, w2)
    ∧ auth w2 = signedOut
    ∧ storedToken (now env) (store w2) = Ok None
    ∧ (getSettings (now env) (store w2)).1 = Ok settings
    ∧ if truthy (Settings.githubClientId settings)
         && truthy (Settings.githubClientSecret settings)
      then
        match signIn env w2 with
        | (Throw _, w3) =>
            withRetryOn401 mentions env fn maxRetries w
            = (Failed (ReauthFailed error), w3)
            ∧ auth w3 = signedOut
            ∧ storedToken (now env) (store w3) = Ok None
        | (Ok _, w3) =>
            ∃ token3,
              AuthState.token (auth w3) = Some token3
              ∧ token3 ≠ ""
              ∧ storedToken (now env) (store w3) = Ok (Some token3)
              ∧ (∃ clientId, LaunchedWebAuthFlow clientId ∈ events w3)
              ∧ match fn token3 w3 with
                | (Ok a, w4) =>
                    withRetryOn401 mentions env fn maxRetries w = (Returned a, w4)
                | (Throw error4, w4) =>
                    is401Error mentions error4 = false ∨ maxRetries = 1%Z →
                    withRetryOn401 mentions env fn maxRetries w
                    = (Failed (Original error4), w4)
                end
        end
      else
        withRetryOn401 mentions env fn maxRetries w = (Failed (ReauthFailed error), w2).
Proof.
  intros Hmax Htoken Hne Hfn H401.
  destruct (reauthenticate_run env w1)
    as (w2 & cfg & Hout & Hauth & Hstored & Hget & Hreauth).
  exists w2, cfg. split; [done|]. split; [done|]. split; [done|]. split; [done|].
  assert (withRetryOn401 mentions env fn maxRetries w
          = match reauthenticate env w1 with
            | (Ok true, w3) =>
                retryLoop mentions env fn maxRetries (Z.to_nat maxRetries) 1
                  (AuthState.token (auth w3)) w3
            | (Ok false, w3) => (Failed (ReauthFailed error), w3)
            | (Throw e, w3) => (Failed (Original e), w3)
            end) as Hfirst.
  { unfold withRetryOn401.
    replace (Z.to_nat (maxRetries + 1)) with (S (Z.to_nat maxRetries)) by lia.
    cbn [retryLoop]. rewrite bool_decide_eq_true_2 by lia.
    rewrite Htoken, (truthy_Some _ Hne). simpl. rewrite Hfn, H401.
    by rewrite bool_decide_eq_true_2 by done. }
  rewrite Hfirst, Hreauth.
  destruct (truthy (Settings.githubClientId cfg)
            && truthy (Settings.githubClientSecret cfg)); [|done].
  pose proof (signIn_cases env w2) as Hsign. cbn zeta in Hsign.
  destruct (signIn env w2) as [[success|e] w3]; simpl in Hsign.
  - destruct Hsign as (-> & accessToken & user & Haccess & _ & Hauth3 & Hstored3 & _
                       & _ & clientId & code & Hevents).
    exists accessToken. split; [by rewrite Hauth3|]. split; [done|]. split; [done|].
    split.
    { exists clientId. rewrite Hevents, elem_of_app. right. left. }
    destruct (Z.to_nat maxRetries) as [|fuel] eqn:Hfuel; [lia|].
    cbn [retryLoop]. rewrite bool_decide_eq_true_2 by lia.
    rewrite Hauth3. cbn [AuthState.token]. rewrite (truthy_Some _ Haccess). simpl.
    destruct (fn accessToken w3) as [[a|error4] w4]; [done|].
    intros [-> | ->]; [done|].
    rewrite (bool_decide_eq_false_2 (1 < 1)%Z) by lia. by rewrite andb_false_r.
  - destruct Hsign as (Hauth3 & Hdoc & _). split; [done|]. split; [congruence|].
    rewrite <- Hstored. by apply storedToken_document.
Qed.

Lemma withRetryOn401_reauthenticates_witness :
  ∃ w2 settings,
    signOut grantingEnv
      (expiredThenFine "gho_expired" staleWorld).2 = (Ok tt, w2)
    ∧ auth w2 = signedOut
    ∧ storedToken (now grantingEnv) (store w2) = Ok None
    ∧ (getSettings (now grantingEnv) (store w2)).1 = Ok settings
    ∧ if truthy (Settings.githubClientId settings)
         && truthy (Settings.githubClientSecret settings)
      then
        match signIn grantingEnv w2 with
        | (Throw _, w3) =>
            withRetryOn401 mentionsStatus401 grantingEnv expiredThenFine 1 staleWorld
            = (Failed (ReauthFailed (HttpError "createGist" 401)), w3)
            ∧ auth w3 = signedOut
            ∧ storedToken (now grantingEnv) (store w3) = Ok None
        | (Ok _, w3) =>
            ∃ token3,
              AuthState.token (auth w3) = Some token3
              ∧ token3 ≠ ""
              ∧ storedToken (now grantingEnv) (store w3) = Ok (Some token3)
              ∧ (∃ clientId, LaunchedWebAuthFlow clientId ∈ events w3)
              ∧ match expiredThenFine token3 w3 with
                | (Ok a, w4) =>
                    withRetryOn401 mentionsStatus401 grantingEnv expiredThenFine 1
                      staleWorld = (Returned a, w4)
                | (Throw error4, w4) =>
                    is401Error mentionsStatus401 error4 = false ∨ 1%Z = 1%Z →
                    withRetryOn401 mentionsStatus401 grantingEnv expiredThenFine 1
                      staleWorld = (Failed (Original error4), w4)
                end
        end
      else
        withRetryOn401 mentionsStatus401 grantingEnv expiredThenFine 1 staleWorld
        = (Failed (ReauthFailed (HttpError "createGist" 401)),  w2).
Proof.
  apply (withRetryOn401_reauthenticates mentionsStatus401 grantingEnv expiredThenFine 1
           staleWorld "gho_expired" (HttpError "createGist" 401));
    [lia | reflexivity | discriminate | reflexivity | reflexivity].
Defined.

(** A run of the sample: the token in memory has expired, the first call
    is refused with 401, the user grants the authorization again, and the
    second call goes through with the new token. *)
Example withRetryOn401_second_call :
  ∃ w4,
    withRetryOn401 mentionsStatus401 grantingEnv expiredThenFine 1 staleWorld
    = (Returned "0d9f8e7c6b5a", w4)
    ∧ auth w4 = signedInAs "gho_token"
    ∧ events w4
      = [Notified signedOut; LaunchedWebAuthFlow "client";
         PostedTokenExchange "9f3c1a7e"; FetchedUser "gho_token";
         Notified (signedInAs "gho_token")].
Proof. eexists. split; [vm_compute; reflexivity|]. split; reflexivity. Qed.

(** ** The errors of the wrapper itself *)

Lemma retryLoop_own_errors {T} mentions env (fn : string → M World T) maxRetries
    (rounds : nat) retryCount w e w1 :
  rounds = Z.to_nat (maxRetries - retryCount + 1) →
  (retryCount ≤ maxRetries)%Z →
  retryLoop mentions env fn maxRetries rounds retryCount (AuthState.token (auth w)) w
  = (Failed e, w1) →
  e ≠ NoTokenAfterLogin ∧ e ≠ RetriesExceeded.
Proof.
  revert retryCount w.
  induction rounds as [|rounds IH]; intros retryCount w Hrounds Hle; [lia|].
  cbn [retryLoop]. rewrite bool_decide_eq_true_2 by done.
  assert (∀ error w2,
            (if is401Error mentions error && bool_decide (retryCount < maxRetries)%Z
             then match reauthenticate env w2 with
                  | (Ok true, w3) =>
                      retryLoop mentions env fn maxRetries rounds (retryCount + 1)
                        (AuthState.token (auth w3)) w3
                  | (Ok false, w3) => (Failed (ReauthFailed error), w3)
                  | (Throw e', w3) => (Failed (Original e'), w3)
                  end
             else (Failed (Original error), w2)) = (Failed e, w1) →
            e ≠ NoTokenAfterLogin ∧ e ≠ RetriesExceeded) as Hcaught.
  { intros error w2. destruct (is401Error mentions error); simpl; [|by intros [= <- _]].
    case_bool_decide as Hlt; [|by intros [= <- _]].
    destruct (reauthenticate env w2) as [[[|]|e'] w3];
      [|by intros [= <- _] | by intros [= <- _]].
    apply IH; lia. }
  destruct (truthy (AuthState.token (auth w))) eqn:Htoken.
  - destruct (fn _ w) as [[a|error] w2]; [done | apply Hcaught].
  - rewrite ensureAuthenticated_not_signed_in by (rewrite Htoken; apply andb_false_r).
    apply Hcaught.
Qed.

(** Of the two other errors that [withRetryOn401] makes itself, the one
    for a missing token after the login is never thrown, and the one
    after the loop is thrown for a negative [maxRetries] only. *)
Theorem withRetryOn401_own_errors {T} mentions env (fn : string → M World T)
    maxRetries w e w1 :
  withRetryOn401 mentions env fn maxRetries w = (Failed e, w1) →
  e ≠ NoTokenAfterLogin ∧ (e = RetriesExceeded ↔ (maxRetries < 0)%Z).
Proof.
  intros Hrun. destruct (decide (maxRetries < 0)%Z) as [Hneg|Hmax].
  - unfold withRetryOn401 in Hrun.
    replace (Z.to_nat (maxRetries + 1)) with 0%nat in Hrun by lia.
    simpl in Hrun. injection Hrun as <- _. done.
  - destruct (retryLoop_own_errors mentions env fn maxRetries
                (Z.to_nat (maxRetries + 1)) 0 w e w1) as [Hlogin Hloop];
      [f_equal; lia | lia | exact Hrun |].
    split; [done|]. split; [done | lia].
Qed.

Lemma withRetryOn401_own_errors_witness :
  Original LoginRequired ≠ NoTokenAfterLogin
  ∧ (Original LoginRequired = RetriesExceeded ↔ (1 < 0)%Z).
Proof.
  apply (withRetryOn401_own_errors mentionsStatus401 sampleEnv expiredThenFine 1
           signedOutWorld (Original LoginRequired) signedOutWorld).
  reflexivity.
Defined.

(** * The storage page *)

(** ** The edit dialog *)

Lemma addTabsToGroup_run now groupId tabs s data g :
  getStorageData now s = (Ok data, s) →
  findGroupById (groups data) groupId = Some g →
  ∃ f, (∀ g, Group.id (f g) = Group.id g)
       ∧ addTabsToGroup now groupId tabs s
         = (Ok tt,
            mkStore (Some (with_groups (modifyGroup f groupId (groups data)) data))
              (oauthCodeVerifier s)).
Proof.
  intros Hread Hg. unfold addTabsToGroup.
  rewrite (bind_getStorageData _ _ _ _ Hread), Hg.
  eexists. split; [|reflexivity]. done.
Qed.

Lemma fmap_NoDup_elem {A B} (f : A → B) (l : list A) a b :
  NoDup (f <$> l) → a ∈ l → b ∈ l → f a = f b → a = b.
Proof.
  induction l as [|x l IH]; [by intros _ []%elem_of_nil|].
  rewrite fmap_cons, NoDup_cons.
  intros [Hx Hl] [->|Ha]%elem_of_cons [->|Hb]%elem_of_cons Heq.
  - done.
  - exfalso. apply Hx. rewrite Heq. apply list_elem_of_fmap. eauto.
  - exfalso. apply Hx. rewrite <- Heq. apply list_elem_of_fmap. eauto.
  - by apply IH.
Qed.

(** The edit dialog saves the group as it was when the dialog was opened,
    with the new name and description: [saveGroup] puts that copy in the
    place of the stored group.  Tabs that were added to the group in the
    meantime are gone afterwards.  The name is not compared with the names
    of the other groups: a name that another group has, compared trimmed
    and in lower case, is accepted, and the names are then no longer
    pairwise different. *)
Theorem handleUpdateGroup_overwrites now1 now2 s data group tabs name description :
  getStorageData now1 s = (Ok data, s) →
  findGroupById (groups data) (Group.id group) = Some group →
  trim name ≠ "" →
  ∃ s1 s2 data2 group2,
    addTabsToGroup now1 (Group.id group) tabs s = (Ok tt, s1)
    ∧ StoragePage.handleUpdateGroup now2 (Some group) name description s1 = (Ok tt, s2)
    ∧ getStorageData now2 s2 = (Ok data2, s2)
    ∧ findGroupById (groups data2) (Group.id group) = Some group2
    ∧ Group.tabs group2 = Group.tabs group
    ∧ Group.name group2 = trim name
    ∧ groupIds data2 = groupIds data
    ∧ (∀ otherId other,
         otherId ≠ Group.id group →
         findGroupById (groups data) otherId = Some other →
         foldedName other = toLowerCase (trim name) →
         ¬ namesDistinct (groups data2)).
Proof.
  intros Hread Hgroup Hname.
  destruct (addTabsToGroup_run now1 (Group.id group) tabs s data group Hread Hgroup)
    as (f & Hf & Hadd).
  set (gs1 := modifyGroup f (Group.id group) (groups data)) in *.
  set (s1 := mkStore (Some (with_groups gs1 data)) (oauthCodeVerifier s)) in *.
  set (edited := Group.mk (Group.id group) (trim name)
                   (StoragePage.trimmedOrUndefined description)
                   (Group.tabs group) (Group.createdAt group) (Group.updatedAt group)).
  destruct (saveGroup_placed (Group.with_updatedAt now2 edited) gs1)
    as (Hfound & Hother & Hids).
  change (Group.id (Group.with_updatedAt now2 edited)) with (Group.id group) in *.
  assert (Group.id <$> gs1 = groupIds data) as Hids1 by by apply modifyGroup_ids.
  assert (Group.id group ∈ Group.id <$> gs1) as Hin.
  { rewrite Hids1. unfold groupIds. rewrite <- findGroupById_is_Some. eauto. }
  rewrite bool_decide_eq_true_2 in Hids by done.
  set (gs2 := match list_find (λ g, Group.id g = Group.id group) gs1 with
              | Some (index, _) => <[index := Group.with_updatedAt now2 edited]> gs1
              | None => gs1 ++ [Group.with_updatedAt now2 edited]
              end) in *.
  exists s1, (mkStore (Some (with_groups gs2 data)) (oauthCodeVerifier s)),
         (with_groups gs2 data), (Group.with_updatedAt now2 edited).
  split; [exact Hadd|]. split.
  { unfold StoragePage.handleUpdateGroup.
    rewrite bool_decide_eq_false_2 by done. apply try_catch_run.
    unfold saveGroup. rewrite (bind_getStorageData _ s1 (with_groups gs1 data)) by done.
    unfold gs2. cbn [groups with_groups Group.id Group.with_updatedAt].
    fold edited. by destruct (list_find _ gs1) as [[index y]|]. }
  split; [reflexivity|]. split; [exact Hfound|]. split; [reflexivity|].
  split; [reflexivity|]. split; [by rewrite <- Hids1|].
  intros otherId other Hne Hfind Hfolded Hdistinct.
  assert (findGroupById gs2 otherId = Some other) as Hfind2.
  { cbn [groups with_groups] in *. rewrite (Hother _ Hne).
    unfold gs1. by rewrite modifyGroup_other. }
  apply findGroupById_Some in Hfind2 as [Hin2 Hid2].
  apply findGroupById_Some in Hfound as [Hin3 _].
  assert (other = Group.with_updatedAt now2 edited) as Heq.
  { apply (fmap_NoDup_elem foldedName gs2); [done..|].
    rewrite Hfolded. unfold foldedName. simpl. by rewrite trim_idempotent. }
  apply Hne. rewrite <- Hid2, Heq. done.
Qed.

Lemma handleUpdateGroup_overwrites_witness :
  ∃ s1 s2 data2 group2,
    addTabsToGroup sampleNow (Group.id sampleWork) [tabA] sampleStore = (Ok tt, s1)
    ∧ StoragePage.handleUpdateGroup (sampleNow + 1000) (Some sampleWork)
        " DEFAULT " "" s1 = (Ok tt, s2)
    ∧ getStorageData (sampleNow + 1000) s2 = (Ok data2, s2)
    ∧ findGroupById (groups data2) (Group.id sampleWork) = Some group2
    ∧ Group.tabs group2 = Group.tabs sampleWork
    ∧ Group.name group2 = trim " DEFAULT "
    ∧ groupIds data2 = groupIds sampleData
    ∧ (∀ otherId other,
         otherId ≠ Group.id sampleWork →
         findGroupById (groups sampleData) otherId = Some other →
         foldedName other = toLowerCase (trim " DEFAULT ") →
         ¬ namesDistinct (groups data2)).
Proof.
  apply (handleUpdateGroup_overwrites sampleNow (sampleNow + 1000) sampleStore
           sampleData sampleWork [tabA] " DEFAULT " "");
    [reflexivity | reflexivity | discriminate].
Defined.

(** ** Drag and drop *)

Section MoveItem.
Context {A : Type}.

Lemma moveItem_fmap {B} (f : A → B) from target (l : list A) :
  StoragePage.moveItem from target (f <$> l)
  = fmap (M:=option) (fmap (M:=list) f) (StoragePage.moveItem from target l).
Proof.
  unfold StoragePage.moveItem. rewrite list_lookup_fmap.
  destruct (l !! from) as [x|]; simpl; [|done].
  by rewrite fmap_app, fmap_cons, fmap_take, fmap_drop, list_fmap_delete.
Qed.

Lemma moveItem_Permutation from target (l l1 : list A) :
  StoragePage.moveItem from target l = Some l1 → l1 ≡ₚ l.
Proof.
  unfold StoragePage.moveItem.
  destruct (l !! from) as [x|] eqn:Hx; [|done]. intros [= <-].
  rewrite <- Permutation_middle, take_drop. symmetry. by apply delete_Permutation.
Qed.

Lemma moveItem_lookup from target (l l1 : list A) x :
  StoragePage.moveItem from target l = Some l1 →
  l !! from = Some x →
  target < length l →
  l1 !! target = Some x.
Proof.
  unfold StoragePage.moveItem. intros Hmove Hx Htarget. rewrite Hx in Hmove.
  injection Hmove as <-.
  assert (length (delete from l) = pred (length l)) as Hlen.
  { rewrite length_delete by eauto. lia. }
  apply list_lookup_middle. rewrite length_take_le; [done | lia].
Qed.

Lemma moveItem_first from target (l l1 : list A) :
  StoragePage.moveItem from target l = Some l1 →
  0 < from → 0 < target →
  l1 !! 0 = l !! 0.
Proof.
  unfold StoragePage.moveItem. intros Hmove Hfrom Htarget.
  destruct (l !! from) as [x|] eqn:Hx; [|done]. injection Hmove as <-.
  destruct l as [|a l]; [done|].
  destruct from as [|from]; [lia|]. destruct target as [|target]; [lia|]. done.
Qed.

Lemma same_keys {K} (key : A → K) (vs out vs1 : list A) :
  NoDup (key <$> vs) →
  key <$> out = key <$> vs1 →
  (∀ v, v ∈ out → v ∈ vs) →
  (∀ v, v ∈ vs1 → v ∈ vs) →
  out = vs1.
Proof.
  intros Hnodup. revert vs1.
  induction out as [|v out IH]; intros [|v1 vs1]; try done.
  rewrite !fmap_cons. intros [= Hkey Hkeys] Hout Hvs1. f_equal.
  - apply (fmap_NoDup_elem key vs); [done | apply Hout; left | apply Hvs1; left | done].
  - apply IH; [done | |]; intros; [apply Hout | apply Hvs1]; by right.
Qed.

End MoveItem.

(** On a page that shows the groups as the store has them, dropping a tab
    on another place of its own group reorders the group: the order that
    the handler makes is always accepted, the dragged tab ends at the
    index it was dropped on, and the tabs of the group are the same tabs
    as before, with the other tabs in the order they had; the group keeps
    its id, name, description and time of creation and its [updatedAt] is
    the time of the drop.  (The ids of the tabs of the group are taken to
    be pairwise different.) *)
Theorem handleTabDrop_moves now s data groupId g draggedIndex t targetTabIndex :
  getStorageData now s = (Ok data, s) →
  findGroupById (groups data) groupId = Some g →
  Group.tabs g !! draggedIndex = Some t →
  targetTabIndex < length (Group.tabs g) →
  draggedIndex ≠ targetTabIndex →
  NoDup (Tab.id <$> Group.tabs g) →
  ∃ s1 data1 g1,
    StoragePage.handleTabDrop now (groups data)
      (Some (StoragePage.DraggedTab.mk (Tab.id t) groupId draggedIndex))
      groupId targetTabIndex s
    = (Ok (groups data1), s1)
    ∧ getStorageData now s1 = (Ok data1, s1)
    ∧ findGroupById (groups data1) groupId = Some g1
    ∧ Group.tabs g1 !! targetTabIndex = Some t
    ∧ delete targetTabIndex (Group.tabs g1) = delete draggedIndex (Group.tabs g)
    ∧ Group.tabs g1 ≡ₚ Group.tabs g
    ∧ Group.id g1 = Group.id g
    ∧ Group.name g1 = Group.name g
    ∧ Group.description g1 = Group.description g
    ∧ Group.createdAt g1 = Group.createdAt g
    ∧ Group.updatedAt g1 = now.
Proof.
  intros Hread Hg Ht Htarget Hne Hnodup.
  destruct (StoragePage.moveItem draggedIndex targetTabIndex (Group.tabs g))
    as [tabs1|] eqn:Hmove;
    [|unfold StoragePage.moveItem in Hmove; by rewrite Ht in Hmove].
  pose proof (moveItem_Permutation _ _ _ _ Hmove) as Hperm.
  destruct (reorderTabsInGroup_accepted now groupId (Tab.id <$> tabs1) s data g Hread Hg)
    as (s1 & data1 & out & Hrun & Hread1 & Hg1 & Hids & Hsub).
  { intros k Hk. by rewrite <- Hperm. }
  { by rewrite !length_fmap, Hperm. }
  assert (out = tabs1) as ->.
  { apply (same_keys Tab.id (Group.tabs g)); [done | done | done |].
    intros v Hv. by rewrite <- Hperm. }
  exists s1, data1, (Group.with_updatedAt now (Group.with_tabs tabs1 g)).
  assert (Group.tabs (Group.with_updatedAt now (Group.with_tabs tabs1 g)) = tabs1) as ->
    by reflexivity.
  split.
  { unfold StoragePage.handleTabDrop. simpl.
    rewrite (bool_decide_eq_true_2 (groupId = groupId)) by done. simpl.
    rewrite bool_decide_eq_false_2 by done.
    apply try_catch_run. rewrite Hg, moveItem_fmap, Hmove. simpl.
    rewrite (bind_run _ _ _ _ _ Hrun). unfold getGroups.
    by rewrite (bind_getStorageData _ _ _ _ Hread1). }
  split; [done|]. split; [done|].
  split; [by apply (moveItem_lookup draggedIndex _ (Group.tabs g))|].
  split; [|by repeat split].
  unfold StoragePage.moveItem in Hmove. rewrite Ht in Hmove. injection Hmove as <-.
  assert (length (take targetTabIndex (delete draggedIndex (Group.tabs g)))
          = targetTabIndex) as Hlen.
  { rewrite length_take_le; [done|]. rewrite length_delete by eauto. lia. }
  rewrite <- Hlen at 1. rewrite delete_middle. apply take_drop.
Qed.

Lemma handleTabDrop_moves_witness :
  ∃ s1 data1 g1,
    StoragePage.handleTabDrop sampleNow (groups sampleData)
      (Some (StoragePage.DraggedTab.mk (Tab.id tabA) "default" 0))
      "default" 1 sampleStore
    = (Ok (groups data1), s1)
    ∧ getStorageData sampleNow s1 = (Ok data1, s1)
    ∧ findGroupById (groups data1) "default" = Some g1
    ∧ Group.tabs g1 !! 1 = Some tabA
    ∧ delete 1 (Group.tabs g1) = delete 0 (Group.tabs sampleDefault)
    ∧ Group.tabs g1 ≡ₚ Group.tabs sampleDefault
    ∧ Group.id g1 = Group.id sampleDefault
    ∧ Group.name g1 = Group.name sampleDefault
    ∧ Group.description g1 = Group.description sampleDefault
    ∧ Group.createdAt g1 = Group.createdAt sampleDefault
    ∧ Group.updatedAt g1 = sampleNow.
Proof.
  apply (handleTabDrop_moves sampleNow sampleStore sampleData "default" sampleDefault
           0 tabA 1);
    [reflexivity | reflexivity | reflexivity | simpl; lia | lia |].
  simpl. apply NoDup_cons. split.
  - intros [[=]|[]%elem_of_nil]%elem_of_cons.
  - apply NoDup_singleton.
Defined.

(** On a page that shows the groups as the store has them, dropping a
    group that is not the default group on another one that is not the
    default group reorders the groups: the order that the handler makes
    is always accepted, the dragged group ends at the index it was dropped
    on, the groups are the same groups as before, and a default group that
    was first is still first.  (The ids of the groups are taken to be
    pairwise different.) *)
Theorem handleGroupDrop_moves now s data draggedIndex dragged targetIndex target :
  getStorageData now s = (Ok data, s) →
  groups data !! draggedIndex = Some dragged →
  groups data !! targetIndex = Some target →
  draggedIndex ≠ targetIndex →
  Group.id dragged ≠ "default" →
  Group.id target ≠ "default" →
  NoDup (groupIds data) →
  ∃ s1 groups1,
    StoragePage.handleGroupDrop now (groups data) (Some draggedIndex) targetIndex s
    = (Ok groups1, s1)
    ∧ getGroups now s1 = (Ok groups1, s1)
    ∧ groups1 !! targetIndex = Some dragged
    ∧ delete targetIndex groups1 = delete draggedIndex (groups data)
    ∧ groups1 ≡ₚ groups data
    ∧ (∀ first, groups data !! 0 = Some first → Group.id first = "default" →
         groups1 !! 0 = Some first).
Proof.
  intros Hread Hdragged Htarget Hne Hd Ht Hnodup.
  destruct (StoragePage.moveItem draggedIndex targetIndex (groups data))
    as [groups1|] eqn:Hmove;
    [|unfold StoragePage.moveItem in Hmove; by rewrite Hdragged in Hmove].
  pose proof (moveItem_Permutation _ _ _ _ Hmove) as Hperm.
  destruct (reorderGroups_accepted now (Group.id <$> groups1) s data Hread)
    as (s1 & data1 & Hrun & Hread1 & Hids & Hsub & _).
  { intros k Hk. unfold groupIds. by rewrite <- Hperm. }
  { by rewrite length_fmap, Hperm. }
  assert (groups data1 = groups1) as Hgroups.
  { apply (same_keys Group.id (groups data)); [done | done | done |].
    intros v Hv. by rewrite <- Hperm. }
  exists s1, groups1. split.
  { unfold StoragePage.handleGroupDrop.
    rewrite bool_decide_eq_false_2 by done. rewrite Htarget.
    rewrite bool_decide_eq_false_2 by done. rewrite Hdragged.
    rewrite bool_decide_eq_false_2 by done.
    apply try_catch_run. rewrite moveItem_fmap, Hmove. simpl.
    rewrite (bind_run _ _ _ _ _ Hrun). unfold getGroups.
    by rewrite (bind_getStorageData _ _ _ _ Hread1), Hgroups. }
  split.
  { unfold getGroups. by rewrite (bind_getStorageData _ _ _ _ Hread1), Hgroups. }
  apply lookup_lt_Some in Htarget as Hlt.
  split; [by apply (moveItem_lookup draggedIndex _ (groups data))|].
  split; [|split; [done|]].
  - unfold StoragePage.moveItem in Hmove. rewrite Hdragged in Hmove.
    injection Hmove as <-.
    assert (length (take targetIndex (delete draggedIndex (groups data)))
            = targetIndex) as Hlen.
    { rewrite length_take_le; [done|]. rewrite length_delete by eauto. lia. }
    rewrite <- Hlen at 1. rewrite delete_middle. apply take_drop.
  - intros first Hfirst Hdefault. rewrite <- Hfirst.
    apply (moveItem_first draggedIndex targetIndex); [done | |].
    + destruct draggedIndex; [|lia]. congruence.
    + destruct targetIndex; [|lia]. congruence.
Qed.

Lemma handleGroupDrop_moves_witness :
  ∃ s1 groups1,
    StoragePage.handleGroupDrop sampleNow (groups threeGroups) (Some 1) 2
      (mkStore (Some threeGroups) None)
    = (Ok groups1, s1)
    ∧ getGroups sampleNow s1 = (Ok groups1, s1)
    ∧ groups1 !! 2 = Some sampleWork
    ∧ delete 2 groups1 = delete 1 (groups threeGroups)
    ∧ groups1 ≡ₚ groups threeGroups
    ∧ (∀ first, groups threeGroups !! 0 = Some first → Group.id first = "default" →
         groups1 !! 0 = Some first).
Proof.
  apply (handleGroupDrop_moves sampleNow (mkStore (Some threeGroups) None) threeGroups
           1 sampleWork 2 sampleReading);
    [reflexivity | reflexivity | reflexivity | lia | discriminate | discriminate |].
  unfold groupIds. simpl. repeat (apply NoDup_cons; split).
  - rewrite !elem_of_cons, elem_of_nil. intros [[=]|[[=]|[]]].
  - rewrite !elem_of_cons, elem_of_nil. intros [[=]|[]].
  - apply not_elem_of_nil.
  - apply NoDup_nil_2.
Defined.

(** * The PKCE code verifier *)

Example btoa_examples :
  btoa (String.list_ascii_of_string "Man") = "TWFu"
  ∧ btoa (String.list_ascii_of_string "Ma") = "TWE="
  ∧ btoa (String.list_ascii_of_string "M") = "TQ=="
  ∧ generateCodeVerifier [Ascii.ascii_of_N 251; Ascii.ascii_of_N 255; Ascii.ascii_of_N 190]
    = "-_--".
Proof. repeat split. Qed.

Lemma replaceAll_append c d s t :
  replaceAll c d (s +:+ t) = replaceAll c d s +:+ replaceAll c d t.
Proof.
  induction s as [|a s IH]; [done|].
  rewrite append_cons. simpl. destruct (Ascii.eqb a c).
  - by rewrite IH, append_assoc.
  - by rewrite IH.
Qed.

Lemma verifier_cons x s :
  replaceAll "=" "" (replaceAll "/" "_" (replaceAll "+" "-" (String x s)))
  = verifierPiece x
    +:+ replaceAll "=" "" (replaceAll "/" "_" (replaceAll "+" "-" s)).
Proof.
  unfold verifierPiece.
  change (String x s) with (String x "" +:+ s).
  by rewrite !replaceAll_append.
Qed.

Lemma alphabet_checked :
  forallb (λ x, match verifierPiece x with
                | String c "" => urlSafe c
                | _ => false
                end) base64Alphabet = true.
Proof. vm_compute. reflexivity. Qed.

Lemma verifierPiece_base64Char n :
  (n < 64)%N →
  ∃ c, verifierPiece (base64Char n) = String c "" ∧ urlSafe c = true.
Proof.
  intros Hn.
  assert (In (base64Char n) base64Alphabet) as Hin.
  { apply nth_In. change (length base64Alphabet) with 64%nat. lia. }
  pose proof (proj1 (forallb_forall _ _) alphabet_checked _ Hin) as Hchecked.
  simpl in Hchecked.
  destruct (verifierPiece (base64Char n)) as [|c [|]]; [done | eauto | done].
Qed.

Lemma triple_ind {A} (P : list A → Prop) :
  P [] → (∀ a, P [a]) → (∀ a b, P [a; b]) →
  (∀ a b c rest, P rest → P (a :: b :: c :: rest)) →
  ∀ l, P l.
Proof.
  intros Hnil Hone Htwo Hstep l.
  assert (P l ∧ (∀ a, P (a :: l)) ∧ (∀ a b, P (a :: b :: l))) as [Hl _]; [|done].
  induction l as [|c l (IH0 & IH1 & IH2)]; [done|].
  split; [apply IH1|]. split; [intros a; apply IH2|].
  intros a b. by apply Hstep.
Qed.

Lemma generateCodeVerifier_shape bytes :
  String.length (generateCodeVerifier bytes) = (4 * length bytes + 2) `div` 3
  ∧ allChars urlSafe (generateCodeVerifier bytes) = true.
Proof.
  unfold generateCodeVerifier.
  assert (verifierPiece "=" = "") as Hpad by reflexivity.
  induction bytes as [|a|a b|a b c rest [IHlen IHsafe]] using triple_ind.
  - done.
  - pose proof (Ascii.N_ascii_bounded a) as Ha. cbn [btoa]. cbv zeta.
    rewrite !verifier_cons.
    destruct (verifierPiece_base64Char (Ascii.N_of_ascii a / 4)) as (c1 & -> & H1);
      [apply N.Div0.div_lt_upper_bound; lia|].
    destruct (verifierPiece_base64Char ((Ascii.N_of_ascii a mod 4) * 16))
      as (c2 & -> & H2).
    { pose proof (N.mod_lt (Ascii.N_of_ascii a) 4). lia. }
    rewrite Hpad. repeat first [rewrite append_cons | rewrite append_empty_l].
    cbn [String.length allChars replaceAll]. by rewrite H1, H2.
  - pose proof (Ascii.N_ascii_bounded a) as Ha.
    pose proof (Ascii.N_ascii_bounded b) as Hb. cbn [btoa]. cbv zeta.
    rewrite !verifier_cons.
    destruct (verifierPiece_base64Char (Ascii.N_of_ascii a / 4)) as (c1 & -> & H1);
      [apply N.Div0.div_lt_upper_bound; lia|].
    destruct (verifierPiece_base64Char
                ((Ascii.N_of_ascii a mod 4) * 16 + Ascii.N_of_ascii b / 16))
      as (c2 & -> & H2).
    { pose proof (N.mod_lt (Ascii.N_of_ascii a) 4).
      assert (Ascii.N_of_ascii b / 16 < 16)%N
        by (apply N.Div0.div_lt_upper_bound; lia). lia. }
    destruct (verifierPiece_base64Char ((Ascii.N_of_ascii b mod 16) * 4))
      as (c3 & -> & H3).
    { pose proof (N.mod_lt (Ascii.N_of_ascii b) 16). lia. }
    rewrite Hpad. repeat first [rewrite append_cons | rewrite append_empty_l].
    cbn [String.length allChars replaceAll]. by rewrite H1, H2, H3.
  - pose proof (Ascii.N_ascii_bounded a) as Ha.
    pose proof (Ascii.N_ascii_bounded b) as Hb.
    pose proof (Ascii.N_ascii_bounded c) as Hc. cbn [btoa]. cbv zeta.
    rewrite !verifier_cons.
    destruct (verifierPiece_base64Char (Ascii.N_of_ascii a / 4)) as (c1 & -> & H1);
      [apply N.Div0.div_lt_upper_bound; lia|].
    destruct (verifierPiece_base64Char
                ((Ascii.N_of_ascii a mod 4) * 16 + Ascii.N_of_ascii b / 16))
      as (c2 & -> & H2).
    { pose proof (N.mod_lt (Ascii.N_of_ascii a) 4).
      assert (Ascii.N_of_ascii b / 16 < 16)%N
        by (apply N.Div0.div_lt_upper_bound; lia). lia. }
    destruct (verifierPiece_base64Char
                ((Ascii.N_of_ascii b mod 16) * 4 + Ascii.N_of_ascii c / 64))
      as (c3 & -> & H3).
    { pose proof (N.mod_lt (Ascii.N_of_ascii b) 16).
      assert (Ascii.N_of_ascii c / 64 < 4)%N
        by (apply N.Div0.div_lt_upper_bound; lia). lia. }
    destruct (verifierPiece_base64Char (Ascii.N_of_ascii c mod 64)) as (c4 & -> & H4).
    { pose proof (N.mod_lt (Ascii.N_of_ascii c) 64). lia. }
    repeat first [rewrite append_cons | rewrite append_empty_l].
    cbn [String.length allChars].
    rewrite H1, H2, H3, H4, IHsafe, IHlen. split; [|done].
    cbn [length].
    replace (4 * S (S (S (length rest))) + 2) with (4 * length rest + 2 + 4 * 3) by lia.
    rewrite Nat.div_add by done. lia.
Qed.

(** The code verifier is made of letters, digits, [-] and [_] only, and
    for [n] random bytes it is [(4 n + 2) / 3] characters long: 43
    characters for the 32 bytes that the code uses, the shortest length
    that RFC 7636 allows.  It is never empty then, so
    [authenticateWithGitHub], which reads back the verifier it stored,
    never fails for a missing code verifier. *)
Theorem generateCodeVerifier_wellformed bytes :
  String.length (generateCodeVerifier bytes) = (4 * length bytes + 2) `div` 3
  ∧ allChars urlSafe (generateCodeVerifier bytes) = true
  ∧ (length bytes = 32 →
     String.length (generateCodeVerifier bytes) = 43
     ∧ ∀ env clientId clientSecret w,
         codeVerifier env = generateCodeVerifier bytes →
         (authenticateWithGitHub env clientId clientSecret w).1
         ≠ Throw CodeVerifierNotFound).
Proof.
  destruct (generateCodeVerifier_shape bytes) as [Hlen Hsafe].
  split; [done|]. split; [done|]. intros Hbytes.
  rewrite Hbytes in Hlen. split; [done|].
  intros env clientId clientSecret w Hverifier.
  assert (codeVerifier env ≠ "") as Hne.
  { rewrite Hverifier. intros Hempty. by rewrite Hempty in Hlen. }
  destruct (authenticateWithGitHub_cases env clientId clientSecret w)
    as [(e & posted & Hrun & _)|(accessToken & url & code & tokenData & -> & _)];
    [|done].
  destruct w as [st a ev].
  unfold authenticateWithGitHub, liftStore, emit, bind, throw, ret in *; simpl in *.
  destruct (lastError env); [done|].
  destruct (callbackUrl env) as [url|]; [|done].
  destruct (truthy (searchParams_get url "error")); simpl; [by case_bool_decide|].
  destruct (truthy (searchParams_get url "code")); simpl; [|done].
  rewrite (bool_decide_eq_false_2 (codeVerifier env = "")) by done. simpl.
  destruct (tokenEndpoint env _) as [|status|tokenData]; simpl; [done..|].
  destruct (truthy (td_error tokenData)); simpl; [done|].
  destruct (access_token tokenData) as [accessToken|]; simpl; [|done].
  by case_bool_decide.
Qed.
